(** * scramTrimmer: adapter trimming of FASTQ reads

    A shallow embedding of the trimming engine ([phred33ToError],
    [meanError], [trimRead]), of the batch workers ([processBatch]), of the
    record source and of the two variants of [ProcessReadsFast] (the one
    that buffers the survivors behind a mutex and the one that streams them
    through a channel to a writer goroutine), with the properties of the
    specification stated and proved over it. *)

From Stdlib Require Import ZArith List Bool Lia Ascii String Permutation.
From Stdlib Require Import DecimalString.
From Stdlib Require Import Floats.SpecFloat.
Import ListNotations.

Local Open Scope string_scope.
Local Open Scope Z_scope.

(* ===================================================================== *)
(** * Go's [int] and [int64]: 64-bit two's complement *)
(* ===================================================================== *)

Module Int64.

Definition min_int : Z := - 2 ^ 63.
Definition max_int : Z := 2 ^ 63 - 1.

(** The value an [int] holds after an arithmetic result [z] wraps around. *)
Definition wrap (z : Z) : Z := (z + 2 ^ 63) mod 2 ^ 64 - 2 ^ 63.

Definition in_range (z : Z) : Prop := min_int <= z <= max_int.

Definition add (a b : Z) : Z := wrap (a + b).
Definition sub (a b : Z) : Z := wrap (a - b).

End Int64.

(* ===================================================================== *)
(** * Go strings: byte sequences with checked slicing *)
(* ===================================================================== *)

Module GoString.

(** [len(s)] *)
Definition len (s : string) : Z := Z.of_nat (String.length s).

(** [s[lo:hi]]; [None] is the run-time panic "slice bounds out of range". *)
Definition slice (s : string) (lo hi : Z) : option string :=
  if (0 <=? lo) && (lo <=? hi) && (hi <=? len s)
  then Some (substring (Z.to_nat lo) (Z.to_nat (hi - lo)) s)
  else None.

(** [s[:hi]] *)
Definition sliceTo (s : string) (hi : Z) : option string := slice s 0 hi.

(** [strings.HasPrefix(s, p)] *)
Definition HasPrefix (s p : string) : bool := prefix p s.

(** [strings.Index(s, sub)]: the index of the first instance of [sub] in
    [s], or [-1] if [sub] is not present. *)
Fixpoint indexFrom (s sub : string) (i : Z) : Z :=
  if prefix sub s then i
  else match s with
       | EmptyString => -1
       | String _ s' => indexFrom s' sub (i + 1)
       end.

Definition Index (s sub : string) : Z := indexFrom s sub 0.

(** [sub] occurs in [s] at byte offset [i]. *)
Definition occursAt (sub s : string) (i : Z) : Prop :=
  exists pre post, s = pre ++ sub ++ post /\ len pre = i.

Definition occurs (sub s : string) : Prop := exists i, occursAt sub s i.

(** [[]byte(s)] *)
Definition bytes (s : string) : list ascii := list_ascii_of_string s.

End GoString.

(* ===================================================================== *)
(** * float64: IEEE 754 binary64 *)
(* ===================================================================== *)

Module F64.

Definition prec : Z := 53.
Definition emax : Z := 1024.

Definition float64 : Type := spec_float.

Definition add : float64 -> float64 -> float64 := SFadd prec emax.
Definition sub : float64 -> float64 -> float64 := SFsub prec emax.
Definition mul : float64 -> float64 -> float64 := SFmul prec emax.
Definition div : float64 -> float64 -> float64 := SFdiv prec emax.
Definition sqrt : float64 -> float64 := SFsqrt prec emax.
Definition neg : float64 -> float64 := SFopp.
Definition abs : float64 -> float64 := SFabs.

(** Comparisons; each is false as soon as one side is NaN. *)
Definition eqb : float64 -> float64 -> bool := SFeqb.
Definition ltb : float64 -> float64 -> bool := SFltb.
Definition leb : float64 -> float64 -> bool := SFleb.
Definition gtb (x y : float64) : bool := SFltb y x.
Definition geb (x y : float64) : bool := SFleb y x.

(** Conversion of an integer, rounding to nearest even. *)
Definition of_Z (z : Z) : float64 := binary_normalize prec emax z 0 false.

Definition zero : float64 := S754_zero false.
Definition one : float64 := of_Z 1.
Definition two : float64 := of_Z 2.
Definition ten : float64 := of_Z 10.
Definition half : float64 := div one two.

(** The value of the literal [0.1]: the float64 nearest to one tenth. *)
Definition tenth : float64 := S754_finite false 7205759403792794 (-56).

(** The value of the literal [1e-5], the tolerance of the tests. *)
Definition tolerance : float64 := S754_finite false 5902958103587057 (-69).

Definition is_nan (x : float64) : bool :=
  match x with S754_nan => true | _ => false end.

Definition is_inf (x : float64) : bool :=
  match x with S754_infinity _ => true | _ => false end.

End F64.

(* ===================================================================== *)
(** * The [math] package: [Frexp], [Ldexp], [Modf], [Pow] *)
(* ===================================================================== *)

Module GoMath.
Import F64.

(** [math.Frexp]: [f = frac * 2^exp] with [1/2 <= |frac| < 1]. *)
Definition Frexp (f : float64) : float64 * Z :=
  match f with
  | S754_finite _ _ _ => SFfrexp prec emax f
  | _ => (f, 0)
  end.

(** [math.Ldexp]: [frac * 2^exp], rounded once. *)
Definition Ldexp (frac : float64) (exp : Z) : float64 := SFldexp prec emax frac exp.

(** Truncation of a float to an integer, as in the conversion [int64(f)]. *)
Definition to_Z (f : float64) : Z :=
  match f with
  | S754_finite s m e =>
      cond_Zopp s (if 0 <=? e then Zpos m * 2 ^ e else Zpos m / 2 ^ (- e))
  | _ => 0
  end.

(** [math.Modf] on a non-negative argument: integer and fractional part.
    Above one the fraction bits of the mantissa are cleared. *)
Definition Modf (f : float64) : float64 * float64 :=
  if ltb f one then
    if eqb f zero then (f, f) else (zero, f)
  else
    match f with
    | S754_finite s m e =>
        if e <? 0 then
          let int := match Zpos m / 2 ^ (- e) * 2 ^ (- e) with
                     | Zpos m' => S754_finite s m' e
                     | _ => zero
                     end in
          (int, sub f int)
        else (f, sub f f)
    | _ => (f, sub f f)
    end.

Definition signbit (f : float64) : bool :=
  match f with
  | S754_zero s | S754_infinity s | S754_finite s _ _ => s
  | S754_nan => false
  end.

Definition isOddInt (x : float64) : bool :=
  if geb (abs x) (of_Z (2 ^ 53)) then false
  else let '(xi, xf) := Modf (abs x) in
       eqb xf zero && Z.odd (to_Z xi).

Section Pow.

(** [math.Exp] and [math.Log] have one implementation per architecture;
    [Pow] uses them for the fractional part of the exponent only. *)
Variables Exp Log : float64 -> float64.

(** The loop [for i := int64(yi); i != 0; i >>= 1] of [pow], by repeated
    squaring; the fraction [x1] is kept in [1/2, 1). *)
Fixpoint powLoop (i : positive) (a1 : float64) (ae : Z) (x1 : float64) (xe : Z)
  : float64 * Z :=
  if (xe <? - 4096) || (4096 <? xe) then (a1, ae + xe)
  else
    let '(a1, ae) := if Z.odd (Zpos i) then (mul a1 x1, ae + xe) else (a1, ae) in
    let x1 := mul x1 x1 in
    let xe := 2 * xe in
    let '(x1, xe) := if ltb x1 half then (add x1 x1, xe - 1) else (x1, xe) in
    match i with
    | xH => (a1, ae)
    | xO p | xI p => powLoop p a1 ae x1 xe
    end.

(** [x**y] for [x = ±0]. *)
Definition powZero (x y : float64) : float64 :=
  if ltb y zero then
    if signbit x && isOddInt y then S754_infinity true else S754_infinity false
  else if gtb y zero then
    if signbit x && isOddInt y then x else zero
  else S754_nan.

(** [math.Pow(x, y)], the portable implementation. *)
Definition Pow (x y : float64) : float64 :=
  if eqb y zero || eqb x one then one
  else if eqb y one then x
  else if is_nan x || is_nan y then S754_nan
  else if eqb x zero then powZero x y
  else if is_inf y then
    if eqb x (neg one) then one
    else if Bool.eqb (ltb (abs x) one) (negb (signbit y)) then zero
    else S754_infinity false
  else if is_inf x then
    if signbit x then powZero (div one x) (neg y)
    else if ltb y zero then zero else S754_infinity false
  else if eqb y half then sqrt x
  else if eqb y (neg half) then div one (sqrt x)
  else
    let '(yi, yf) := Modf (abs y) in
    if negb (eqb yf zero) && ltb x zero then S754_nan
    else if geb yi (of_Z (2 ^ 63)) then
      if eqb x (neg one) then one
      else if Bool.eqb (ltb (abs x) one) (gtb y zero) then zero
      else S754_infinity false
    else
      let '(a1, yi) :=
        if negb (eqb yf zero) then
          let '(yf, yi) := if gtb yf half then (sub yf one, add yi one) else (yf, yi) in
          (Exp (mul yf (Log x)), yi)
        else (one, yi) in
      let '(x1, xe) := Frexp x in
      let '(a1, ae) :=
        match to_Z yi with
        | Zpos i => powLoop i a1 0 x1 xe
        | _ => (a1, 0)
        end in
      let '(a1, ae) := if ltb y zero then (div one a1, - ae) else (a1, ae) in
      Ldexp a1 ae.

End Pow.

(** ** The portable [exp] and [log]

    The implementations of [math.Exp] and [math.Log] that package [math]
    falls back on when the architecture has none of its own. *)

Definition Ln2Hi : float64 := S754_finite false 6243314766446592 (-53).
Definition Ln2Lo : float64 := S754_finite false 7382048951581814 (-85).
Definition Log2e : float64 := S754_finite false 6497320848556798 (-52).
Definition Overflow : float64 := S754_finite false 6243314768165359 (-43).
Definition Underflow : float64 := S754_finite true 6554261109157969 (-43).
Definition NearZero : float64 := S754_finite false 4503599627370496 (-80).
Definition P1 : float64 := S754_finite false 6004799503160661 (-55).
Definition P2 : float64 := S754_finite true 6405119469862291 (-61).
Definition P3 : float64 := S754_finite false 4880090809097772 (-66).
Definition P4 : float64 := S754_finite true 7807914560613361 (-72).
Definition P5 : float64 := S754_finite false 6253375523824848 (-77).
Definition L1 : float64 := S754_finite false 6004799503160723 (-53).
Definition L2 : float64 := S754_finite false 7205759403686404 (-54).
Definition L3 : float64 := S754_finite false 5146971033736025 (-54).
Definition L4 : float64 := S754_finite false 8006390766270639 (-55).
Definition L5 : float64 := S754_finite false 6551322304906206 (-55).
Definition L6 : float64 := S754_finite false 5517391500461727 (-55).
Definition L7 : float64 := S754_finite false 5331612937900612 (-55).
Definition Sqrt2Half : float64 := S754_finite false 6369051672525773 (-53).

(** [exp(r)] for [r = hi - lo] in [-ln2/2, ln2/2], scaled by [2^k]. *)
Definition expmulti (hi lo : float64) (k : Z) : float64 :=
  let r := sub hi lo in
  let t := mul r r in
  let c := sub r (mul t (add P1 (mul t (add P2 (mul t (add P3 (mul t (add P4 (mul t P5))))))))) in
  let y := sub one (sub (sub lo (div (mul r c) (sub two c))) hi) in
  Ldexp y k.

Definition exp (x : float64) : float64 :=
  if is_nan x then x
  else match x with
  | S754_infinity false => x
  | S754_infinity true => zero
  | _ =>
    if gtb x Overflow then S754_infinity false
    else if ltb x Underflow then zero
    else if ltb (neg NearZero) x && ltb x NearZero then add one x
    else
      let k := if ltb x zero then to_Z (sub (mul Log2e x) half)
               else if gtb x zero then to_Z (add (mul Log2e x) half)
               else 0 in
      let hi := sub x (mul (of_Z k) Ln2Hi) in
      let lo := mul (of_Z k) Ln2Lo in
      expmulti hi lo k
  end.

Definition log (x : float64) : float64 :=
  if is_nan x then x
  else match x with
  | S754_infinity false => x
  | _ =>
    if ltb x zero then S754_nan
    else if eqb x zero then S754_infinity true
    else
      let '(f1, ki) := Frexp x in
      let '(f1, ki) := if ltb f1 Sqrt2Half then (mul f1 two, ki - 1) else (f1, ki) in
      let f := sub f1 one in
      let k := of_Z ki in
      let s := div f (add two f) in
      let s2 := mul s s in
      let s4 := mul s2 s2 in
      let t1 := mul s2 (add L1 (mul s4 (add L3 (mul s4 (add L5 (mul s4 L7)))))) in
      let t2 := mul s4 (add L2 (mul s4 (add L4 (mul s4 L6)))) in
      let R := add t1 t2 in
      let hfsq := mul (mul half f) f in
      sub (mul k Ln2Hi) (sub (sub hfsq (add (mul s (add hfsq R)) (mul k Ln2Lo))) f)
  end.

End GoMath.

(* ===================================================================== *)
(** * Record model and trimming engine *)
(* ===================================================================== *)

Record FastqRead : Type := {
  Header : string;
  Sequence : string;
  Quality : string
}.

(** What a call returns: a value, an [error] (identified by its message,
    as [processBatch] does with [err.Error()]), or a run-time panic. *)
Inductive result (A : Type) : Type :=
| Ok (a : A)
| Err (msg : string)
| Panic.
Arguments Ok {A} a.
Arguments Err {A} msg.
Arguments Panic {A}.

Section Trimming.
Import F64 GoString.

Variables Exp Log : float64 -> float64.

(** [math.Pow(10, -(float64(qual)-33)/10.0)] *)
Definition phred33ToError (qual : ascii) : float64 :=
  GoMath.Pow Exp Log ten
    (div (neg (sub (of_Z (Z.of_N (N_of_ascii qual))) (of_Z 33))) ten).

Definition meanError (quality : list ascii) : float64 :=
  let total := fold_left (fun total q => add total (phred33ToError q)) quality zero in
  div total (of_Z (Z.of_nat (List.length quality))).

Definition trimRead (read : FastqRead) (adapter : string)
    (minLen trim5 trim3 min5Match : Z) (maxError : float64) : result FastqRead :=
  match sliceTo adapter min5Match with
  | None => Panic
  | Some pat =>
      let adapterIndex := Index (Sequence read) pat in
      if adapterIndex =? -1 then Err "adapter missing"
      else
        let start := trim5 in
        let end_ := Int64.sub adapterIndex trim3 in
        if Int64.sub end_ start <? minLen then Err "too short"
        else
          match slice (Sequence read) start end_ with
          | None => Panic
          | Some trimmedSequence =>
              match slice (Quality read) start end_ with
              | None => Panic
              | Some trimmedQuality =>
                  if geb (meanError (bytes trimmedQuality)) maxError
                  then Err "low quality"
                  else Ok {| Header := Header read;
                             Sequence := trimmedSequence;
                             Quality := trimmedQuality |}
              end
          end
  end.

End Trimming.

(* ===================================================================== *)
(** * Workers: [processBatch] *)
(* ===================================================================== *)

(** What the workers share: the three counters, updated with
    [atomic.AddInt64], and the survivors, which are appended under the
    mutex in one variant and sent on [resultsChan] in the other.  Both
    keep them in the order in which the workers hand them over. *)
Record Shared : Type := {
  adapterMissingCount : Z;
  tooShortCount : Z;
  lowQualityCount : Z;
  trimmedReads : list FastqRead
}.

Definition initShared : Shared :=
  {| adapterMissingCount := 0; tooShortCount := 0; lowQualityCount := 0;
     trimmedReads := [] |}.

Section Workers.
Import F64 GoString.

Variables Exp Log : float64 -> float64.
Variable adapter : string.
Variables minLen trim5 trim3 min5Match : Z.
Variable maxError : float64.

(** One iteration of the loop of [processBatch]; [None] when [trimRead]
    panics, which ends the process. *)
Definition processRead (read : FastqRead) (sh : Shared) : option Shared :=
  match trimRead Exp Log read adapter minLen trim5 trim3 min5Match maxError with
  | Panic => None
  | Err msg =>
      Some (if (msg =? "adapter missing")%string then
              {| adapterMissingCount := Int64.add (adapterMissingCount sh) 1;
                 tooShortCount := tooShortCount sh;
                 lowQualityCount := lowQualityCount sh;
                 trimmedReads := trimmedReads sh |}
            else if (msg =? "too short")%string then
              {| adapterMissingCount := adapterMissingCount sh;
                 tooShortCount := Int64.add (tooShortCount sh) 1;
                 lowQualityCount := lowQualityCount sh;
                 trimmedReads := trimmedReads sh |}
            else if (msg =? "low quality")%string then
              {| adapterMissingCount := adapterMissingCount sh;
                 tooShortCount := tooShortCount sh;
                 lowQualityCount := Int64.add (lowQualityCount sh) 1;
                 trimmedReads := trimmedReads sh |}
            else sh)
  | Ok trimmedRead =>
      Some {| adapterMissingCount := adapterMissingCount sh;
              tooShortCount := tooShortCount sh;
              lowQualityCount := lowQualityCount sh;
              trimmedReads := trimmedReads sh ++ [trimmedRead] |}
  end.

Fixpoint processBatch (batch : list FastqRead) (sh : Shared) : option Shared :=
  match batch with
  | [] => Some sh
  | read :: rest =>
      match processRead read sh with
      | None => None
      | Some sh' => processBatch rest sh'
      end
  end.

(** The goroutines started with [go processBatch(...)] run interleaved.
    Their only shared accesses are the atomic increments and the guarded
    append (or channel send), so a run is a sequence of whole loop
    iterations: [sched] names the worker that moves next, and the workers
    still busy when [sched] ends finish one after the other. *)
Fixpoint replaceNth {A : Type} (n : nat) (x : A) (l : list A) : list A :=
  match l, n with
  | [], _ => []
  | _ :: t, O => x :: t
  | h :: t, S n' => h :: replaceNth n' x t
  end.

Fixpoint finishWorkers (batches : list (list FastqRead)) (sh : Shared) : option Shared :=
  match batches with
  | [] => Some sh
  | batch :: rest =>
      match processBatch batch sh with
      | None => None
      | Some sh' => finishWorkers rest sh'
      end
  end.

Fixpoint runWorkers (sched : list nat) (batches : list (list FastqRead)) (sh : Shared)
  : option Shared :=
  match sched with
  | [] => finishWorkers batches sh
  | w :: sched' =>
      match nth_error batches w with
      | Some (read :: rest) =>
          match processRead read sh with
          | None => None
          | Some sh' => runWorkers sched' (replaceNth w rest batches) sh'
          end
      | _ => runWorkers sched' batches sh
      end
  end.

End Workers.

(* ===================================================================== *)
(** * Record source: the scanning loop of [ProcessReadsFast] *)
(* ===================================================================== *)

(** A [bufio.Scanner] over the decompressed stream: the lines it yields,
    then [Scan] returns false, [Text] the empty string and [Err] the
    error that stopped it, if any. *)
Record Scanner : Type := {
  lines : list string;
  scanErr : option string
}.

Record ScanState : Type := {
  reads : list FastqRead;
  dispatched : list (list FastqRead);
  totalReads : Z
}.

Definition initScan : ScanState :=
  {| reads := []; dispatched := []; totalReads := 0 |}.

Section RecordSource.
Import GoString.

Definition decimal (z : Z) : string := NilZero.string_of_int (Z.to_int z).

(** The checks made on the four lines of one record. *)
Definition scanRecord (header sequence plus quality : string) : result FastqRead :=
  if negb (HasPrefix header "@") then
    Err ("invalid fastq file: expected '@' at the beginning of header line, got: "
         ++ header)
  else if negb (plus =? "+")%string then
    Err ("invalid fastq file: expected '+' line, got: " ++ plus)
  else if negb (len sequence =? len quality) then
    Err ("invalid fastq file: sequence and quality strings must have the same length, got: "
         ++ decimal (len sequence) ++ " and " ++ decimal (len quality))
  else Ok {| Header := header; Sequence := sequence; Quality := quality |}.

Variable batchSize : Z.

(** [reads = append(reads, ...)], [totalReads++], and the hand-over of a
    full batch to a new worker. *)
Definition collect (st : ScanState) (read : FastqRead) : ScanState :=
  let reads' := (reads st ++ [read])%list in
  let total := Int64.add (totalReads st) 1 in
  if Z.of_nat (List.length reads') =? batchSize then
    {| reads := []; dispatched := dispatched st ++ [reads']; totalReads := total |}
  else
    {| reads := reads'; dispatched := dispatched st; totalReads := total |}.

(** [for scanner.Scan() { ... }]: when the stream ends inside a record
    the remaining calls of [Scan] fail and [Text] is empty. *)
Fixpoint scanLoop (lines : list string) (st : ScanState) : result ScanState :=
  match lines with
  | [] => Ok st
  | header :: sequence :: plus :: quality :: rest =>
      match scanRecord header sequence plus quality with
      | Ok read => scanLoop rest (collect st read)
      | Err e => Err e
      | Panic => Panic
      end
  | header :: short =>
      match scanRecord header (nth 0 short "") (nth 1 short "") (nth 2 short "") with
      | Ok read => Ok (collect st read)
      | Err e => Err e
      | Panic => Panic
      end
  end.

(** The batches that have a worker once the loop is over: the full ones
    and the remaining reads, if any. *)
Definition allBatches (st : ScanState) : list (list FastqRead) :=
  if 0 <? Z.of_nat (List.length (reads st))
  then (dispatched st ++ [reads st])%list
  else dispatched st.

End RecordSource.

(* ===================================================================== *)
(** * Output sink *)
(* ===================================================================== *)

(** The [*bufio.Writer] the reads are written to: each call changes the
    writer and may return an error. *)
Class Writer (W : Type) : Type := {
  WriteString : W -> string -> W * option string;
  Flush : W -> W * option string
}.

Definition nl : string := String "010"%char EmptyString.

(** A writer over memory, which never fails (a [bytes.Buffer]). *)
Definition memWriter : Writer string :=
  {| WriteString := fun w s => (w ++ s, None);
     Flush := fun w => (w, None) |}.

(** A [bufio.Writer] of the default size over a device that rejects every
    write: data is accepted while it fits in the buffer; the error shows
    up when the buffer has to be written out. *)
Definition noSpace : string := "no space left on device".

Definition fullDisk : Writer string :=
  {| WriteString := fun w s =>
       if GoString.len w + GoString.len s <=? 4096 then (w ++ s, None)
       else (w, Some noSpace);
     Flush := fun w =>
       if GoString.len w =? 0 then (w, None) else (w, Some noSpace) |}.

(** A writer whose every write fails at once (an unbuffered device). *)
Definition brokenPipe : Writer unit :=
  {| WriteString := fun w _ => (w, Some "broken pipe");
     Flush := fun w => (w, Some "broken pipe") |}.

(** What a completed run prints. *)
Record Report : Type := {
  total : Z;
  trimmed : Z;
  adapterMissing : Z;
  tooShort : Z;
  lowQuality : Z
}.

(** The files of a run: whether opening the input, starting to decompress
    it and creating the output succeed, and the decompressed stream. *)
Record Files : Type := {
  openErr : option string;
  gzipErr : option string;
  createErr : option string;
  scanner : Scanner
}.

(* ===================================================================== *)
(** * [ProcessReadsFast], survivors buffered behind the mutex *)
(* ===================================================================== *)

Module Buffered.
Section Run.
Import F64.

Variables Exp Log : float64 -> float64.
Context {W : Type} {writerOps : Writer W}.

Definition batchSize : Z := 1000000.

Fixpoint writeTrimmedReads (trimmedReads : list FastqRead) (writer : W) : W * option string :=
  match trimmedReads with
  | [] => (writer, None)
  | read :: rest =>
      match WriteString writer (Header read ++ nl) with
      | (writer, Some err) => (writer, Some err)
      | (writer, None) =>
      match WriteString writer (Sequence read ++ nl) with
      | (writer, Some err) => (writer, Some err)
      | (writer, None) =>
      match WriteString writer ("+" ++ nl) with
      | (writer, Some err) => (writer, Some err)
      | (writer, None) =>
      match WriteString writer (Quality read ++ nl) with
      | (writer, Some err) => (writer, Some err)
      | (writer, None) => writeTrimmedReads rest writer
      end end end end
  end.

(** [ProcessReadsFast] with the batch size as an argument.  The workers
    are run once the scan is over, as [wg.Wait] observes them: for a run
    whose scan ends with an error this is the run in which the error is
    returned before a worker started inside the loop panics. *)
Definition ProcessReadsFastWith (batchSize : Z) (files : Files) (writer : W)
    (sched : list nat) (adapter : string) (minLen trim5 trim3 min5Match : Z)
    (maxError : float64) : result (Report * W) :=
  match openErr files with Some err => Err err | None =>
  match gzipErr files with Some err => Err err | None =>
  match createErr files with Some err => Err err | None =>
  match scanLoop batchSize (lines (scanner files)) initScan with
  | Err err => Err err
  | Panic => Panic
  | Ok st =>
      match scanErr (scanner files) with
      | Some err => Err ("error reading file: " ++ err)
      | None =>
          match runWorkers Exp Log adapter minLen trim5 trim3 min5Match maxError
                  sched (allBatches st) initShared with
          | None => Panic
          | Some sh =>
              let totalTrimmedReads := Z.of_nat (List.length (trimmedReads sh)) in
              match writeTrimmedReads (trimmedReads sh) writer with
              | (_, Some err) => Err err
              | (writer, None) =>
                  let writer := fst (Flush writer) in
                  Ok ({| total := totalReads st;
                         trimmed := totalTrimmedReads;
                         adapterMissing := adapterMissingCount sh;
                         tooShort := tooShortCount sh;
                         lowQuality := lowQualityCount sh |}, writer)
              end
          end
      end
  end end end end.

Definition ProcessReadsFast := ProcessReadsFastWith batchSize.

End Run.
End Buffered.

(* ===================================================================== *)
(** * [ProcessReadsFast], survivors streamed to a writer goroutine *)
(* ===================================================================== *)

Module Streaming.
Section Run.
Import F64.

Variables Exp Log : float64 -> float64.
Context {W : Type} {writerOps : Writer W}.

Definition batchSize : Z := 10000.

(** The writer goroutine: [resultsChan] is the sequence of reads received
    until the channel is closed. *)
Fixpoint writeResults (writer : W) (resultsChan : list FastqRead) (totalTrimmedReads : Z)
  : W * Z :=
  match resultsChan with
  | [] => (fst (Flush writer), totalTrimmedReads)
  | read :: rest =>
      let writer := fst (WriteString writer (Header read ++ nl)) in
      let writer := fst (WriteString writer (Sequence read ++ nl)) in
      let writer := fst (WriteString writer ("+" ++ nl)) in
      let writer := fst (WriteString writer (Quality read ++ nl)) in
      writeResults writer rest (Int64.add totalTrimmedReads 1)
  end.

(** [ProcessReadsFast] with the batch size as an argument; the workers
    are run once the scan is over, as in the other variant. *)
Definition ProcessReadsFastWith (batchSize : Z) (files : Files) (writer : W)
    (sched : list nat) (adapter : string) (minLen trim5 trim3 min5Match : Z)
    (maxError : float64) : result (Report * W) :=
  match openErr files with Some err => Err err | None =>
  match gzipErr files with Some err => Err err | None =>
  match createErr files with Some err => Err err | None =>
  match scanLoop batchSize (lines (scanner files)) initScan with
  | Err err => Err err
  | Panic => Panic
  | Ok st =>
      match scanErr (scanner files) with
      | Some err => Err ("error reading file: " ++ err)
      | None =>
          match runWorkers Exp Log adapter minLen trim5 trim3 min5Match maxError
                  sched (allBatches st) initShared with
          | None => Panic
          | Some sh =>
              let '(writer, totalTrimmedReads) := writeResults writer (trimmedReads sh) 0 in
              Ok ({| total := totalReads st;
                     trimmed := totalTrimmedReads;
                     adapterMissing := adapterMissingCount sh;
                     tooShort := tooShortCount sh;
                     lowQuality := lowQualityCount sh |}, writer)
          end
      end
  end end end end.

Definition ProcessReadsFast := ProcessReadsFastWith batchSize.

End Run.
End Streaming.

(* ===================================================================== *)
(** * Console report: [Comma] *)
(* ===================================================================== *)

(** [strconv.FormatInt(value, 10)] *)
Definition FormatInt (value : Z) : string := decimal value.

(** The loop [for i := len(str) - 1; i >= 0; i--] of [Comma]: [str] is
    read from its last character to its first. *)
Fixpoint commaLoop (str : list ascii) (result : string) (count : Z) : string :=
  match str with
  | [] => result
  | c :: rest =>
      let result := if (0 <? count) && (count mod 3 =? 0) then "," ++ result else result in
      commaLoop rest (String c result) (count + 1)
  end.

Definition Comma (value : Z) : string :=
  commaLoop (rev (GoString.bytes (FormatInt value))) "" 0.

(** [(float64(totalTrimmedReads) / float64(totalReads)) * 100], the
    percentage that [ProcessReadsFast] prints. *)
Definition trimmedReadPercentage (totalTrimmedReads totalReads : Z) : F64.float64 :=
  F64.mul (F64.div (F64.of_Z totalTrimmedReads) (F64.of_Z totalReads)) (F64.of_Z 100).

(* ===================================================================== *)
(** * Vocabulary of the properties *)
(* ===================================================================== *)

(** ** Example data, from the tests of the repository *)

(** The read of the tests of [trimRead]. *)
Definition exampleRead : FastqRead :=
  {| Header := "@Header"; Sequence := "ATCGATCC"; Quality := "FFFFFFFF" |}.

Definition lowQualityRead : FastqRead :=
  {| Header := "@Header"; Sequence := "ATCGATCC"; Quality := "!!!!!!!!" |}.

Definition secondRead : FastqRead :=
  {| Header := "@READ2"; Sequence := "GGGGATCC"; Quality := "IIIIIIII" |}.

(** The input of the test of [ProcessReadsFast]: one record. *)
Definition testFiles : Files :=
  {| openErr := None; gzipErr := None; createErr := None;
     scanner := {| lines := ["@READ1"; "ATCGATCC"; "+"; "IIIIIIII"]; scanErr := None |} |}.

(** ** Float64 values of small integers *)

(** [p] followed by [n] zero bits. *)
Definition shl (p : positive) (n : nat) : positive := Nat.iter n xO p.

(** The float64 of a positive integer of at most 53 bits. *)
Definition norm (j : positive) : spec_float :=
  S754_finite false (shl j (Z.to_nat (53 - Zpos (digits2_pos j)))) (Zpos (digits2_pos j) - 53).

(** ** Outcomes of the workers *)

(** Two outcomes of the workers agree: both panicked, or the counters are
    equal and the survivors are the same up to their order. *)
Definition sameShared (a b : Shared) : Prop :=
  adapterMissingCount a = adapterMissingCount b /\
  tooShortCount a = tooShortCount b /\
  lowQualityCount a = lowQualityCount b /\
  Permutation (trimmedReads a) (trimmedReads b).

Definition sameOutcome (a b : option Shared) : Prop :=
  match a, b with
  | Some x, Some y => sameShared x y
  | None, None => True
  | _, _ => False
  end.

(** The reads accounted for so far. *)
Definition accounted (sh : Shared) : Z :=
  adapterMissingCount sh + tooShortCount sh + lowQualityCount sh +
  Z.of_nat (List.length (trimmedReads sh)).

Definition countersNonneg (sh : Shared) : Prop :=
  0 <= adapterMissingCount sh /\ 0 <= tooShortCount sh /\ 0 <= lowQualityCount sh.

(** What a worker does with a read it did not panic on. *)
Inductive action : Type :=
| CountAdapterMissing
| CountTooShort
| CountLowQuality
| Forward (trimmedRead : FastqRead).

Definition apply (a : action) (sh : Shared) : Shared :=
  match a with
  | CountAdapterMissing =>
      {| adapterMissingCount := Int64.add (adapterMissingCount sh) 1;
         tooShortCount := tooShortCount sh;
         lowQualityCount := lowQualityCount sh;
         trimmedReads := trimmedReads sh |}
  | CountTooShort =>
      {| adapterMissingCount := adapterMissingCount sh;
         tooShortCount := Int64.add (tooShortCount sh) 1;
         lowQualityCount := lowQualityCount sh;
         trimmedReads := trimmedReads sh |}
  | CountLowQuality =>
      {| adapterMissingCount := adapterMissingCount sh;
         tooShortCount := tooShortCount sh;
         lowQualityCount := Int64.add (lowQualityCount sh) 1;
         trimmedReads := trimmedReads sh |}
  | Forward r =>
      {| adapterMissingCount := adapterMissingCount sh;
         tooShortCount := tooShortCount sh;
         lowQualityCount := lowQualityCount sh;
         trimmedReads := trimmedReads sh ++ [r] |}
  end.

Definition applyAll (acts : list action) (sh : Shared) : Shared :=
  fold_left (fun sh a => apply a sh) acts sh.

Section Verdicts.

Variables Exp Log : F64.float64 -> F64.float64.
Variable adapter : string.
Variables minLen trim5 trim3 min5Match : Z.
Variable maxError : F64.float64.

(** The action a read leads to; [None] when [trimRead] panics. *)
Definition verdict (read : FastqRead) : option action :=
  match trimRead Exp Log read adapter minLen trim5 trim3 min5Match maxError with
  | Panic => None
  | Ok r => Some (Forward r)
  | Err msg =>
      Some (if (msg =? "adapter missing")%string then CountAdapterMissing
            else if (msg =? "too short")%string then CountTooShort
            else CountLowQuality)
  end.

Fixpoint verdicts (batch : list FastqRead) : option (list action) :=
  match batch with
  | [] => Some []
  | read :: rest =>
      match verdict read, verdicts rest with
      | Some a, Some acts => Some (a :: acts)
      | _, _ => None
      end
  end.

End Verdicts.

(** ** Records of the stream *)

(** The stream cut into records of four lines; lines missing at the end
    of the stream read as empty. *)
Fixpoint records (lines : list string) : list (string * string * string * string) :=
  match lines with
  | [] => []
  | header :: sequence :: plus :: quality :: rest =>
      (header, sequence, plus, quality) :: records rest
  | header :: short =>
      [(header, nth 0 short "", nth 1 short "", nth 2 short "")]
  end.

Definition recordLines (rec : string * string * string * string) : list string :=
  let '(header, sequence, plus, quality) := rec in [header; sequence; plus; quality].

Definition toRead (rec : string * string * string * string) : FastqRead :=
  let '(header, sequence, plus, quality) := rec in
  {| Header := header; Sequence := sequence; Quality := quality |}.

(** The three structural checks. *)
Definition wellFormed (rec : string * string * string * string) : Prop :=
  let '(header, sequence, plus, quality) := rec in
  GoString.HasPrefix header "@" = true /\ plus = "+" /\
  GoString.len sequence = GoString.len quality.

Definition check (rec : string * string * string * string) : result FastqRead :=
  let '(header, sequence, plus, quality) := rec in scanRecord header sequence plus quality.

(** The reads collected so far, batched or not. *)
Definition readsOf (st : ScanState) : list FastqRead :=
  (List.concat (dispatched st) ++ reads st)%list.

(** [n] increments of an [int64] counter. *)
Definition countUp (n : nat) (z : Z) : Z := Nat.iter n (fun t => Int64.add t 1) z.

(** ** Thousands separators *)

(** A string read from the left, with a comma after each character that is
    followed by a positive multiple of three characters. *)
Fixpoint groupThousands (s : string) : string :=
  match s with
  | EmptyString => EmptyString
  | String c rest =>
      String c ((if (0 <? GoString.len rest) && (GoString.len rest mod 3 =? 0)
                 then "," else "") ++ groupThousands rest)
  end.

Fixpoint dropCommas (s : string) : string :=
  match s with
  | EmptyString => EmptyString
  | String c rest => if (c =? ",")%char then dropCommas rest else String c (dropCommas rest)
  end.

(** ** Batches *)

(** Every batch handed over holds [batchSize] reads, and fewer are
    pending. *)
Definition batched (batchSize : Z) (st : ScanState) : Prop :=
  Forall (fun x => Z.of_nat (List.length x) = batchSize) (dispatched st) /\
  Z.of_nat (List.length (reads st)) < batchSize.

(** ** The reads a worker keeps *)

Section Survivors.

Variables Exp Log : F64.float64 -> F64.float64.
Variable adapter : string.
Variables minLen trim5 trim3 min5Match : Z.
Variable maxError : F64.float64.

(** The reads that [trimRead] returns for a batch, in the order of the
    batch. *)
Fixpoint survivors (batch : list FastqRead) : list FastqRead :=
  match batch with
  | [] => []
  | read :: rest =>
      match trimRead Exp Log read adapter minLen trim5 trim3 min5Match maxError with
      | Ok r => r :: survivors rest
      | _ => survivors rest
      end
  end.

(** [trimRead] answers [msg] for the read. *)
Definition answers (msg : string) (read : FastqRead) : bool :=
  match trimRead Exp Log read adapter minLen trim5 trim3 min5Match maxError with
  | Err m => (m =? msg)%string
  | _ => false
  end.

Definition countAnswers (msg : string) (batch : list FastqRead) : Z :=
  Z.of_nat (List.length (filter (answers msg) batch)).

End Survivors.

(** ** The text of the output *)

(** The four lines of a read in the output. *)
Definition fastqLines (r : FastqRead) : list string :=
  [Header r; Sequence r; "+"; Quality r].

(** Lines, each one ended by a line feed. *)
Fixpoint joinLines (ls : list string) : string :=
  match ls with
  | [] => ""
  | l :: rest => (l ++ nl) ++ joinLines rest
  end.

Definition fastqText (rs : list FastqRead) : string :=
  joinLines (List.concat (map fastqLines rs)).

(** ** The lines of a text *)

Definition LF : ascii := "010"%char.
Definition CR : ascii := "013"%char.

(** [dropCR] of [bufio]: the line without a final carriage return. *)
Fixpoint dropCR (data : string) : string :=
  match data with
  | EmptyString => EmptyString
  | String c rest =>
      match rest with
      | EmptyString => if (c =? CR)%char then EmptyString else data
      | String _ _ => String c (dropCR rest)
      end
  end.

(** The tokens a [bufio.Scanner] yields for [data] with its default split
    function [ScanLines]: the text up to each line feed, and what follows
    the last one if it is not empty, each without a final carriage return;
    [line] holds the bytes of the line being read. *)
Fixpoint scanLines (data : string) (line : string) : list string :=
  match data with
  | EmptyString => if (line =? "")%string then [] else [dropCR line]
  | String c rest =>
      if (c =? LF)%char then dropCR line :: scanLines rest ""
      else scanLines rest (line ++ String c "")
  end.

Definition ScanLines (data : string) : list string := scanLines data "".

(** A line with neither line feed nor carriage return. *)
Definition clean (line : string) : Prop :=
  ~ In LF (GoString.bytes line) /\ ~ In CR (GoString.bytes line).

(** ** What a run returns, without the writer *)

Definition outcome {W : Type} (r : result (Report * W)) : result Report :=
  match r with
  | Ok (report, _) => Ok report
  | Err msg => Err msg
  | Panic => Panic
  end.

(* ===================================================================== *)
(** * Properties of the integer and string layer *)
(* ===================================================================== *)

Lemma wrap_in_range (z : Z) : Int64.in_range z -> Int64.wrap z = z.
Proof.
  unfold Int64.in_range, Int64.wrap, Int64.min_int, Int64.max_int. intros H.
  rewrite Z.mod_small; lia.
Qed.

Lemma wrap_range (z : Z) : Int64.in_range (Int64.wrap z).
Proof.
  unfold Int64.in_range, Int64.wrap, Int64.min_int, Int64.max_int.
  pose proof (Z.mod_pos_bound (z + 2 ^ 63) (2 ^ 64) ltac:(lia)). lia.
Qed.

Module StringFacts.
Import GoString.

Lemma len_nonneg (s : string) : 0 <= len s.
Proof. unfold len. lia. Qed.

Lemma len_String (c : ascii) (s : string) : len (String c s) = len s + 1.
Proof. unfold len. cbn [String.length]. lia. Qed.

Lemma len_append (s t : string) : len (s ++ t) = len s + len t.
Proof.
  unfold len. induction s as [|c s IH]; cbn [append String.length]; [reflexivity|].
  rewrite !Nat2Z.inj_succ. lia.
Qed.

Lemma length_substring (s : string) (n m : nat) :
  (n + m <= String.length s)%nat -> String.length (substring n m s) = m.
Proof.
  revert n m. induction s as [|c s IH]; intros n m H; simpl in *.
  - destruct n, m; simpl; try reflexivity; lia.
  - destruct n as [|n].
    + destruct m as [|m]; simpl; [reflexivity|]. f_equal. apply IH. lia.
    + apply IH. lia.
Qed.

Lemma slice_Some (s : string) (lo hi : Z) (t : string) :
  slice s lo hi = Some t ->
  0 <= lo /\ lo <= hi /\ hi <= len s /\
  t = substring (Z.to_nat lo) (Z.to_nat (hi - lo)) s /\ len t = hi - lo.
Proof.
  unfold slice. destruct ((0 <=? lo) && (lo <=? hi) && (hi <=? len s)) eqn:E; [|discriminate].
  intros H. injection H as <-.
  apply andb_prop in E as [E E3]. apply andb_prop in E as [E1 E2].
  apply Z.leb_le in E1, E2, E3.
  repeat split; try assumption.
  unfold len in *. rewrite length_substring; lia.
Qed.

Lemma slice_in_bounds (s : string) (lo hi : Z) :
  0 <= lo -> lo <= hi -> hi <= len s ->
  slice s lo hi = Some (substring (Z.to_nat lo) (Z.to_nat (hi - lo)) s).
Proof.
  intros H1 H2 H3. unfold slice.
  apply Z.leb_le in H1, H2, H3. rewrite H1, H2, H3. reflexivity.
Qed.

Lemma slice_None (s : string) (lo hi : Z) :
  slice s lo hi = None <-> ~ (0 <= lo /\ lo <= hi /\ hi <= len s).
Proof.
  unfold slice. split.
  - destruct ((0 <=? lo) && (lo <=? hi) && (hi <=? len s)) eqn:E; [discriminate|].
    intros _ (H1 & H2 & H3). apply Z.leb_le in H1, H2, H3.
    rewrite H1, H2, H3 in E. discriminate.
  - intros H. destruct ((0 <=? lo) && (lo <=? hi) && (hi <=? len s)) eqn:E; [|reflexivity].
    exfalso. apply H.
    apply andb_prop in E as [E E3]. apply andb_prop in E as [E1 E2].
    apply Z.leb_le in E1, E2, E3. auto.
Qed.

(** [prefix] decides "begins with". *)
Lemma prefix_spec (p s : string) : prefix p s = true <-> exists post, s = p ++ post.
Proof.
  revert s. induction p as [|c p IH]; intros s.
  - split; [intros _; exists s; reflexivity | destruct s; reflexivity].
  - destruct s as [|d s]; cbn [prefix append].
    + split; [discriminate | intros [post H]; discriminate].
    + destruct (ascii_dec c d) as [->|Hne].
      * rewrite IH. split; intros [post H]; exists post.
        -- now rewrite H.
        -- now injection H.
      * split; [discriminate | intros [post H]; injection H; congruence].
Qed.

Lemma occursAt_nonneg (sub s : string) (i : Z) : occursAt sub s i -> 0 <= i.
Proof. intros (pre & post & _ & <-). apply len_nonneg. Qed.

Lemma occursAt_zero (sub s : string) : occursAt sub s 0 <-> prefix sub s = true.
Proof.
  rewrite prefix_spec. split.
  - intros (pre & post & -> & H). destruct pre.
    + now exists post.
    + rewrite len_String in H. pose proof (len_nonneg pre). lia.
  - intros [post ->]. now exists "", post.
Qed.

Lemma occursAt_cons (sub s : string) (c : ascii) (i : Z) :
  0 <= i -> (occursAt sub (String c s) (i + 1) <-> occursAt sub s i).
Proof.
  intros Hi. split.
  - intros (pre & post & E & H). destruct pre as [|d pre].
    + unfold len in H. simpl in H. lia.
    + simpl in E. injection E as -> ->. rewrite len_String in H.
      exists pre, post; split; [reflexivity|lia].
  - intros (pre & post & -> & H). exists (String c pre), post.
    split; [reflexivity|]. rewrite len_String. lia.
Qed.

(** [Index] finds the leftmost occurrence, and [-1] exactly when there
    is none. *)
Lemma indexFrom_spec (sub s : string) (i : Z) :
  (indexFrom s sub i = -1 /\ forall j, ~ occursAt sub s j) \/
  (exists k, indexFrom s sub i = i + k /\ occursAt sub s k /\
             forall j, occursAt sub s j -> k <= j).
Proof.
  revert i. induction s as [|c s IH]; intros i; cbn [indexFrom].
  - destruct (prefix sub "") eqn:P.
    + right. exists 0. repeat split; [lia|now apply occursAt_zero|].
      intros j Hj. now apply occursAt_nonneg in Hj.
    + left. split; [reflexivity|]. intros j (pre & post & E & H).
      destruct pre; [|discriminate]. simpl in E.
      assert (prefix sub "" = true) by (apply prefix_spec; now exists post).
      congruence.
  - destruct (prefix sub (String c s)) eqn:P.
    + right. exists 0. repeat split; [lia|now apply occursAt_zero|].
      intros j Hj. now apply occursAt_nonneg in Hj.
    + destruct (IH (i + 1)) as [[E N]|(k & E & O & L)].
      * left. split; [assumption|]. intros j Hj.
        pose proof (occursAt_nonneg _ _ _ Hj) as Hn.
        destruct (Z.eq_dec j 0) as [->|Hj0].
        -- apply occursAt_zero in Hj. congruence.
        -- replace j with (j - 1 + 1) in Hj by lia.
           apply occursAt_cons in Hj; [|lia]. now apply (N (j - 1)).
      * right. exists (k + 1). pose proof (occursAt_nonneg _ _ _ O) as Hk.
        split; [lia|]. split; [apply occursAt_cons; [lia|assumption]|].
        intros j Hj. pose proof (occursAt_nonneg _ _ _ Hj) as Hn.
        destruct (Z.eq_dec j 0) as [->|Hj0].
        -- apply occursAt_zero in Hj. congruence.
        -- replace j with (j - 1 + 1) in Hj by lia.
           apply occursAt_cons in Hj; [|lia]. specialize (L _ Hj). lia.
Qed.

Lemma Index_spec (s sub : string) :
  (Index s sub = -1 /\ ~ occurs sub s) \/
  (0 <= Index s sub /\ occursAt sub s (Index s sub) /\
   forall j, occursAt sub s j -> Index s sub <= j).
Proof.
  unfold Index. destruct (indexFrom_spec sub s 0) as [[E N]|(k & E & O & L)].
  - left. split; [assumption|]. intros [j Hj]. now apply (N j).
  - right. rewrite E. simpl. pose proof (occursAt_nonneg _ _ _ O).
    repeat split; assumption.
Qed.

Lemma Index_missing (s sub : string) : Index s sub = -1 <-> ~ occurs sub s.
Proof.
  destruct (Index_spec s sub) as [[E N]|(P & O & _)].
  - tauto.
  - split; [lia|]. intros N. exfalso. apply N. now exists (Index s sub).
Qed.

Lemma Index_bound (s sub : string) : Index s sub + len sub <= len s \/ Index s sub = -1.
Proof.
  destruct (Index_spec s sub) as [[E N]|(P & (pre & post & E & H) & _)]; [now right|left].
  pose proof (f_equal len E) as EL. rewrite !len_append in EL.
  pose proof (len_nonneg post). lia.
Qed.

End StringFacts.

(* ===================================================================== *)
(** * Exact float64 arithmetic on small integers *)
(* ===================================================================== *)

Module FloatFacts.


Lemma iter_pos_nat {A : Type} (f : A -> A) (p : positive) (x : A) :
  iter_pos f p x = Nat.iter (Pos.to_nat p) f x.
Proof.
  revert x. induction p as [p IH|p IH|]; intros x; cbn [iter_pos].
  - rewrite !IH. rewrite Pos2Nat.inj_xI.
    replace (S (2 * Pos.to_nat p))%nat with (Pos.to_nat p + (Pos.to_nat p + 1))%nat by lia.
    rewrite !Nat.iter_add. reflexivity.
  - rewrite !IH. rewrite Pos2Nat.inj_xO.
    replace (2 * Pos.to_nat p)%nat with (Pos.to_nat p + Pos.to_nat p)%nat by lia.
    now rewrite Nat.iter_add.
  - reflexivity.
Qed.

Lemma Pos_iter_shl (p c : positive) : Pos.iter xO p c = shl p (Pos.to_nat c).
Proof. unfold shl. now rewrite Pos2Nat.inj_iter. Qed.

Lemma digits_shl (p : positive) (n : nat) :
  Zpos (digits2_pos (shl p n)) = Zpos (digits2_pos p) + Z.of_nat n.
Proof.
  induction n as [|n IH]; [cbn; lia|].
  unfold shl in *. change (Nat.iter (S n) xO p) with (xO (Nat.iter n xO p)).
  cbn [digits2_pos]. rewrite Pos2Z.inj_succ, IH. lia.
Qed.

Lemma Zpos_shl (p : positive) (n : nat) : Zpos (shl p n) = Zpos p * 2 ^ Z.of_nat n.
Proof.
  induction n as [|n IH]; [cbn; lia|].
  unfold shl in *. change (Nat.iter (S n) xO p) with (xO (Nat.iter n xO p)).
  rewrite Pos2Z.inj_xO, IH, Nat2Z.inj_succ, Z.pow_succ_r; lia.
Qed.

Lemma shl_add (p : positive) (n m : nat) : shl (shl p n) m = shl p (m + n).
Proof. unfold shl. now rewrite Nat.iter_add. Qed.

Lemma shr_shl (p : positive) (n : nat) :
  Nat.iter n shr_1 {| shr_m := Zpos (shl p n); shr_r := false; shr_s := false |} =
  {| shr_m := Zpos p; shr_r := false; shr_s := false |}.
Proof.
  induction n as [|n IH]; [reflexivity|].
  rewrite Nat.iter_succ_r. unfold shl in *.
  change (Nat.iter (S n) xO p) with (xO (Nat.iter n xO p)). cbn [shr_1 orb]. exact IH.
Qed.

Lemma shr_exact (a : positive) (n : nat) (e : Z) :
  shr {| shr_m := Zpos (shl a n); shr_r := false; shr_s := false |} e (Z.of_nat n) =
  ({| shr_m := Zpos a; shr_r := false; shr_s := false |}, e + Z.of_nat n).
Proof.
  destruct n as [|n].
  - cbn. now rewrite Z.add_0_r.
  - change (Z.of_nat (S n)) with (Zpos (Pos.of_succ_nat n)).
    cbn [shr]. rewrite iter_pos_nat, SuccNat2Pos.id_succ, shr_shl. reflexivity.
Qed.

(** Rounding a 53-bit mantissa followed by [n] zero bits is exact. *)
Lemma round_exact (s : bool) (a : positive) (n : nat) (e : Z) :
  Zpos (digits2_pos a) = 53 -> -1074 <= e + Z.of_nat n <= 971 ->
  binary_round_aux 53 1024 s (Zpos (shl a n)) e loc_Exact = S754_finite s a (e + Z.of_nat n).
Proof.
  intros Hd He. unfold binary_round_aux, shr_fexp.
  cbn [Zdigits2 shr_record_of_loc]. rewrite digits_shl, Hd.
  replace (fexp 53 1024 (53 + Z.of_nat n + e) - e) with (Z.of_nat n)
    by (unfold fexp, emin; lia).
  rewrite shr_exact. cbn [shr_m loc_of_shr_record round_nearest_even Zdigits2]. rewrite Hd.
  replace (fexp 53 1024 (53 + (e + Z.of_nat n)) - (e + Z.of_nat n)) with 0
    by (unfold fexp, emin; lia).
  cbn [shr shr_m].
  assert ((e + Z.of_nat n <=? 1024 - 53) = true) as -> by (apply Z.leb_le; lia).
  reflexivity.
Qed.


Lemma binary_round_int (j : positive) (t : nat) :
  Zpos (digits2_pos j) <= 53 ->
  binary_round 53 1024 false (shl j t) (- Z.of_nat t) = norm j.
Proof.
  intros Hd. unfold binary_round, norm. rewrite digits_shl.
  set (D := Zpos (digits2_pos j)) in *.
  assert (HD : 1 <= D) by (unfold D; lia).
  replace (fexp 53 1024 (D + Z.of_nat t + - Z.of_nat t)) with (D - 53)
    by (unfold fexp, emin; lia).
  unfold shl_align.
  assert (Hn : forall a, a = shl j (Z.to_nat (53 - D)) -> Zpos (digits2_pos a) = 53).
  { intros a ->. rewrite digits_shl. fold D. lia. }
  clearbody D.
  destruct (D - 53 - - Z.of_nat t) as [|c|c] eqn:E;
    try pose proof (positive_nat_Z c) as Hc.
  - replace (shl j t) with (shl (shl j (Z.to_nat (53 - D))) 0)
      by (rewrite shl_add; f_equal; lia).
    rewrite round_exact; [f_equal; lia|now apply Hn|lia].
  - replace (shl j t) with (shl (shl j (Z.to_nat (53 - D))) (Pos.to_nat c))
      by (rewrite shl_add; f_equal; lia).
    rewrite round_exact; [f_equal; lia|now apply Hn|lia].
  - rewrite Pos_iter_shl, shl_add.
    replace (Pos.to_nat c + t)%nat with (0 + Z.to_nat (53 - D))%nat by lia.
    rewrite <- shl_add. rewrite round_exact; [f_equal; lia|now apply Hn|lia].
Qed.

Lemma of_Z_pos (j : positive) : Zpos (digits2_pos j) <= 53 -> F64.of_Z (Zpos j) = norm j.
Proof. intros H. exact (binary_round_int j 0 H). Qed.

Lemma shl_succ (j : positive) (n : nat) : (shl j n + shl 1 n = shl (j + 1) n)%positive.
Proof.
  apply Pos2Z.inj. rewrite Pos2Z.inj_add, !Zpos_shl. lia.
Qed.

Lemma digits_bounds (j : positive) :
  2 ^ (Zpos (digits2_pos j) - 1) <= Zpos j < 2 ^ Zpos (digits2_pos j).
Proof.
  induction j as [j IH|j IH|]; cbn [digits2_pos]; [| |cbn; lia];
    rewrite Pos2Z.inj_succ;
    replace (Z.succ (Zpos (digits2_pos j)) - 1) with (Z.succ (Zpos (digits2_pos j) - 1)) by lia;
    rewrite !Z.pow_succ_r by lia; lia.
Qed.

Lemma digits_le (j : positive) (d : Z) : Zpos j < 2 ^ d -> 0 <= d -> Zpos (digits2_pos j) <= d.
Proof.
  intros Hj Hd. destruct (Z_le_gt_dec (Zpos (digits2_pos j)) d) as [H|H]; [assumption|].
  exfalso. pose proof (digits_bounds j) as [B _].
  assert (2 ^ d <= 2 ^ (Zpos (digits2_pos j) - 1)) by (apply Z.pow_le_mono_r; lia). lia.
Qed.

Lemma digits_lt (j : positive) (d : Z) : Zpos (digits2_pos j) <= d -> Zpos j < 2 ^ d.
Proof.
  intros H. pose proof (digits_bounds j) as [_ B].
  assert (2 ^ Zpos (digits2_pos j) <= 2 ^ d) by (apply Z.pow_le_mono_r; lia). lia.
Qed.

Lemma add_one (j : positive) :
  Zpos (digits2_pos (j + 1)) <= 53 ->
  F64.add (norm j) F64.one = norm (j + 1).
Proof.
  intros H.
  assert (Hj : Zpos (digits2_pos j) <= 53).
  { apply digits_le; [|lia]. apply digits_lt in H. lia. }
  change F64.one with (S754_finite false (shl 1 52) (-52)). unfold F64.add.
  change F64.prec with 53. change F64.emax with 1024.
  unfold norm at 1. set (D := Zpos (digits2_pos j)) in *.
  assert (HD : 1 <= D) by (unfold D; lia).
  clearbody D.
  cbn [SFadd]. rewrite Z.min_r by lia. unfold shl_align.
  change (-52 - -52) with 0. cbn [fst cond_Zopp].
  destruct (-52 - (D - 53)) as [|c|c] eqn:E; cbn [fst];
    try pose proof (positive_nat_Z c) as Hc.
  - replace (Z.to_nat (53 - D)) with 52%nat by lia.
    rewrite <- Pos2Z.inj_add, shl_succ. cbn [binary_normalize].
    exact (binary_round_int (j + 1) 52 H).
  - lia.
  - rewrite Pos_iter_shl, shl_add.
    replace (Pos.to_nat c + Z.to_nat (53 - D))%nat with 52%nat by lia.
    rewrite <- Pos2Z.inj_add, shl_succ. cbn [binary_normalize].
    exact (binary_round_int (j + 1) 52 H).
Qed.

Lemma div_self (a : positive) (e : Z) :
  Zpos (digits2_pos a) = 53 ->
  F64.div (S754_finite false a e) (S754_finite false a e) = F64.one.
Proof.
  intros H. unfold F64.div. change F64.prec with 53. change F64.emax with 1024.
  cbn [SFdiv]. unfold SFdiv_core_binary. cbn [Zdigits2]. rewrite H.
  replace (53 + e - (53 + e)) with 0 by lia. replace (e - e) with 0 by lia.
  change (Z.min (fexp 53 1024 0) 0) with (-53). change (0 - -53) with 53.
  cbv iota. rewrite Z.shiftl_mul_pow2 by lia.
  assert (Z.div_eucl (Zpos a * 2 ^ 53) (Zpos a) = (2 ^ 53, 0)) as ->.
  { pose proof (Z.div_mul (2 ^ 53) (Zpos a) ltac:(lia)) as Hq.
    pose proof (Z.mod_mul (2 ^ 53) (Zpos a) ltac:(lia)) as Hr.
    rewrite (Z.mul_comm (Zpos a)).
    unfold Z.div, Z.modulo in Hq, Hr.
    destruct (Z.div_eucl (2 ^ 53 * Zpos a) (Zpos a)) as [q r]. now subst. }
  assert (new_location (Zpos a) 0 = loc_Exact) as ->.
  { unfold new_location, new_location_even, new_location_odd.
    now destruct (Z.even (Zpos a)). }
  reflexivity.
Qed.

Lemma norm_digits (j : positive) :
  Zpos (digits2_pos j) <= 53 ->
  exists a e, norm j = S754_finite false a e /\ Zpos (digits2_pos a) = 53.
Proof.
  intros H. eexists _, _. split; [reflexivity|].
  rewrite digits_shl. lia.
Qed.

(** Adding 1.0 to the float64 of [k] gives the float64 of [k + 1], and a
    positive integer divided by itself gives 1.0, up to [2^53]. *)
Lemma of_Z_succ (k : Z) : 0 <= k < 2 ^ 53 -> F64.add (F64.of_Z k) F64.one = F64.of_Z (k + 1).
Proof.
  intros [H0 H1]. destruct (Z.eq_dec (k + 1) (2 ^ 53)) as [E|E].
  { replace k with (2 ^ 53 - 1) by lia. vm_compute. reflexivity. }
  destruct k as [|j|j]; [reflexivity| |lia].
  assert (Hd : Zpos (digits2_pos (j + 1)) <= 53).
  { apply digits_le; [|lia]. rewrite Pos2Z.inj_add. lia. }
  assert (Hj : Zpos (digits2_pos j) <= 53) by (apply digits_le; lia).
  rewrite of_Z_pos by assumption. rewrite add_one by assumption.
  change (Zpos j + 1) with (Zpos (j + 1)). now rewrite of_Z_pos.
Qed.

Lemma of_Z_div_self (n : Z) :
  1 <= n <= 2 ^ 53 -> F64.div (F64.of_Z n) (F64.of_Z n) = F64.one.
Proof.
  intros [H0 H1]. destruct (Z.eq_dec n (2 ^ 53)) as [->|E]; [vm_compute; reflexivity|].
  destruct n as [|j|j]; try lia.
  assert (Hj : Zpos (digits2_pos j) <= 53) by (apply digits_le; lia).
  rewrite of_Z_pos by assumption.
  destruct (norm_digits j Hj) as (a & e & -> & Ha). now apply div_self.
Qed.


End FloatFacts.

(* ===================================================================== *)
(** * The trimming decision *)
(* ===================================================================== *)


Section TrimReadFacts.
Import F64 GoString StringFacts.

Variables Exp Log : float64 -> float64.

Local Abbreviation trim := (trimRead Exp Log).
Local Abbreviation mean := (meanError Exp Log).

(** [trimRead] once the adapter prefix and its index are known. *)
Lemma trimRead_found read adapter minLen trim5 trim3 min5Match maxError pat :
  sliceTo adapter min5Match = Some pat ->
  Index (Sequence read) pat <> -1 ->
  trim read adapter minLen trim5 trim3 min5Match maxError =
  let end_ := Int64.sub (Index (Sequence read) pat) trim3 in
  if Int64.sub end_ trim5 <? minLen then Err "too short"
  else match slice (Sequence read) trim5 end_, slice (Quality read) trim5 end_ with
       | Some s, Some q =>
           if geb (mean (bytes q)) maxError then Err "low quality"
           else Ok {| Header := Header read; Sequence := s; Quality := q |}
       | _, _ => Panic
       end.
Proof.
  intros Hpat Hidx. unfold trimRead. rewrite Hpat.
  apply Z.eqb_neq in Hidx. rewrite Hidx. cbv zeta.
  destruct (_ <? minLen); [reflexivity|].
  destruct (slice (Sequence read) _ _); [|reflexivity].
  destruct (slice (Quality read) _ _); reflexivity.
Qed.

Lemma trimRead_missing read adapter minLen trim5 trim3 min5Match maxError pat :
  sliceTo adapter min5Match = Some pat ->
  Index (Sequence read) pat = -1 ->
  trim read adapter minLen trim5 trim3 min5Match maxError = Err "adapter missing".
Proof.
  intros Hpat Hidx. unfold trimRead. rewrite Hpat, Hidx. reflexivity.
Qed.

Lemma trimRead_bad_prefix read adapter minLen trim5 trim3 min5Match maxError :
  sliceTo adapter min5Match = None ->
  trim read adapter minLen trim5 trim3 min5Match maxError = Panic.
Proof. intros Hpat. unfold trimRead. now rewrite Hpat. Qed.

(** The window of a read that was sliced lies inside the read, so its
    length is the difference of its bounds, without wrap-around. *)
Lemma window_length (s t : string) (lo hi : Z) :
  Int64.in_range hi -> slice s lo hi = Some t ->
  Int64.sub hi lo = hi - lo /\ len t = hi - lo.
Proof.
  intros Hr H. apply slice_Some in H as (H1 & H2 & H3 & _ & H4).
  split; [|assumption]. unfold Int64.sub. apply wrap_in_range.
  unfold Int64.in_range, Int64.min_int, Int64.max_int in *. lia.
Qed.

(** C1 (as amended): when the adapter prefix is found, [trimRead] answers
    "too short" exactly when the window length [(index - trim3) - trim5],
    computed in 64-bit arithmetic, is below [minLen].  Hence, for
    [minLen >= 1] and bounds that do not wrap around, every window whose
    end is at or before its start is rejected as too short, and whenever
    the quality check decides the outcome its window holds at least
    [minLen >= 1] bases, so the mean is taken over a non-empty window. *)
Theorem trimRead_too_short read adapter minLen trim5 trim3 min5Match maxError pat :
  sliceTo adapter min5Match = Some pat ->
  Index (Sequence read) pat <> -1 ->
  let idx := Index (Sequence read) pat in
  let end_ := Int64.sub idx trim3 in
  let res := trim read adapter minLen trim5 trim3 min5Match maxError in
  (res = Err "too short" <-> Int64.sub end_ trim5 < minLen) /\
  (1 <= minLen -> Int64.in_range (idx - trim3) -> Int64.in_range (idx - trim3 - trim5) ->
   idx - trim3 <= trim5 -> res = Err "too short") /\
  (1 <= minLen -> res = Err "low quality" \/ (exists r, res = Ok r) ->
   exists q, slice (Quality read) trim5 end_ = Some q /\ 1 <= minLen <= len q /\
             res = (if geb (mean (bytes q)) maxError then Err "low quality"
                    else Ok {| Header := Header read;
                               Sequence := substring (Z.to_nat trim5) (Z.to_nat (end_ - trim5))
                                             (Sequence read);
                               Quality := q |})).
Proof.
  intros Hpat Hidx idx end_ res.
  assert (Hres := trimRead_found read adapter minLen trim5 trim3 min5Match maxError pat Hpat Hidx).
  fold idx in Hres. cbv zeta in Hres. fold end_ in Hres. fold res in Hres.
  split; [|split].
  - rewrite Hres. destruct (Int64.sub end_ trim5 <? minLen) eqn:E.
    + apply Z.ltb_lt in E. tauto.
    + apply Z.ltb_ge in E. split; [|lia].
      destruct (slice (Sequence read) trim5 end_); [|discriminate].
      destruct (slice (Quality read) trim5 end_); [|discriminate].
      destruct (geb _ _); discriminate.
  - intros Hmin R1 R2 Hle. rewrite Hres.
    assert (Int64.sub end_ trim5 = idx - trim3 - trim5) as ->.
    { unfold end_, Int64.sub. rewrite (wrap_in_range (idx - trim3)) by assumption.
      now apply wrap_in_range. }
    assert ((idx - trim3 - trim5 <? minLen) = true) as -> by (apply Z.ltb_lt; lia).
    reflexivity.
  - intros Hmin Hdec. rewrite Hres in Hdec |- *.
    destruct (Int64.sub end_ trim5 <? minLen) eqn:E.
    { destruct Hdec as [H|[r H]]; discriminate. }
    apply Z.ltb_ge in E.
    destruct (slice (Sequence read) trim5 end_) as [s|] eqn:Es;
      [|destruct Hdec as [H|[r H]]; discriminate].
    destruct (slice (Quality read) trim5 end_) as [q|] eqn:Eq;
      [|destruct Hdec as [H|[r H]]; discriminate].
    exists q. split; [reflexivity|].
    destruct (window_length _ _ _ _ (wrap_range _) Eq) as [W L].
    split; [unfold end_, Int64.sub in *; lia|].
    apply slice_Some in Es as (_ & _ & _ & -> & _). reflexivity.
Qed.

(** C4: a read that passes the three checks comes back with its
    identifier unchanged and with sequence and quality sliced to the window
    [trim5, index - trim3), so both have the same length, which is at least
    [minLen]; and the read of the tests, with adapter ATCC and quality
    FFFFFFFF, is trimmed to ATCG and FFFF. *)
Theorem trimRead_ok :
  (forall read adapter minLen trim5 trim3 min5Match maxError r,
     trim read adapter minLen trim5 trim3 min5Match maxError = Ok r ->
     exists pat,
       sliceTo adapter min5Match = Some pat /\
       let idx := Index (Sequence read) pat in
       let end_ := Int64.sub idx trim3 in
       idx <> -1 /\
       Header r = Header read /\
       slice (Sequence read) trim5 end_ = Some (Sequence r) /\
       slice (Quality read) trim5 end_ = Some (Quality r) /\
       len (Sequence r) = end_ - trim5 /\
       len (Quality r) = len (Sequence r) /\
       minLen <= len (Sequence r) /\
       geb (mean (bytes (Quality r))) maxError = false /\
       (Int64.in_range trim3 -> len (Sequence read) <= Int64.max_int ->
        end_ = idx - trim3)) /\
  (geb (mean (bytes "FFFF")) tenth = false ->
   trim exampleRead "ATCC" 2 0 0 4 tenth =
     Ok {| Header := "@Header"; Sequence := "ATCG"; Quality := "FFFF" |}) /\
  trimRead GoMath.exp GoMath.log exampleRead "ATCC" 2 0 0 4 tenth =
    Ok {| Header := "@Header"; Sequence := "ATCG"; Quality := "FFFF" |}.
Proof.
  split; [|split].
  - intros read adapter minLen trim5 trim3 min5Match maxError r H.
    destruct (sliceTo adapter min5Match) as [pat|] eqn:Hpat;
      [|rewrite trimRead_bad_prefix in H by assumption; discriminate].
    exists pat. split; [reflexivity|]. intros idx end_.
    destruct (Z.eq_dec idx (-1)) as [Hidx|Hidx];
      [rewrite (trimRead_missing _ _ _ _ _ _ _ pat) in H by assumption; discriminate|].
    rewrite (trimRead_found _ _ _ _ _ _ _ pat Hpat Hidx) in H. cbv zeta in H.
    fold idx in H. fold end_ in H.
    destruct (Int64.sub end_ trim5 <? minLen) eqn:E; [discriminate|]. apply Z.ltb_ge in E.
    destruct (slice (Sequence read) trim5 end_) as [s|] eqn:Es; [|discriminate].
    destruct (slice (Quality read) trim5 end_) as [q|] eqn:Eq; [|discriminate].
    destruct (geb (mean (bytes q)) maxError) eqn:G; [discriminate|].
    injection H as <-. cbn [Header Sequence Quality].
    destruct (window_length _ _ _ _ (wrap_range _) Es) as [W Ls].
    destruct (window_length _ _ _ _ (wrap_range _) Eq) as [_ Lq].
    change (Int64.wrap (idx - trim3)) with end_ in W, Ls, Lq.
    do 8 (split; [first [assumption | reflexivity | lia]|]).
    intros R HL. unfold end_, Int64.sub. apply wrap_in_range.
    destruct (Index_bound (Sequence read) pat) as [B|B]; [|contradiction].
    fold idx in B.
    apply slice_Some in Es as (Es1 & Es2 & _).
    assert (0 <= idx).
    { destruct (Index_spec (Sequence read) pat) as [[? _]|[? _]]; [contradiction|assumption]. }
    pose proof (len_nonneg pat).
    destruct (Z_le_gt_dec (idx - trim3) Int64.max_int) as [Hle|Hgt].
    + unfold Int64.in_range, Int64.min_int, Int64.max_int in *. lia.
    + exfalso. unfold end_, Int64.sub, Int64.wrap in Es2.
      unfold Int64.in_range, Int64.min_int, Int64.max_int in *.
      replace (idx - trim3 + 2 ^ 63) with (idx - trim3 - 2 ^ 63 + 1 * 2 ^ 64) in Es2 by lia.
      rewrite Z.mod_add in Es2 by lia.
      rewrite Z.mod_small in Es2 by lia. lia.
  - intros G. rewrite (trimRead_found exampleRead "ATCC" 2 0 0 4 tenth "ATCC" eq_refl)
      by (vm_compute; discriminate).
    change (Index (Sequence exampleRead) "ATCC") with 4.
    change (Int64.sub 4 0) with 4. cbv zeta.
    change (slice (Sequence exampleRead) 0 4) with (Some "ATCG").
    change (slice (Quality exampleRead) 0 4) with (Some "FFFF").
    change (Int64.sub 4 0 <? 2) with false. cbv iota.
    rewrite G. reflexivity.
  - vm_compute. reflexivity.
Qed.

Lemma sliceTo_prefix (adapter : string) (min5Match : Z) :
  0 <= min5Match <= len adapter ->
  sliceTo adapter min5Match = Some (substring 0 (Z.to_nat min5Match) adapter).
Proof.
  intros H. unfold sliceTo. rewrite slice_in_bounds by lia.
  now rewrite Z.sub_0_r.
Qed.

(** C5 (as amended): with [0 <= min5Match <= len(adapter)], [trimRead]
    answers "adapter missing" if and only if the first [min5Match]
    characters of the adapter occur nowhere in the sequence; when they
    occur, the index of the leftmost occurrence is the one the window end is
    computed from; with [min5Match] negative or beyond the adapter the slice
    [adapter[:min5Match]] is out of range and [trimRead] panics, whatever
    the sequence holds; and adapter TTTT with [min5Match = 3] against
    ATCGATCG is rejected with "adapter missing". *)
Theorem trimRead_adapter_missing :
  (forall read adapter minLen trim5 trim3 min5Match maxError,
     0 <= min5Match <= len adapter ->
     let pat := substring 0 (Z.to_nat min5Match) adapter in
     let res := trim read adapter minLen trim5 trim3 min5Match maxError in
     (res = Err "adapter missing" <-> ~ occurs pat (Sequence read)) /\
     (occurs pat (Sequence read) ->
      let idx := Index (Sequence read) pat in
      let end_ := Int64.sub idx trim3 in
      occursAt pat (Sequence read) idx /\
      (forall j, occursAt pat (Sequence read) j -> idx <= j) /\
      res = if Int64.sub end_ trim5 <? minLen then Err "too short"
            else match slice (Sequence read) trim5 end_, slice (Quality read) trim5 end_ with
                 | Some s, Some q =>
                     if geb (mean (bytes q)) maxError then Err "low quality"
                     else Ok {| Header := Header read; Sequence := s; Quality := q |}
                 | _, _ => Panic
                 end)) /\
  (forall read adapter minLen trim5 trim3 min5Match maxError,
     min5Match < 0 \/ len adapter < min5Match ->
     trim read adapter minLen trim5 trim3 min5Match maxError = Panic) /\
  trim {| Header := "@Header"; Sequence := "ATCGATCG"; Quality := "FFFFFFFF" |}
       "TTTT" 4 0 0 3 tenth = Err "adapter missing".
Proof.
  split; [|split; [|reflexivity]].
  2: { intros read adapter minLen trim5 trim3 min5Match maxError H.
       apply trimRead_bad_prefix. unfold sliceTo. apply slice_None. lia. }
  intros read adapter minLen trim5 trim3 min5Match maxError H pat res.
  pose proof (sliceTo_prefix adapter min5Match H) as Hpat. fold pat in Hpat.
  destruct (Index_spec (Sequence read) pat) as [[E N]|(P & O & L)].
  - split; [|intros; contradiction].
    split; [intros _; exact N|intros _]. now apply trimRead_missing with pat.
  - assert (Hidx : Index (Sequence read) pat <> -1) by lia.
    assert (Hres := trimRead_found read adapter minLen trim5 trim3 min5Match maxError pat
                      Hpat Hidx).
    fold res in Hres. cbv zeta in Hres. split.
    + split.
      * rewrite Hres. destruct (_ <? minLen); [discriminate|].
        destruct (slice (Sequence read) _ _); [|discriminate].
        destruct (slice (Quality read) _ _); [|discriminate].
        destruct (geb _ _); discriminate.
      * intros N. exfalso. apply N. now exists (Index (Sequence read) pat).
    + intros _. cbv zeta. auto.
Qed.

Lemma fold_left_map_add (f : ascii -> float64) (l : list ascii) (z : float64) :
  fold_left (fun total q => add total (f q)) l z = fold_left add (map f l) z.
Proof. revert z. induction l as [|c l IH]; intros z; simpl; [reflexivity|apply IH]. Qed.

Lemma length_bytes (s : string) : Z.of_nat (List.length (bytes s)) = len s.
Proof.
  unfold bytes, len. f_equal. induction s as [|c s IH]; simpl; [reflexivity|now f_equal].
Qed.

(** [x == y] implies [x >= y]. *)
Lemma eqb_geb (x y : float64) : eqb x y = true -> geb x y = true.
Proof.
  unfold eqb, geb, SFeqb, SFleb.
  destruct x as [sx|sx| |sx mx ex], y as [sy|sy| |sy my ey]; simpl; try discriminate;
    try reflexivity; try (destruct sx, sy; discriminate || reflexivity);
    try (destruct sx; discriminate); try (destruct sy; discriminate).
  destruct sx, sy; try discriminate.
  - destruct (Z.compare_spec ex ey) as [->|?|?]; try discriminate.
    rewrite Z.compare_refl.
    change (Pos.compare_cont Eq mx my) with (Pos.compare mx my).
    destruct (Pos.compare_spec mx my) as [->|?|?]; try discriminate.
    intros _. change (Pos.compare_cont Eq my my) with (Pos.compare my my).
    now rewrite Pos.compare_refl.
  - destruct (Z.compare_spec ex ey) as [->|?|?]; try discriminate.
    rewrite Z.compare_refl.
    change (Pos.compare_cont Eq mx my) with (Pos.compare mx my).
    destruct (Pos.compare_spec mx my) as [->|?|?]; try discriminate.
    intros _. change (Pos.compare_cont Eq my my) with (Pos.compare my my).
    now rewrite Pos.compare_refl.
Qed.

(** C6: once the adapter prefix is found and the window has passed the
    length check (and lies inside the read), [trimRead] answers "low
    quality" if and only if the mean over the window of the error
    probabilities [Pow(10, -(code - 33)/10)] is greater than or equal to
    [maxError], equality included; and the read whose quality is all "!"
    is rejected so with [maxError = 0.1]. *)
Theorem trimRead_low_quality :
  (forall read adapter minLen trim5 trim3 min5Match maxError pat s q,
     sliceTo adapter min5Match = Some pat ->
     Index (Sequence read) pat <> -1 ->
     let end_ := Int64.sub (Index (Sequence read) pat) trim3 in
     let res := trim read adapter minLen trim5 trim3 min5Match maxError in
     minLen <= Int64.sub end_ trim5 ->
     slice (Sequence read) trim5 end_ = Some s ->
     slice (Quality read) trim5 end_ = Some q ->
     (res = Err "low quality" <-> geb (mean (bytes q)) maxError = true) /\
     (eqb (mean (bytes q)) maxError = true -> res = Err "low quality") /\
     mean (bytes q) =
       div (fold_left add (map (phred33ToError Exp Log) (bytes q)) zero) (of_Z (len q)) /\
     (forall c, phred33ToError Exp Log c =
        GoMath.Pow Exp Log ten (div (neg (sub (of_Z (Z.of_N (N_of_ascii c))) (of_Z 33))) ten))) /\
  trim lowQualityRead "ATCC" 2 0 0 4 tenth = Err "low quality".
Proof.
  split; [|vm_compute; reflexivity].
  intros read adapter minLen trim5 trim3 min5Match maxError pat s q Hpat Hidx end_ res
    Hlen Hs Hq.
  assert (Hres := trimRead_found read adapter minLen trim5 trim3 min5Match maxError pat
                    Hpat Hidx).
  fold res in Hres. cbv zeta in Hres. fold end_ in Hres.
  apply Z.ltb_ge in Hlen. rewrite Hlen, Hs, Hq in Hres.
  assert (Hiff : res = Err "low quality" <-> geb (mean (bytes q)) maxError = true).
  { rewrite Hres. destruct (geb _ _); split; intros; try reflexivity; discriminate. }
  split; [exact Hiff|]. split; [intros E; apply Hiff; now apply eqb_geb|].
  split; [|reflexivity].
  unfold meanError. now rewrite fold_left_map_add, length_bytes.
Qed.

(** C10 (as amended): with [0 <= min5Match <= len(adapter)], [trim5 >= 0],
    [trim3 >= 0], [trim5 + trim3] within the range of [int], [minLen >= 1]
    and quality as long as the sequence, every slice taken by [trimRead] is
    within bounds and it does not panic; with [min5Match] beyond the
    adapter the slice of the adapter is out of range. *)
Theorem trimRead_in_bounds :
  (forall read adapter minLen trim5 trim3 min5Match maxError,
     0 <= min5Match <= len adapter ->
     0 <= trim5 -> 0 <= trim3 -> trim5 + trim3 <= Int64.max_int ->
     1 <= minLen ->
     len (Quality read) = len (Sequence read) ->
     len (Sequence read) <= Int64.max_int ->
     exists pat,
       sliceTo adapter min5Match = Some pat /\
       let idx := Index (Sequence read) pat in
       let end_ := Int64.sub idx trim3 in
       (idx = -1 \/ Int64.sub end_ trim5 < minLen \/
        exists s q, slice (Sequence read) trim5 end_ = Some s /\
                    slice (Quality read) trim5 end_ = Some q) /\
       trim read adapter minLen trim5 trim3 min5Match maxError <> Panic) /\
  trim exampleRead "TTTT" 2 0 0 5 tenth = Panic.
Proof.
  split; [|reflexivity].
  intros read adapter minLen trim5 trim3 min5Match maxError Hm H5 H3 Hsum Hmin Hq Hl.
  exists (substring 0 (Z.to_nat min5Match) adapter).
  pose proof (sliceTo_prefix adapter min5Match Hm) as Hpat.
  split; [assumption|]. set (pat := substring _ _ _) in *. intros idx end_.
  destruct (Z.eq_dec idx (-1)) as [Hidx|Hidx].
  { split; [now left|].
    rewrite (trimRead_missing read adapter minLen trim5 trim3 min5Match maxError pat)
      by assumption. discriminate. }
  rewrite (trimRead_found read adapter minLen trim5 trim3 min5Match maxError pat Hpat Hidx).
  cbv zeta. fold idx. fold end_.
  assert (Hi : 0 <= idx).
  { destruct (Index_spec (Sequence read) pat) as [[? _]|[? _]]; [contradiction|assumption]. }
  assert (Hb : idx <= len (Sequence read)).
  { destruct (Index_bound (Sequence read) pat) as [B|B]; [|contradiction].
    fold idx in B. pose proof (len_nonneg pat). lia. }
  assert (He : end_ = idx - trim3).
  { unfold end_, Int64.sub. apply wrap_in_range.
    unfold Int64.in_range, Int64.min_int, Int64.max_int in *. lia. }
  assert (Hw : Int64.sub end_ trim5 = idx - trim3 - trim5).
  { rewrite He. unfold Int64.sub. apply wrap_in_range.
    unfold Int64.in_range, Int64.min_int, Int64.max_int in *. lia. }
  destruct (Int64.sub end_ trim5 <? minLen) eqn:E.
  { apply Z.ltb_lt in E. split; [right; now left|discriminate]. }
  apply Z.ltb_ge in E.
  rewrite (slice_in_bounds (Sequence read) trim5 end_) by lia.
  rewrite (slice_in_bounds (Quality read) trim5 end_) by lia.
  split; [right; right; eauto|].
  destruct (geb _ _); discriminate.
Qed.

Lemma phred33ToError_33 : phred33ToError Exp Log "!" = one.
Proof. reflexivity. Qed.

Lemma sum_all_33 (quality : list ascii) (k : Z) :
  Forall (eq "!"%char) quality -> 0 <= k -> k + Z.of_nat (List.length quality) <= 2 ^ 53 ->
  fold_left (fun total q => add total (phred33ToError Exp Log q)) quality (of_Z k) =
  of_Z (k + Z.of_nat (List.length quality)).
Proof.
  intros Hall. revert k. induction Hall as [|c l <- Hl IH]; intros k Hk Hb.
  - cbn. now rewrite Z.add_0_r.
  - cbn [fold_left List.length] in *. rewrite Nat2Z.inj_succ in *.
    rewrite phred33ToError_33, FloatFacts.of_Z_succ by lia.
    rewrite IH by lia. f_equal. lia.
Qed.

Lemma Forall_repeat_33 (n : nat) : Forall (eq "!"%char) (repeat "!"%char n).
Proof. induction n; cbn [repeat]; constructor; auto. Qed.

Lemma mean_all_33_beyond (n : nat) :
  Z.of_nat n = 9007199254740992 ->
  mean (repeat "!"%char (n + 2)) = div (of_Z 9007199254740992) (of_Z 9007199254740994).
Proof.
  intros Hn. unfold meanError.
  assert (Hsum : fold_left (fun total q => add total (phred33ToError Exp Log q))
                   (repeat "!"%char (n + 2)) zero = of_Z 9007199254740992).
  { rewrite repeat_app, fold_left_app. change zero with (of_Z 0).
    rewrite (sum_all_33 (repeat "!"%char n) 0 (Forall_repeat_33 n)).
    - rewrite repeat_length, Hn. change (0 + 9007199254740992) with 9007199254740992.
      cbn [repeat fold_left]. rewrite phred33ToError_33. vm_compute. reflexivity.
    - lia.
    - rewrite repeat_length, Hn. vm_compute. discriminate. }
  rewrite Hsum, repeat_length, Nat2Z.inj_add, Hn.
  change (9007199254740992 + Z.of_nat 2) with 9007199254740994. reflexivity.
Qed.

(** Beyond 2^53 reads of code 33 the sum stays at 2^53, since adding 1.0
    no longer changes it: the mean falls below 1.0. *)
Lemma mean_all_33_saturates :
  mean (repeat "!"%char (Z.to_nat 9007199254740992 + 2)) =
    div (of_Z 9007199254740992) (of_Z 9007199254740994) /\
  eqb (div (of_Z 9007199254740992) (of_Z 9007199254740994)) one = false.
Proof.
  split; [|vm_compute; reflexivity].
  apply mean_all_33_beyond. apply Z2Nat.id. discriminate.
Qed.

(** C8 (as amended): the error probability of code 33 is exactly 1.0; that
    of code 43 is the float64 nearest to 0.1, hence within 1e-5 of it; and
    the mean error of a quality string made of code 33 only is 1.0 for
    every length from 1 to 2^53. *)
Theorem quality_conversion :
  phred33ToError Exp Log "!" = one /\
  phred33ToError Exp Log "+" = tenth /\
  gtb (abs (sub (phred33ToError Exp Log "+") tenth)) tolerance = false /\
  (forall quality : list ascii,
     Forall (eq "!"%char) quality ->
     1 <= Z.of_nat (List.length quality) <= 2 ^ 53 ->
     mean quality = one).
Proof.
  split; [reflexivity|]. split; [vm_compute; reflexivity|]. split; [vm_compute; reflexivity|].
  intros quality Hall Hlen. unfold meanError.
  change zero with (of_Z 0). rewrite sum_all_33 by (assumption || lia).
  rewrite Z.add_0_l. now apply FloatFacts.of_Z_div_self.
Qed.

End TrimReadFacts.

(** C1, as stated, fails: with [trim5 = -1] the length check passes and
    the slice panics instead of a rejection; with [minLen = 0] and a
    window of length zero the read is kept, because the mean over the
    empty window is NaN and [NaN >= maxError] is false. *)
Lemma trimRead_too_short_counterexample :
  trimRead GoMath.exp GoMath.log exampleRead "ATCC" 2 (-1) 0 4 F64.tenth = Panic /\
  trimRead GoMath.exp GoMath.log exampleRead "ATCC" 0 4 0 4 F64.tenth =
    Ok {| Header := "@Header"; Sequence := ""; Quality := "" |} /\
  meanError GoMath.exp GoMath.log (GoString.bytes "") = S754_nan /\
  F64.geb S754_nan F64.tenth = false.
Proof. repeat split; vm_compute; reflexivity. Qed.

Lemma trimRead_too_short_witness :
  trimRead GoMath.exp GoMath.log exampleRead "ATCC" 2 5 0 4 F64.tenth = Err "too short".
Proof.
  apply (proj1 (proj2 (trimRead_too_short GoMath.exp GoMath.log exampleRead "ATCC" 2 5 0 4
                         F64.tenth "ATCC" eq_refl ltac:(vm_compute; discriminate))));
    vm_compute; intuition discriminate.
Defined.

Lemma trimRead_ok_witness :
  GoString.len (Sequence {| Header := "@Header"; Sequence := "ATCG"; Quality := "FFFF" |}) = 4 - 0.
Proof.
  destruct (proj1 (trimRead_ok GoMath.exp GoMath.log) exampleRead "ATCC" 2 0 0 4 F64.tenth
              {| Header := "@Header"; Sequence := "ATCG"; Quality := "FFFF" |}
              ltac:(vm_compute; reflexivity))
    as (pat & Hpat & _ & _ & _ & _ & L & _).
  injection Hpat as <-. exact L.
Defined.

(** C5, as stated, fails: TTTT, all there is of the adapter, occurs
    nowhere in the sequence of the read, but with [min5Match = 8], the
    default of the command line, [trimRead] panics on the slice of the
    adapter and the answer is not "adapter missing". *)
Lemma trimRead_adapter_missing_counterexample :
  GoString.len "TTTT" = 4 /\
  GoString.Index (Sequence exampleRead) "TTTT" = -1 /\
  GoString.sliceTo "TTTT" 8 = None /\
  trimRead GoMath.exp GoMath.log exampleRead "TTTT" 18 0 0 8 F64.tenth = Panic.
Proof. repeat split; vm_compute; reflexivity. Qed.

Lemma trimRead_adapter_missing_witness :
  ~ GoString.occurs "TTT" "ATCGATCG".
Proof.
  apply (proj1 (proj1 (trimRead_adapter_missing GoMath.exp GoMath.log)
                 {| Header := "@Header"; Sequence := "ATCGATCG"; Quality := "FFFFFFFF" |}
                 "TTTT" 4 0 0 3 F64.tenth ltac:(vm_compute; split; discriminate))).
  reflexivity.
Defined.

Lemma trimRead_low_quality_witness :
  F64.geb (meanError GoMath.exp GoMath.log (GoString.bytes "!!!!")) F64.tenth = true.
Proof.
  apply (proj1 (proj1 (trimRead_low_quality GoMath.exp GoMath.log)
                 lowQualityRead "ATCC" 2 0 0 4 F64.tenth "ATCC" "ATCG" "!!!!"
                 eq_refl ltac:(vm_compute; discriminate) ltac:(vm_compute; discriminate)
                 eq_refl eq_refl)).
  vm_compute. reflexivity.
Defined.

(** C10, as stated, fails: the listed preconditions hold, but with
    [trim3] at the largest [int] the window length wraps around to a
    positive number, the length check passes and the slice panics. *)
Lemma trimRead_in_bounds_counterexample :
  0 <= 4 <= GoString.len "ATCC" /\ 0 <= 2 /\ 0 <= 9223372036854775807 /\ 1 <= 1 /\
  GoString.len (Quality {| Header := "@Header"; Sequence := "ATCCGGGG"; Quality := "FFFFFFFF" |})
  = GoString.len (Sequence {| Header := "@Header"; Sequence := "ATCCGGGG"; Quality := "FFFFFFFF" |}) /\
  Int64.in_range 9223372036854775807 /\
  trimRead GoMath.exp GoMath.log
    {| Header := "@Header"; Sequence := "ATCCGGGG"; Quality := "FFFFFFFF" |}
    "ATCC" 1 2 9223372036854775807 4 F64.tenth = Panic.
Proof. vm_compute. intuition discriminate. Qed.

Lemma trimRead_in_bounds_witness :
  trimRead GoMath.exp GoMath.log exampleRead "ATCC" 2 0 0 4 F64.tenth <> Panic.
Proof.
  destruct (proj1 (trimRead_in_bounds GoMath.exp GoMath.log) exampleRead "ATCC" 2 0 0 4 F64.tenth)
    as (pat & _ & _ & H); [vm_compute; intuition discriminate ..|exact H].
Defined.

(** C8, as stated, fails for the empty quality string, whose characters
    are all of code 33: the mean is 0/0, not 1.0. *)
Lemma quality_conversion_counterexample :
  Forall (eq "!"%char) (GoString.bytes "") /\
  meanError GoMath.exp GoMath.log (GoString.bytes "") = S754_nan /\
  F64.eqb (meanError GoMath.exp GoMath.log (GoString.bytes "")) F64.one = false.
Proof. split; [constructor|split; reflexivity]. Qed.

Lemma quality_conversion_witness :
  meanError GoMath.exp GoMath.log (GoString.bytes "!!!!!") = F64.one.
Proof.
  apply (proj2 (proj2 (proj2 (quality_conversion GoMath.exp GoMath.log)))).
  - repeat constructor.
  - vm_compute. intuition discriminate.
Defined.

(* ===================================================================== *)
(** * Workers: counting and independence of the schedule *)
(* ===================================================================== *)


Lemma sameShared_refl (a : Shared) : sameShared a a.
Proof. repeat split; reflexivity. Qed.

Lemma sameShared_sym (a b : Shared) : sameShared a b -> sameShared b a.
Proof. intros (H1 & H2 & H3 & H4). repeat split; try congruence. now symmetry. Qed.

Lemma sameShared_trans (a b c : Shared) : sameShared a b -> sameShared b c -> sameShared a c.
Proof.
  intros (H1 & H2 & H3 & H4) (G1 & G2 & G3 & G4).
  repeat split; try congruence. now transitivity (trimmedReads b).
Qed.

Lemma sameOutcome_refl (a : option Shared) : sameOutcome a a.
Proof. destruct a; simpl; [apply sameShared_refl|exact I]. Qed.

Lemma sameOutcome_sym (a b : option Shared) : sameOutcome a b -> sameOutcome b a.
Proof. destruct a, b; simpl; auto using sameShared_sym. Qed.

Lemma sameOutcome_trans (a b c : option Shared) :
  sameOutcome a b -> sameOutcome b c -> sameOutcome a c.
Proof. destruct a, b, c; simpl; try tauto. apply sameShared_trans. Qed.

Section WorkerFacts.
Import F64.

Variables Exp Log : float64 -> float64.
Variable adapter : string.
Variables minLen trim5 trim3 min5Match : Z.
Variable maxError : float64.

Local Abbreviation trim read :=
  (trimRead Exp Log read adapter minLen trim5 trim3 min5Match maxError).
Local Abbreviation step := (processRead Exp Log adapter minLen trim5 trim3 min5Match maxError).
Local Abbreviation batch := (processBatch Exp Log adapter minLen trim5 trim3 min5Match maxError).
Local Abbreviation finish :=
  (finishWorkers Exp Log adapter minLen trim5 trim3 min5Match maxError).
Local Abbreviation run := (runWorkers Exp Log adapter minLen trim5 trim3 min5Match maxError).
Local Abbreviation vd := (verdict Exp Log adapter minLen trim5 trim3 min5Match maxError).
Local Abbreviation vds := (verdicts Exp Log adapter minLen trim5 trim3 min5Match maxError).

(** The only errors of [trimRead] are the three rejections. *)
Lemma trimRead_errors (read : FastqRead) (msg : string) :
  trim read = Err msg ->
  msg = "adapter missing" \/ msg = "too short" \/ msg = "low quality".
Proof.
  unfold trimRead. destruct (GoString.sliceTo adapter min5Match); [|discriminate].
  destruct (_ =? -1); [intros H; injection H as <-; auto|].
  destruct (_ <? minLen); [intros H; injection H as <-; auto|].
  destruct (GoString.slice (Sequence read) _ _); [|discriminate].
  destruct (GoString.slice (Quality read) _ _); [|discriminate].
  destruct (geb _ _); [intros H; injection H as <-; auto|discriminate].
Qed.

(** What one iteration does, by the outcome of [trimRead]. *)
Lemma processRead_cases (read : FastqRead) (sh : Shared) :
  (trim read = Panic /\ step read sh = None) \/
  (trim read = Err "adapter missing" /\
   step read sh = Some {| adapterMissingCount := Int64.add (adapterMissingCount sh) 1;
                          tooShortCount := tooShortCount sh;
                          lowQualityCount := lowQualityCount sh;
                          trimmedReads := trimmedReads sh |}) \/
  (trim read = Err "too short" /\
   step read sh = Some {| adapterMissingCount := adapterMissingCount sh;
                          tooShortCount := Int64.add (tooShortCount sh) 1;
                          lowQualityCount := lowQualityCount sh;
                          trimmedReads := trimmedReads sh |}) \/
  (trim read = Err "low quality" /\
   step read sh = Some {| adapterMissingCount := adapterMissingCount sh;
                          tooShortCount := tooShortCount sh;
                          lowQualityCount := Int64.add (lowQualityCount sh) 1;
                          trimmedReads := trimmedReads sh |}) \/
  (exists r, trim read = Ok r /\
   step read sh = Some {| adapterMissingCount := adapterMissingCount sh;
                          tooShortCount := tooShortCount sh;
                          lowQualityCount := lowQualityCount sh;
                          trimmedReads := trimmedReads sh ++ [r] |}).
Proof.
  unfold processRead. destruct (trim read) as [r|msg|] eqn:E.
  - right; right; right; right. now exists r.
  - destruct (trimRead_errors read msg E) as [-> | [-> | ->]]; cbn; auto 6.
  - now left.
Qed.


Lemma processRead_verdict (read : FastqRead) (sh : Shared) :
  step read sh = option_map (fun a => apply a sh) (vd read).
Proof.
  unfold verdict.
  destruct (processRead_cases read sh) as [[T ->]|[[T ->]|[[T ->]|[[T ->]|(r & T & ->)]]]];
    rewrite T; reflexivity.
Qed.

Lemma processBatch_verdicts (l : list FastqRead) (sh : Shared) :
  batch l sh = option_map (fun acts => applyAll acts sh) (vds l).
Proof.
  revert sh. induction l as [|read l IH]; intros sh; cbn [processBatch verdicts]; [reflexivity|].
  rewrite processRead_verdict. destruct (vd read) as [a|]; cbn [option_map]; [|reflexivity].
  rewrite IH. destruct (vds l); reflexivity.
Qed.

Lemma apply_same (x : action) (a b : Shared) :
  sameShared a b -> sameShared (apply x a) (apply x b).
Proof.
  intros (H1 & H2 & H3 & H4). destruct x; unfold sameShared; cbn; rewrite ?H1, ?H2, ?H3;
    repeat split; try assumption. now apply Permutation_app_tail.
Qed.

Lemma apply_comm (x y : action) (a : Shared) :
  sameShared (apply x (apply y a)) (apply y (apply x a)).
Proof.
  destruct x, y; unfold sameShared; cbn; repeat split; try reflexivity.
  rewrite <- !app_assoc. apply Permutation_app_head. apply perm_swap.
Qed.

Lemma applyAll_same (acts : list action) (a b : Shared) :
  sameShared a b -> sameShared (applyAll acts a) (applyAll acts b).
Proof.
  revert a b. induction acts as [|x acts IH]; intros a b H; [exact H|].
  cbn. apply IH. now apply apply_same.
Qed.

Lemma applyAll_perm (acts1 acts2 : list action) (a : Shared) :
  Permutation acts1 acts2 -> sameShared (applyAll acts1 a) (applyAll acts2 a).
Proof.
  intros P. revert a. induction P as [|x l1 l2 P IH|x y l|l1 l2 l3 P1 IH1 P2 IH2]; intros a.
  - apply sameShared_refl.
  - cbn. apply IH.
  - cbn. apply applyAll_same. apply apply_comm.
  - eapply sameShared_trans; [apply IH1|apply IH2].
Qed.

Lemma verdicts_perm (l1 l2 : list FastqRead) :
  Permutation l1 l2 ->
  match vds l1, vds l2 with
  | Some a1, Some a2 => Permutation a1 a2
  | None, None => True
  | _, _ => False
  end.
Proof.
  intros P. induction P as [|x l1 l2 P IH|x y l|l1 l2 l3 P1 IH1 P2 IH2]; cbn [verdicts].
  - constructor.
  - destruct (vd x), (vds l1), (vds l2); try tauto. now constructor.
  - destruct (vd x), (vd y), (vds l); try exact I. apply perm_swap.
  - destruct (vds l1), (vds l2), (vds l3); try tauto.
    now transitivity l0.
Qed.

(** A batch gives the same outcome whatever the order of its reads. *)
Lemma processBatch_perm (l1 l2 : list FastqRead) (sh : Shared) :
  Permutation l1 l2 -> sameOutcome (batch l1 sh) (batch l2 sh).
Proof.
  intros P. rewrite !processBatch_verdicts. pose proof (verdicts_perm l1 l2 P) as V.
  destruct (vds l1), (vds l2); cbn; try tauto. now apply applyAll_perm.
Qed.

Lemma processBatch_app (l1 l2 : list FastqRead) (sh : Shared) :
  batch (l1 ++ l2) sh = match batch l1 sh with
                        | None => None
                        | Some sh' => batch l2 sh'
                        end.
Proof.
  revert sh. induction l1 as [|r l1 IH]; intros sh; cbn [app processBatch]; [reflexivity|].
  destruct (step r sh); [apply IH|reflexivity].
Qed.

Lemma finishWorkers_concat (bs : list (list FastqRead)) (sh : Shared) :
  finish bs sh = batch (List.concat bs) sh.
Proof.
  revert sh. induction bs as [|b bs IH]; intros sh; cbn [finishWorkers List.concat]; [reflexivity|].
  rewrite processBatch_app. destruct (batch b sh); [apply IH|reflexivity].
Qed.

Lemma replaceNth_concat (w : nat) (bs : list (list FastqRead)) (read : FastqRead)
    (rest : list FastqRead) :
  nth_error bs w = Some (read :: rest) ->
  Permutation (read :: List.concat (replaceNth w rest bs)) (List.concat bs).
Proof.
  revert w. induction bs as [|b bs IH]; intros w H.
  - destruct w; discriminate.
  - destruct w as [|w]; cbn in H.
    + injection H as ->. reflexivity.
    + cbn [replaceNth List.concat]. specialize (IH w H).
      etransitivity; [apply Permutation_middle|]. now apply Permutation_app_head.
Qed.

(** Whatever the schedule, the workers process the reads of all batches,
    each once, in some order. *)
Lemma runWorkers_as_batch (sched : list nat) (bs : list (list FastqRead)) (sh : Shared) :
  exists l, Permutation l (List.concat bs) /\ run sched bs sh = batch l sh.
Proof.
  revert bs sh. induction sched as [|w sched IH]; intros bs sh; cbn [runWorkers].
  - exists (List.concat bs). split; [reflexivity|apply finishWorkers_concat].
  - destruct (nth_error bs w) as [[|read rest]|] eqn:E; try apply IH.
    pose proof (replaceNth_concat w bs read rest E) as P.
    destruct (step read sh) as [sh'|] eqn:S.
    + destruct (IH (replaceNth w rest bs) sh') as (l & Pl & R).
      exists (read :: l). split; [now rewrite Pl|].
      cbn [processBatch]. now rewrite S.
    + exists (read :: List.concat (replaceNth w rest bs)). split; [assumption|].
      cbn [processBatch]. now rewrite S.
Qed.

Lemma runWorkers_single (sched : list nat) (bs : list (list FastqRead)) (sh : Shared) :
  sameOutcome (run sched bs sh) (batch (List.concat bs) sh).
Proof.
  destruct (runWorkers_as_batch sched bs sh) as (l & P & ->). now apply processBatch_perm.
Qed.

(** Counting: every action accounts for one more read. *)
Lemma apply_accounted (x : action) (sh : Shared) :
  countersNonneg sh -> accounted sh < Int64.max_int ->
  accounted (apply x sh) = accounted sh + 1 /\ countersNonneg (apply x sh).
Proof.
  unfold countersNonneg, accounted. intros (H1 & H2 & H3) H.
  assert (forall c, 0 <= c -> c < Int64.max_int -> Int64.add c 1 = c + 1) as W.
  { intros c Hc Hm. apply wrap_in_range.
    unfold Int64.in_range, Int64.min_int, Int64.max_int in *. lia. }
  destruct x; cbn; rewrite ?W by lia; rewrite ?length_app, ?Nat2Z.inj_add; cbn; lia.
Qed.

Lemma applyAll_accounted (acts : list action) (sh : Shared) :
  countersNonneg sh -> accounted sh + Z.of_nat (List.length acts) <= Int64.max_int ->
  accounted (applyAll acts sh) = accounted sh + Z.of_nat (List.length acts) /\
  countersNonneg (applyAll acts sh).
Proof.
  revert sh. induction acts as [|x acts IH]; intros sh Hn Hb.
  - cbn. split; [lia|assumption].
  - cbn [applyAll fold_left List.length] in *. rewrite Nat2Z.inj_succ in *.
    destruct (apply_accounted x sh Hn ltac:(lia)) as [A N].
    destruct (IH (apply x sh) N ltac:(lia)) as [A' N']. fold (applyAll acts (apply x sh)).
    split; [lia|assumption].
Qed.

Lemma verdicts_length (l : list FastqRead) (acts : list action) :
  vds l = Some acts -> List.length acts = List.length l.
Proof.
  revert acts. induction l as [|r l IH]; intros acts; cbn [verdicts].
  - now intros [= <-].
  - destruct (vd r); [|discriminate]. destruct (vds l); [|discriminate].
    intros [= <-]. cbn. f_equal. now apply IH.
Qed.

(** When the workers complete, the three counters and the number of
    survivors add up to the number of reads handed to them. *)
Lemma runWorkers_accounted (sched : list nat) (bs : list (list FastqRead)) (sh' : Shared) :
  Z.of_nat (List.length (List.concat bs)) <= Int64.max_int ->
  run sched bs initShared = Some sh' ->
  accounted sh' = Z.of_nat (List.length (List.concat bs)) /\ countersNonneg sh'.
Proof.
  intros Hb H. destruct (runWorkers_as_batch sched bs initShared) as (l & P & R).
  rewrite R, processBatch_verdicts in H.
  destruct (vds l) as [acts|] eqn:V; [|discriminate]. injection H as <-.
  apply verdicts_length in V. rewrite <- (Permutation_length P), <- V in *.
  destruct (applyAll_accounted acts initShared) as [A N].
  - unfold countersNonneg. cbn. lia.
  - change (accounted initShared) with 0. lia.
  - split; [|assumption]. rewrite A. reflexivity.
Qed.

(** Any two ways of batching and scheduling the same reads agree. *)
Lemma runWorkers_any_partition (batches batches' : list (list FastqRead))
    (sched sched' : list nat) :
  List.concat batches = List.concat batches' ->
  sameOutcome (run sched batches initShared) (run sched' batches' initShared).
Proof.
  intros H.
  pose proof (runWorkers_single sched batches initShared) as S1.
  pose proof (runWorkers_single sched' batches' initShared) as S2.
  rewrite H in S1. eapply sameOutcome_trans; [exact S1|]. now apply sameOutcome_sym.
Qed.

End WorkerFacts.

(* ===================================================================== *)
(** * The record source *)
(* ===================================================================== *)


Lemma first_bad_unique {A : Type} (P : A -> Prop) (pre pre' post post' : list A) (x x' : A) :
  (pre ++ x :: post = pre' ++ x' :: post')%list ->
  Forall P pre -> ~ P x -> Forall P pre' -> ~ P x' -> x = x'.
Proof.
  revert pre'. induction pre as [|a pre IH]; intros pre' E F N F' N'.
  - destruct pre' as [|a' pre']; cbn in E.
    + now injection E.
    + injection E as -> _. inversion F'. contradiction.
  - destruct pre' as [|a' pre']; cbn in E.
    + injection E as -> _. inversion F. contradiction.
    + injection E as -> E. inversion F. inversion F'. now apply (IH pre').
Qed.


Section ScanFacts.

Lemma check_spec (rec : string * string * string * string) :
  (wellFormed rec /\ check rec = Ok (toRead rec)) \/
  (~ wellFormed rec /\ exists msg, check rec = Err msg).
Proof.
  destruct rec as [[[h s] p] q]. unfold check, scanRecord, wellFormed, toRead.
  destruct (GoString.HasPrefix h "@") eqn:E1; cbn [negb].
  - destruct (String.eqb_spec p "+") as [->|E2]; cbn [negb].
    + destruct (Z.eqb_spec (GoString.len s) (GoString.len q)) as [E3|E3]; cbn [negb].
      * left. auto.
      * right. split; [tauto|eauto].
    + right. split; [tauto|eauto].
  - right. split; [intros [? _]; discriminate|eauto].
Qed.

Lemma check_no_panic (rec : string * string * string * string) : check rec <> Panic.
Proof.
  destruct (check_spec rec) as [[_ ->]|[_ [msg ->]]]; discriminate.
Qed.

(** Induction over a stream, four lines at a time. *)
Lemma lines_ind (P : list string -> Prop) :
  P [] ->
  (forall header short, (List.length short < 3)%nat -> P (header :: short)) ->
  (forall header sequence plus quality rest,
     P rest -> P (header :: sequence :: plus :: quality :: rest)) ->
  forall lines, P lines.
Proof.
  intros H0 H1 H4.
  fix IH 1. intros [|h [|s [|p [|q rest]]]].
  - exact H0.
  - apply H1. cbn. lia.
  - apply H1. cbn. lia.
  - apply H1. cbn. lia.
  - apply H4. apply IH.
Qed.

Variable batchSize : Z.

Lemma scanLoop_short (header : string) (short : list string) (st : ScanState) :
  (List.length short < 3)%nat ->
  scanLoop batchSize (header :: short) st =
  match check (header, nth 0 short "", nth 1 short "", nth 2 short "") with
  | Ok read => Ok (collect batchSize st read)
  | Err e => Err e
  | Panic => Panic
  end.
Proof.
  intros H. destruct short as [|s [|p [|q rest]]]; try reflexivity. cbn in H. lia.
Qed.

Lemma records_short (header : string) (short : list string) :
  (List.length short < 3)%nat ->
  records (header :: short) = [(header, nth 0 short "", nth 1 short "", nth 2 short "")].
Proof.
  intros H. destruct short as [|s [|p [|q rest]]]; try reflexivity. cbn in H. lia.
Qed.

Lemma readsOf_collect (st : ScanState) (read : FastqRead) :
  readsOf (collect batchSize st read) = (readsOf st ++ [read])%list.
Proof.
  unfold collect, readsOf.
  destruct (_ =? batchSize); cbn [reads dispatched].
  - rewrite concat_app. cbn [List.concat]. rewrite !app_nil_r. apply app_assoc.
  - apply app_assoc.
Qed.

Lemma totalReads_collect (st : ScanState) (read : FastqRead) :
  totalReads (collect batchSize st read) = Int64.add (totalReads st) 1.
Proof. unfold collect. destruct (_ =? batchSize); reflexivity. Qed.

Lemma allBatches_concat (st : ScanState) : List.concat (allBatches st) = readsOf st.
Proof.
  unfold allBatches, readsOf. destruct (reads st) as [|r l]; cbn [List.length].
  - cbn. now rewrite app_nil_r.
  - destruct (0 <? Z.of_nat (S (List.length l))) eqn:E; [|apply Z.ltb_ge in E; lia].
    rewrite concat_app. cbn. now rewrite app_nil_r.
Qed.

(** The scan either collects every record, all of them well formed, or
    stops with the error of the first record that is not. *)
Lemma scanLoop_spec (lines : list string) (st : ScanState) :
  (Forall wellFormed (records lines) /\
   exists st', scanLoop batchSize lines st = Ok st' /\
               readsOf st' = (readsOf st ++ map toRead (records lines))%list /\
               (totalReads st = Z.of_nat (List.length (readsOf st)) ->
                Z.of_nat (List.length (readsOf st)) + Z.of_nat (List.length lines)
                  <= Int64.max_int ->
                totalReads st' = Z.of_nat (List.length (readsOf st')))) \/
  (exists pre rec post msg,
     records lines = (pre ++ rec :: post)%list /\ Forall wellFormed pre /\
     ~ wellFormed rec /\ check rec = Err msg /\
     scanLoop batchSize lines st = Err msg).
Proof.
  revert st. induction lines as [|header short Hs|h s p q rest IH] using lines_ind; intros st.
  - left. split; [constructor|]. exists st. cbn. rewrite app_nil_r. auto.
  - rewrite scanLoop_short, records_short by assumption.
    set (rec := (header, nth 0 short "", nth 1 short "", nth 2 short "")).
    destruct (check_spec rec) as [[W E]|[W [msg E]]]; rewrite E.
    + left. split; [constructor; [exact W|constructor]|]. eexists. split; [reflexivity|].
      rewrite readsOf_collect. split; [reflexivity|].
      intros Ht Hb. rewrite totalReads_collect, Ht, length_app, Nat2Z.inj_add. cbn.
      apply wrap_in_range. cbn [List.length] in Hb.
      unfold Int64.in_range, Int64.min_int, Int64.max_int in *. lia.
    + right. exists [], rec, [], msg. repeat split; auto.
  - cbn [scanLoop records]. change (scanRecord h s p q) with (check (h, s, p, q)).
    destruct (check_spec (h, s, p, q)) as [[W E]|[W [msg E]]]; rewrite E.
    + destruct (IH (collect batchSize st (toRead (h, s, p, q))))
        as [[F (st' & R & Rd & T)]|(pre & rec & post & msg & Rc & F & NW & C & R)].
      * left. split; [now constructor|]. exists st'. split; [exact R|].
        rewrite readsOf_collect in Rd, T.
        split; [rewrite Rd; cbn [map]; now rewrite <- app_assoc|].
        intros Ht Hb. apply T.
        -- rewrite totalReads_collect, Ht, length_app, Nat2Z.inj_add. cbn.
           apply wrap_in_range. cbn [List.length] in Hb.
           unfold Int64.in_range, Int64.min_int, Int64.max_int in *. lia.
        -- rewrite length_app. cbn [List.length] in *. lia.
      * right. exists ((h, s, p, q) :: pre), rec, post, msg.
        rewrite Rc. repeat split; auto.
    + right. exists [], (h, s, p, q), (records rest), msg. repeat split; auto.
Qed.

(** The total counts the records, one [totalReads++] each. *)
Lemma scanLoop_total (lines : list string) (st st' : ScanState) :
  scanLoop batchSize lines st = Ok st' ->
  totalReads st' = countUp (List.length (records lines)) (totalReads st).
Proof.
  revert st. induction lines as [|header short Hs|h s p q rest IH] using lines_ind; intros st.
  - cbn. now intros [= <-].
  - rewrite scanLoop_short, records_short by assumption.
    destruct (check _); try discriminate. intros [= <-]. apply totalReads_collect.
  - cbn [scanLoop records List.length]. destruct (scanRecord h s p q); try discriminate.
    intros H. rewrite (IH _ H), totalReads_collect. unfold countUp.
    now rewrite Nat.iter_succ_r.
Qed.

End ScanFacts.

(** The outcome of the scan does not depend on the batch size. *)
Lemma scanLoop_any_batchSize (b b' : Z) (lines : list string) :
  match scanLoop b lines initScan, scanLoop b' lines initScan with
  | Ok st, Ok st' => readsOf st = readsOf st' /\ totalReads st = totalReads st'
  | Err msg, Err msg' => msg = msg'
  | _, _ => False
  end.
Proof.
  destruct (scanLoop_spec b lines initScan)
    as [[F (st & R & Rd & _)]|(pre & rec & post & msg & Rc & F & NW & C & R)];
  destruct (scanLoop_spec b' lines initScan)
    as [[F' (st' & R' & Rd' & _)]|(pre' & rec' & post' & msg' & Rc' & F' & NW' & C' & R')].
  - rewrite R, R'. split; [congruence|].
    rewrite (scanLoop_total b lines _ _ R), (scanLoop_total b' lines _ _ R'). reflexivity.
  - exfalso. rewrite Rc' in F. apply Forall_app in F as [_ F]. inversion F. contradiction.
  - exfalso. rewrite Rc in F'. apply Forall_app in F' as [_ F']. inversion F'. contradiction.
  - rewrite R, R'. rewrite Rc in Rc'.
    assert (rec = rec') as <- by (eapply first_bad_unique; eauto). congruence.
Qed.

(* ===================================================================== *)
(** * The pipeline: statistics *)
(* ===================================================================== *)

Lemma records_length (lines : list string) :
  (List.length (records lines) <= List.length lines)%nat.
Proof.
  induction lines as [|header short Hs|h s p q rest IH] using lines_ind.
  - cbn. lia.
  - rewrite records_short by assumption. cbn. lia.
  - cbn [records List.length]. lia.
Qed.

(** What a successful scan leaves: the reads of all records, counted. *)
Lemma scanLoop_ok (batchSize : Z) (lines : list string) (st : ScanState) :
  scanLoop batchSize lines initScan = Ok st ->
  Forall wellFormed (records lines) /\
  readsOf st = map toRead (records lines) /\
  (Z.of_nat (List.length lines) <= Int64.max_int ->
   totalReads st = Z.of_nat (List.length (readsOf st))).
Proof.
  intros H.
  destruct (scanLoop_spec batchSize lines initScan)
    as [[F (st' & R & Rd & T)]|(pre & rec & post & msg & _ & _ & _ & _ & R)];
    [|rewrite R in H; discriminate].
  rewrite R in H. injection H as <-. split; [assumption|]. split; [exact Rd|].
  intros Hb. apply T; [reflexivity|].
  change (Z.of_nat (List.length (readsOf initScan))) with 0. lia.
Qed.

Section Statistics.
Import F64.

Variables Exp Log : float64 -> float64.
Context {W : Type} {writerOps : Writer W}.

Lemma writeResults_count (resultsChan : list FastqRead) (writer : W) (n : Z) :
  0 <= n -> n + Z.of_nat (List.length resultsChan) <= Int64.max_int ->
  snd (Streaming.writeResults writer resultsChan n) = n + Z.of_nat (List.length resultsChan).
Proof.
  revert writer n. induction resultsChan as [|read rest IH]; intros writer n H0 Hb.
  - cbn. lia.
  - cbn [Streaming.writeResults List.length] in *. rewrite Nat2Z.inj_succ in Hb.
    assert (Int64.add n 1 = n + 1) as ->.
    { apply wrap_in_range. unfold Int64.in_range, Int64.min_int, Int64.max_int in *. lia. }
    rewrite IH by lia. lia.
Qed.

(** The final statistics of a scan followed by the workers. *)
Lemma scan_and_workers (batchSize : Z) (lines : list string) (st : ScanState)
    (sched : list nat) (adapter : string) (minLen trim5 trim3 min5Match : Z)
    (maxError : float64) (sh : Shared) :
  Z.of_nat (List.length lines) <= Int64.max_int ->
  scanLoop batchSize lines initScan = Ok st ->
  runWorkers Exp Log adapter minLen trim5 trim3 min5Match maxError sched (allBatches st)
    initShared = Some sh ->
  totalReads st = accounted sh /\ countersNonneg sh /\
  Z.of_nat (List.length (trimmedReads sh)) <= Int64.max_int.
Proof.
  intros Hb Hscan Hrun. destruct (scanLoop_ok batchSize lines st Hscan) as (_ & Rd & T).
  specialize (T Hb).
  assert (Hl : Z.of_nat (List.length (readsOf st)) <= Int64.max_int).
  { rewrite Rd, length_map. pose proof (records_length lines). lia. }
  rewrite <- allBatches_concat in T, Hl.
  destruct (runWorkers_accounted _ _ _ _ _ _ _ _ _ _ _ Hl Hrun) as [A N].
  split; [congruence|]. split; [assumption|].
  unfold accounted, countersNonneg in *. lia.
Qed.

(** C2: when a run completes, the total of the reads is the sum of the
    trimmed reads and of the three rejection counters, in both variants of
    the pipeline and for every schedule of the workers; each record adds
    one to the total, and each read handed to a worker adds one to exactly
    one of the three counters or one survivor. *)
Theorem statistics_add_up :
  (forall batchSize files (writer : W) sched adapter minLen trim5 trim3 min5Match maxError
          report writer',
     Z.of_nat (List.length (lines (scanner files))) <= Int64.max_int ->
     Buffered.ProcessReadsFastWith Exp Log batchSize files writer sched adapter
       minLen trim5 trim3 min5Match maxError = Ok (report, writer') \/
     Streaming.ProcessReadsFastWith Exp Log batchSize files writer sched adapter
       minLen trim5 trim3 min5Match maxError = Ok (report, writer') ->
     total report =
       trimmed report + adapterMissing report + tooShort report + lowQuality report) /\
  (forall batchSize st read,
     totalReads (collect batchSize st read) = Int64.add (totalReads st) 1) /\
  (forall adapter minLen trim5 trim3 min5Match maxError read sh sh',
     processRead Exp Log adapter minLen trim5 trim3 min5Match maxError read sh = Some sh' ->
     exists a, sh' = apply a sh /\
       verdict Exp Log adapter minLen trim5 trim3 min5Match maxError read = Some a).
Proof.
  split; [|split].
  - intros batchSize files writer sched adapter minLen trim5 trim3 min5Match maxError
      report writer' Hb [H|H].
    + unfold Buffered.ProcessReadsFastWith in H.
      destruct (openErr files); [discriminate|]. destruct (gzipErr files); [discriminate|].
      destruct (createErr files); [discriminate|].
      destruct (scanLoop batchSize (lines (scanner files)) initScan) as [st| |] eqn:Hscan;
        try discriminate.
      destruct (scanErr (scanner files)); [discriminate|].
      destruct (runWorkers _ _ _ _ _ _ _ _ _ _ _) as [sh|] eqn:Hrun; [|discriminate].
      destruct (Buffered.writeTrimmedReads (trimmedReads sh) writer) as [w [e|]];
        [discriminate|].
      injection H as <- _. cbn [total trimmed adapterMissing tooShort lowQuality].
      destruct (scan_and_workers _ _ _ _ _ _ _ _ _ _ _ Hb Hscan Hrun) as (T & _ & _).
      rewrite T. unfold accounted. lia.
    + unfold Streaming.ProcessReadsFastWith in H.
      destruct (openErr files); [discriminate|]. destruct (gzipErr files); [discriminate|].
      destruct (createErr files); [discriminate|].
      destruct (scanLoop batchSize (lines (scanner files)) initScan) as [st| |] eqn:Hscan;
        try discriminate.
      destruct (scanErr (scanner files)); [discriminate|].
      destruct (runWorkers _ _ _ _ _ _ _ _ _ _ _) as [sh|] eqn:Hrun; [|discriminate].
      destruct (scan_and_workers _ _ _ _ _ _ _ _ _ _ _ Hb Hscan Hrun) as (T & _ & L).
      pose proof (writeResults_count (trimmedReads sh) writer 0 ltac:(lia) ltac:(lia)) as C.
      destruct (Streaming.writeResults writer (trimmedReads sh) 0) as [w n].
      cbn [snd] in C. injection H as <- _.
      cbn [total trimmed adapterMissing tooShort lowQuality].
      rewrite T, C. unfold accounted. lia.
  - intros. apply totalReads_collect.
  - intros adapter minLen trim5 trim3 min5Match maxError read sh sh' H.
    rewrite processRead_verdict in H.
    destruct (verdict _ _ _ _ _ _ _ _ read) as [a|]; [|discriminate].
    injection H as <-. now exists a.
Qed.

End Statistics.


Lemma statistics_add_up_witness :
  1 = 1 + 0 + 0 + 0.
Proof.
  apply (proj1 (statistics_add_up GoMath.exp GoMath.log (writerOps := memWriter))
           Buffered.batchSize testFiles "" [] "ATCC" 4 0 0 4 F64.tenth
           {| total := 1; trimmed := 1; adapterMissing := 0; tooShort := 0; lowQuality := 0 |}
           ("@READ1" ++ nl ++ "ATCG" ++ nl ++ "+" ++ nl ++ "IIII" ++ nl)).
  - vm_compute. discriminate.
  - left. vm_compute. reflexivity.
Defined.

(* ===================================================================== *)
(** * The pipeline: fatal errors *)
(* ===================================================================== *)

Lemma records_framing (lines : list string) :
  exists pad, (pad < 4)%nat /\
    List.concat (map recordLines (records lines)) = (lines ++ repeat "" pad)%list /\
    (Nat.modulo (List.length lines) 4 = 0%nat -> pad = 0%nat).
Proof.
  induction lines as [|header short Hs|h s p q rest IH] using lines_ind.
  - exists 0%nat. split; [lia|]. split; reflexivity.
  - rewrite records_short by assumption.
    destruct short as [|s [|p [|q rest]]]; [| | |cbn in Hs; lia].
    + exists 3%nat. split; [lia|]. split; [reflexivity|]. cbn. discriminate.
    + exists 2%nat. split; [lia|]. split; [reflexivity|]. cbn. discriminate.
    + exists 1%nat. split; [lia|]. split; [reflexivity|]. cbn. discriminate.
  - destruct IH as (pad & Hp & E & M). exists pad. split; [assumption|].
    cbn [records map List.concat recordLines]. rewrite E. split; [reflexivity|].
    intros H. apply M. cbn [List.length] in H.
    replace (S (S (S (S (List.length rest))))) with (List.length rest + 1 * 4)%nat in H by lia.
    now rewrite Nat.Div0.mod_add in H.
Qed.

Section FatalErrors.
Import F64.

Lemma processBatch_no_panic Exp Log adapter minLen trim5 trim3 min5Match maxError
    (l : list FastqRead) (sh : Shared) :
  Forall (fun read => trimRead Exp Log read adapter minLen trim5 trim3 min5Match maxError
                        <> Panic) l ->
  exists sh', processBatch Exp Log adapter minLen trim5 trim3 min5Match maxError l sh = Some sh'.
Proof.
  intros F. revert sh. induction F as [|read l H F IH]; intros sh; cbn [processBatch].
  - now exists sh.
  - destruct (processRead_cases Exp Log adapter minLen trim5 trim3 min5Match maxError read sh)
      as [[T _]|[[_ ->]|[[_ ->]|[[_ ->]|(r & _ & ->)]]]]; [contradiction|apply IH ..].
Qed.

(** C7: the stream is read in records of four lines (lines missing at the
    end read as empty); the scan ends with an error exactly when some
    record fails one of the three structural checks, the error is that of
    the first such record whatever follows it, and otherwise the reads are
    the records in order; the run returns that error, provided none of the
    reads scanned before the failing record makes [trimRead] panic in a
    worker that was started inside the loop; a rejection by [trimRead] lets
    the worker go on, and a stream of well-formed records whose reads do not
    make [trimRead] panic is processed to the end. *)
Theorem structural_errors (batchSize : Z) (stream : list string) :
  (exists pad, (pad < 4)%nat /\
     List.concat (map recordLines (records stream)) = (stream ++ repeat "" pad)%list /\
     (Nat.modulo (List.length stream) 4 = 0%nat -> pad = 0%nat)) /\
  ((exists msg, scanLoop batchSize stream initScan = Err msg) <->
   Exists (fun rec => ~ wellFormed rec) (records stream)) /\
  (forall st, scanLoop batchSize stream initScan = Ok st ->
     Forall wellFormed (records stream) /\ readsOf st = map toRead (records stream)) /\
  scanLoop batchSize stream initScan <> Panic /\
  (forall pre rec post msg,
     records stream = (pre ++ rec :: post)%list -> Forall wellFormed pre ->
     check rec = Err msg -> scanLoop batchSize stream initScan = Err msg) /\
  (forall Exp Log (W : Type) (writerOps : Writer W) files (writer : W) sched adapter
          minLen trim5 trim3 min5Match maxError pre rec post msg,
     openErr files = None -> gzipErr files = None -> createErr files = None ->
     stream = lines (scanner files) ->
     records stream = (pre ++ rec :: post)%list -> Forall wellFormed pre ->
     check rec = Err msg ->
     Forall (fun rec => trimRead Exp Log (toRead rec) adapter minLen trim5 trim3 min5Match
                          maxError <> Panic) pre ->
     Buffered.ProcessReadsFastWith Exp Log batchSize files writer sched adapter
       minLen trim5 trim3 min5Match maxError = Err msg /\
     Streaming.ProcessReadsFastWith Exp Log batchSize files writer sched adapter
       minLen trim5 trim3 min5Match maxError = Err msg) /\
  (forall Exp Log adapter minLen trim5 trim3 min5Match maxError read sh msg,
     trimRead Exp Log read adapter minLen trim5 trim3 min5Match maxError = Err msg ->
     exists sh',
       processRead Exp Log adapter minLen trim5 trim3 min5Match maxError read sh = Some sh') /\
  (forall Exp Log (W : Type) (writerOps : Writer W) files (writer : W) sched adapter
          minLen trim5 trim3 min5Match maxError,
     openErr files = None -> gzipErr files = None -> createErr files = None ->
     scanErr (scanner files) = None ->
     stream = lines (scanner files) ->
     Forall wellFormed (records stream) ->
     Forall (fun rec => trimRead Exp Log (toRead rec) adapter minLen trim5 trim3 min5Match
                          maxError <> Panic) (records stream) ->
     exists report writer',
       Streaming.ProcessReadsFastWith Exp Log batchSize files writer sched adapter
         minLen trim5 trim3 min5Match maxError = Ok (report, writer')).
Proof.
  pose proof (scanLoop_spec batchSize stream initScan) as Spec.
  assert (First : forall pre rec post msg,
            records stream = (pre ++ rec :: post)%list -> Forall wellFormed pre ->
            check rec = Err msg -> scanLoop batchSize stream initScan = Err msg).
  { intros pre rec post msg Rc F C.
    assert (NW : ~ wellFormed rec).
    { destruct (check_spec rec) as [[_ E]|[NW _]]; [congruence|assumption]. }
    destruct Spec as [[F' _]|(pre' & rec' & post' & msg' & Rc' & F' & NW' & C' & R)].
    + exfalso. rewrite Rc in F'. apply Forall_app in F' as [_ F'].
      inversion F'. contradiction.
    + rewrite Rc in Rc'.
      assert (rec = rec') as <- by (eapply first_bad_unique; eauto).
      congruence. }
  split; [apply records_framing|].
  split; [|split; [|split; [|split; [|split; [|split]]]]].
  - split.
    + intros [msg H].
      destruct Spec as [[_ (st' & R & _)]|(pre & rec & post & _ & Rc & _ & NW & _)];
        [rewrite R in H; discriminate|].
      rewrite Rc. apply Exists_app. right. now constructor.
    + intros Ex.
      destruct Spec as [[F _]|(pre & rec & post & msg & _ & _ & _ & _ & R)]; [|eauto].
      exfalso. apply Exists_exists in Ex as (rec & In & NW).
      rewrite Forall_forall in F. auto.
  - intros st H. destruct (scanLoop_ok batchSize stream st H) as (F & Rd & _). auto.
  - destruct Spec as [[_ (st' & -> & _)]|(pre & rec & post & msg & _ & _ & _ & _ & ->)];
      discriminate.
  - exact First.
  - intros Exp Log W writerOps files writer sched adapter minLen trim5 trim3 min5Match
      maxError pre rec post msg H1 H2 H3 -> Rc F C _.
    pose proof (First pre rec post msg Rc F C) as H.
    unfold Buffered.ProcessReadsFastWith, Streaming.ProcessReadsFastWith.
    rewrite H1, H2, H3, H. auto.
  - intros Exp Log adapter minLen trim5 trim3 min5Match maxError read sh msg H.
    unfold processRead. rewrite H. eauto.
  - intros Exp Log W writerOps files writer sched adapter minLen trim5 trim3 min5Match
      maxError H1 H2 H3 H4 -> F NP.
    unfold Streaming.ProcessReadsFastWith. rewrite H1, H2, H3.
    destruct Spec as [[_ (st & R & Rd & _)]|(pre & rec & post & msg & Rc & _ & NW & _)].
    + rewrite R, H4.
      destruct (runWorkers_as_batch Exp Log adapter minLen trim5 trim3 min5Match maxError
                  sched (allBatches st) initShared) as (l & P & ->).
      rewrite allBatches_concat, Rd in P. cbn [app] in P.
      destruct (processBatch_no_panic Exp Log adapter minLen trim5 trim3 min5Match maxError
                  l initShared) as [sh ->].
      * apply Forall_forall. intros read In.
        apply (Permutation_in _ P) in In. apply in_map_iff in In as (rec & <- & In).
        rewrite Forall_forall in NP. now apply NP.
      * destruct (Streaming.writeResults writer (trimmedReads sh) 0). eauto.
    + exfalso. rewrite Rc in F. apply Forall_app in F as [_ F]. inversion F. contradiction.
Qed.

End FatalErrors.

Lemma structural_errors_witness :
  scanLoop 2 ["@READ1"; "ATCGATCC"; "+"; "IIIIIIII"; "READ2"; "ATCG"; "+"; "IIII";
              "@READ3"; "ATCG"; "-"; "IIII"] initScan =
  Err "invalid fastq file: expected '@' at the beginning of header line, got: READ2".
Proof.
  apply (proj1 (proj2 (proj2 (proj2 (proj2 (structural_errors 2
           ["@READ1"; "ATCGATCC"; "+"; "IIIIIIII"; "READ2"; "ATCG"; "+"; "IIII";
            "@READ3"; "ATCG"; "-"; "IIII"])))))
         [("@READ1", "ATCGATCC", "+", "IIIIIIII")] ("READ2", "ATCG", "+", "IIII")
         [("@READ3", "ATCG", "-", "IIII")]).
  - reflexivity.
  - repeat constructor.
  - reflexivity.
Defined.

(* ===================================================================== *)
(** * The pipeline: write failures *)
(* ===================================================================== *)


Lemma writeResults_countUp {W : Type} (ops : Writer W) (resultsChan : list FastqRead)
    (writer : W) (n : Z) :
  snd (Streaming.writeResults writer resultsChan n) = countUp (List.length resultsChan) n.
Proof.
  revert writer n. induction resultsChan as [|read rest IH]; intros writer n; [reflexivity|].
  cbn [Streaming.writeResults List.length]. rewrite IH. unfold countUp.
  now rewrite Nat.iter_succ_r.
Qed.

(** What the streaming variant returns depends neither on the writer, nor
    on the batch size, nor on the schedule of the workers. *)
Lemma streaming_outcome Exp Log (W1 W2 : Type) (ops1 : Writer W1) (ops2 : Writer W2)
    (w1 : W1) (w2 : W2) (b b' : Z) (files : Files) (sched sched' : list nat)
    (adapter : string) (minLen trim5 trim3 min5Match : Z) (maxError : F64.float64) :
  outcome (Streaming.ProcessReadsFastWith Exp Log (writerOps := ops1) b files w1
             sched adapter minLen trim5 trim3 min5Match maxError) =
  outcome (Streaming.ProcessReadsFastWith Exp Log (writerOps := ops2) b' files w2
             sched' adapter minLen trim5 trim3 min5Match maxError).
Proof.
  unfold Streaming.ProcessReadsFastWith.
  destruct (openErr files); [reflexivity|]. destruct (gzipErr files); [reflexivity|].
  destruct (createErr files); [reflexivity|].
  pose proof (scanLoop_any_batchSize b b' (lines (scanner files))) as S.
  destruct (scanLoop b (lines (scanner files)) initScan) as [st|msg|],
           (scanLoop b' (lines (scanner files)) initScan) as [st'|msg'|];
    try contradiction; [|now subst].
  destruct S as [Rd T].
  destruct (scanErr (scanner files)); [reflexivity|].
  pose proof (runWorkers_any_partition Exp Log adapter minLen trim5 trim3 min5Match maxError
                (allBatches st) (allBatches st') sched sched') as P.
  rewrite !allBatches_concat in P. specialize (P Rd).
  destruct (runWorkers _ _ _ _ _ _ _ _ sched _ _) as [sh|],
           (runWorkers _ _ _ _ _ _ _ _ sched' _ _) as [sh'|]; try contradiction;
    [|reflexivity].
  destruct P as (P1 & P2 & P3 & P4).
  pose proof (writeResults_countUp ops1 (trimmedReads sh) w1 0) as C1.
  pose proof (writeResults_countUp ops2 (trimmedReads sh') w2 0) as C2.
  destruct (Streaming.writeResults w1 (trimmedReads sh) 0),
           (Streaming.writeResults w2 (trimmedReads sh') 0).
  cbn [snd outcome] in *. rewrite C1, C2, (Permutation_length P4), T, P1, P2, P3.
  reflexivity.
Qed.

(** Two completed runs of the buffered variant report the same
    statistics, whatever the batch sizes and schedules. *)
Lemma buffered_report Exp Log (W : Type) (ops : Writer W) (w1 w2 wr wr' : W) (b b' : Z)
    (files : Files) (sched sched' : list nat) (adapter : string)
    (minLen trim5 trim3 min5Match : Z) (maxError : F64.float64) (rep rep' : Report) :
  Buffered.ProcessReadsFastWith Exp Log b files w1 sched adapter minLen trim5 trim3
    min5Match maxError = Ok (rep, wr) ->
  Buffered.ProcessReadsFastWith Exp Log b' files w2 sched' adapter minLen trim5 trim3
    min5Match maxError = Ok (rep', wr') ->
  rep = rep'.
Proof.
  unfold Buffered.ProcessReadsFastWith.
  destruct (openErr files); [discriminate|]. destruct (gzipErr files); [discriminate|].
  destruct (createErr files); [discriminate|].
  pose proof (scanLoop_any_batchSize b b' (lines (scanner files))) as S.
  destruct (scanLoop b (lines (scanner files)) initScan) as [st|msg|],
           (scanLoop b' (lines (scanner files)) initScan) as [st'|msg'|];
    try contradiction; try discriminate.
  destruct S as [Rd T].
  destruct (scanErr (scanner files)); [discriminate|].
  pose proof (runWorkers_any_partition Exp Log adapter minLen trim5 trim3 min5Match maxError
                (allBatches st) (allBatches st') sched sched') as P.
  rewrite !allBatches_concat in P. specialize (P Rd).
  destruct (runWorkers _ _ _ _ _ _ _ _ sched _ _) as [sh|],
           (runWorkers _ _ _ _ _ _ _ _ sched' _ _) as [sh'|]; try contradiction;
    try discriminate.
  destruct P as (P1 & P2 & P3 & P4).
  destruct (Buffered.writeTrimmedReads (trimmedReads sh) w1) as [? [?|]]; [discriminate|].
  destruct (Buffered.writeTrimmedReads (trimmedReads sh') w2) as [? [?|]]; [discriminate|].
  intros [= <- _] [= <- _]. now rewrite (Permutation_length P4), T, P1, P2, P3.
Qed.

(** Written by [writeTrimmedReads]: the first error of [WriteString] is
    returned. *)
Lemma writeTrimmedReads_first_error {W : Type} (ops : Writer W) (read : FastqRead)
    (rest : list FastqRead) (writer : W) (err : string) :
  snd (WriteString writer (Header read ++ nl)) = Some err ->
  snd (Buffered.writeTrimmedReads (read :: rest) writer) = Some err.
Proof.
  intros H. cbn [Buffered.writeTrimmedReads].
  destruct (WriteString writer (Header read ++ nl)) as [w [e|]]; cbn in *; congruence.
Qed.

(** C3 fails on the code: in the streaming variant what the run returns
    does not depend on the writer at all, so a run whose every write fails
    still reports success; the buffered variant returns the error of a
    failed [WriteString] but drops the error of the final [Flush]. *)
Theorem write_errors_dropped :
  (forall Exp Log (W1 W2 : Type) (ops1 : Writer W1) (ops2 : Writer W2) (w1 : W1) (w2 : W2)
          batchSize files sched adapter minLen trim5 trim3 min5Match maxError,
     outcome (Streaming.ProcessReadsFastWith Exp Log (writerOps := ops1) batchSize files w1
                sched adapter minLen trim5 trim3 min5Match maxError) =
     outcome (Streaming.ProcessReadsFastWith Exp Log (writerOps := ops2) batchSize files w2
                sched adapter minLen trim5 trim3 min5Match maxError)) /\
  WriteString (Writer := brokenPipe) tt ("@READ1" ++ nl) = (tt, Some "broken pipe") /\
  Streaming.ProcessReadsFast GoMath.exp GoMath.log (writerOps := brokenPipe) testFiles tt []
    "ATCC" 4 0 0 4 F64.tenth =
    Ok ({| total := 1; trimmed := 1; adapterMissing := 0; tooShort := 0; lowQuality := 0 |}, tt) /\
  Streaming.ProcessReadsFast GoMath.exp GoMath.log (writerOps := fullDisk) testFiles "" []
    "ATCC" 4 0 0 4 F64.tenth =
    Ok ({| total := 1; trimmed := 1; adapterMissing := 0; tooShort := 0; lowQuality := 0 |},
        "@READ1" ++ nl ++ "ATCG" ++ nl ++ "+" ++ nl ++ "IIII" ++ nl) /\
  Buffered.ProcessReadsFast GoMath.exp GoMath.log (writerOps := brokenPipe) testFiles tt []
    "ATCC" 4 0 0 4 F64.tenth = Err "broken pipe" /\
  Flush (Writer := fullDisk) ("@READ1" ++ nl ++ "ATCG" ++ nl ++ "+" ++ nl ++ "IIII" ++ nl) =
    ("@READ1" ++ nl ++ "ATCG" ++ nl ++ "+" ++ nl ++ "IIII" ++ nl, Some noSpace) /\
  Buffered.ProcessReadsFast GoMath.exp GoMath.log (writerOps := fullDisk) testFiles "" []
    "ATCC" 4 0 0 4 F64.tenth =
    Ok ({| total := 1; trimmed := 1; adapterMissing := 0; tooShort := 0; lowQuality := 0 |},
        "@READ1" ++ nl ++ "ATCG" ++ nl ++ "+" ++ nl ++ "IIII" ++ nl).
Proof.
  split; [|repeat split; vm_compute; reflexivity].
  intros. apply streaming_outcome.
Qed.

(* ===================================================================== *)
(** * The pipeline: independence of the batching *)
(* ===================================================================== *)


(** C9: however the reads are split into batches and however the workers
    are scheduled, the run ends the same way: either a read makes
    [trimRead] panic, or the three rejection counters are the same and the
    surviving trimmed reads are the same up to their order; one worker
    with all the reads is one such split.  The statistics that the
    streaming variant returns are the same for all batch sizes and
    schedules, and so are those of two completed runs of the buffered
    variant. *)
Theorem batching_independent Exp Log (adapter : string) (minLen trim5 trim3 min5Match : Z)
    (maxError : F64.float64) :
  (forall (reads : list FastqRead) (batches batches' : list (list FastqRead))
          (sched sched' : list nat),
     List.concat batches = reads -> List.concat batches' = reads ->
     sameOutcome
       (runWorkers Exp Log adapter minLen trim5 trim3 min5Match maxError sched batches initShared)
       (runWorkers Exp Log adapter minLen trim5 trim3 min5Match maxError sched' batches'
          initShared) /\
     sameOutcome
       (runWorkers Exp Log adapter minLen trim5 trim3 min5Match maxError sched batches initShared)
       (processBatch Exp Log adapter minLen trim5 trim3 min5Match maxError reads initShared)) /\
  (forall (W : Type) (ops : Writer W) (w : W) b b' files sched sched',
     outcome (Streaming.ProcessReadsFastWith Exp Log b files w sched adapter
                minLen trim5 trim3 min5Match maxError) =
     outcome (Streaming.ProcessReadsFastWith Exp Log b' files w sched' adapter
                minLen trim5 trim3 min5Match maxError)) /\
  (forall (W : Type) (ops : Writer W) (w wr wr' : W) b b' files sched sched' rep rep',
     Buffered.ProcessReadsFastWith Exp Log b files w sched adapter
       minLen trim5 trim3 min5Match maxError = Ok (rep, wr) ->
     Buffered.ProcessReadsFastWith Exp Log b' files w sched' adapter
       minLen trim5 trim3 min5Match maxError = Ok (rep', wr') ->
     rep = rep').
Proof.
  split; [|split].
  - intros reads batches batches' sched sched' H1 H2. split.
    + apply runWorkers_any_partition. congruence.
    + rewrite <- H1. apply runWorkers_single.
  - intros. apply streaming_outcome.
  - intros W ops w wr wr' b b' files sched sched' rep rep'. apply buffered_report.
Qed.

Lemma batching_independent_witness :
  sameOutcome
    (runWorkers GoMath.exp GoMath.log "ATCC" 2 0 0 4 F64.tenth [1; 0]%nat
       [[exampleRead; lowQualityRead]; [secondRead]] initShared)
    (runWorkers GoMath.exp GoMath.log "ATCC" 2 0 0 4 F64.tenth []
       [[exampleRead; lowQualityRead; secondRead]] initShared).
Proof.
  exact (proj1 (proj1 (batching_independent GoMath.exp GoMath.log "ATCC" 2 0 0 4 F64.tenth)
                  [exampleRead; lowQualityRead; secondRead]
                  [[exampleRead; lowQualityRead]; [secondRead]]
                  [[exampleRead; lowQualityRead; secondRead]]
                  [1; 0]%nat [] eq_refl eq_refl)).
Defined.

(* ===================================================================== *)
(** * Console report: thousands separators *)
(* ===================================================================== *)

Lemma commaLoop_app (l1 l2 : list ascii) (x : string) (c : Z) :
  commaLoop (l1 ++ l2) x c = commaLoop l2 (commaLoop l1 x c) (c + Z.of_nat (List.length l1)).
Proof.
  revert x c. induction l1 as [|a l1 IH]; intros x c; cbn [app commaLoop List.length].
  - now rewrite Z.add_0_r.
  - rewrite IH. f_equal. lia.
Qed.

Lemma commaLoop_groups (s : string) :
  commaLoop (rev (GoString.bytes s)) "" 0 = groupThousands s.
Proof.
  induction s as [|c s IH]; [reflexivity|].
  unfold GoString.bytes in *. cbn [list_ascii_of_string rev groupThousands].
  rewrite commaLoop_app, IH, length_rev, Z.add_0_l.
  change (list_ascii_of_string s) with (GoString.bytes s). rewrite length_bytes.
  cbn [commaLoop].
  destruct ((0 <? GoString.len s) && (GoString.len s mod 3 =? 0)); reflexivity.
Qed.

Lemma dropCommas_groups (s : string) :
  ~ In ","%char (GoString.bytes s) -> dropCommas (groupThousands s) = s.
Proof.
  unfold GoString.bytes.
  induction s as [|c s IH]; [reflexivity|]. cbn [dropCommas groupThousands list_ascii_of_string].
  intros H. destruct (Ascii.eqb_spec c ",") as [->|Hc]; [exfalso; apply H; now left|].
  f_equal. assert (~ In ","%char (list_ascii_of_string s)) as H' by (intros X; apply H; now right).
  destruct ((0 <? GoString.len s) && (GoString.len s mod 3 =? 0)); cbn; auto.
Qed.

Lemma uint_no_comma (d : Decimal.uint) :
  ~ In ","%char (list_ascii_of_string (NilEmpty.string_of_uint d)).
Proof. induction d; cbn; intuition discriminate. Qed.

Lemma FormatInt_no_comma (value : Z) : ~ In ","%char (GoString.bytes (FormatInt value)).
Proof.
  unfold GoString.bytes, FormatInt, decimal, NilZero.string_of_int, NilZero.string_of_uint.
  destruct (Z.to_int value) as [d|d].
  - destruct d; try apply uint_no_comma. cbn. intros [H|[]]. discriminate.
  - cbn [list_ascii_of_string]. intros [H|H]; [discriminate|]. revert H.
    destruct d; try apply uint_no_comma. cbn. intros [H|[]]. discriminate.
Qed.

(** X1: read from the left, [Comma(value)] is the decimal representation of
    [value] with a comma after each character that is followed by a
    positive multiple of three characters. *)
Theorem Comma_groups (value : Z) : Comma value = groupThousands (FormatInt value).
Proof. apply commaLoop_groups. Qed.

(** X2: deleting the commas of [Comma(value)] gives back the decimal
    representation of [value]: no character is lost or changed. *)
Theorem Comma_digits (value : Z) : dropCommas (Comma value) = FormatInt value.
Proof. unfold Comma. rewrite commaLoop_groups. apply dropCommas_groups, FormatInt_no_comma. Qed.

(** X3: the sign of a negative value is counted like a digit: for a
    negative [int64] other than the smallest one, whose negation wraps
    around, [Comma(value)] is "-", then a comma when the number of digits
    is a multiple of three (as in "-,123"), then [Comma(-value)]. *)
Theorem Comma_negative (value : Z) :
  Int64.min_int < value -> value < 0 ->
  Int64.sub 0 value = - value /\
  Comma value =
  String "-" ((if (0 <? GoString.len (FormatInt (- value))) &&
                  (GoString.len (FormatInt (- value)) mod 3 =? 0)
               then "," else "") ++ Comma (- value)).
Proof.
  intros Hmin H. split.
  - unfold Int64.sub. apply wrap_in_range.
    unfold Int64.in_range, Int64.min_int, Int64.max_int in *. lia.
  - destruct value as [|p|p]; try lia.
    unfold Comma. rewrite !commaLoop_groups. reflexivity.
Qed.

Lemma Comma_negative_witness : Int64.sub 0 (-123) = 123 /\ Comma (-123) = "-,123".
Proof. exact (Comma_negative (-123) eq_refl eq_refl). Defined.

(* ===================================================================== *)
(** * What [trimRead] keeps of a read *)
(* ===================================================================== *)

Module SliceFacts.
Import GoString StringFacts.

Lemma append_assoc (a b c : string) : (a ++ b) ++ c = a ++ b ++ c.
Proof. induction a as [|x a IH]; cbn [append]; [reflexivity|now rewrite IH]. Qed.

Lemma substring_split (s : string) (n m : nat) :
  (n + m <= String.length s)%nat ->
  exists pre post, s = pre ++ substring n m s ++ post /\ String.length pre = n.
Proof.
  revert n m. induction s as [|c s IH]; intros n m H; cbn [String.length] in H.
  - assert (n = 0%nat) as -> by lia. assert (m = 0%nat) as -> by lia.
    exists "", "". split; reflexivity.
  - destruct n as [|n].
    + destruct m as [|m].
      * exists "", (String c s). split; reflexivity.
      * destruct (IH 0%nat m ltac:(lia)) as (pre & post & E & L).
        destruct pre; [|discriminate]. cbn [append] in E.
        exists "", post. cbn [substring append]. split; [f_equal; exact E|reflexivity].
    + destruct (IH n m ltac:(lia)) as (pre & post & E & L).
      exists (String c pre), post. cbn [substring append String.length].
      split; [f_equal; exact E|now rewrite L].
Qed.

(** A slice cuts the string in three. *)
Lemma slice_split (s : string) (lo hi : Z) (t : string) :
  slice s lo hi = Some t ->
  exists pre post, s = pre ++ t ++ post /\ len pre = lo /\ len post = len s - hi.
Proof.
  intros H. apply slice_Some in H as (H1 & H2 & H3 & -> & H4).
  destruct (substring_split s (Z.to_nat lo) (Z.to_nat (hi - lo))) as (pre & post & E & L).
  { unfold len in H3. lia. }
  exists pre, post. assert (Hpre : len pre = lo) by (unfold len; lia).
  split; [exact E|]. split; [assumption|].
  pose proof (f_equal len E) as EL. rewrite !len_append, H4 in EL. lia.
Qed.

Lemma append_split (a b c d : string) :
  a ++ b = c ++ d -> len a <= len c -> exists m, c = a ++ m /\ b = m ++ d.
Proof.
  revert c. induction a as [|x a IH]; intros c E L.
  - exists c. split; [reflexivity|exact E].
  - destruct c as [|y c].
    + rewrite len_String in L. pose proof (len_nonneg a). change (len "") with 0 in L. lia.
    + cbn [append] in E. injection E as -> E. rewrite !len_String in L.
      destruct (IH c E ltac:(lia)) as (m & -> & ->). exists m. split; reflexivity.
Qed.

End SliceFacts.

Section TrimReadKeeps.
Import F64 GoString StringFacts SliceFacts.

Variables Exp Log : float64 -> float64.

Local Abbreviation trim := (trimRead Exp Log).

(** What is known of a read that [trimRead] returns. *)
Lemma trimRead_Ok_inv read adapter minLen trim5 trim3 min5Match maxError r :
  trim read adapter minLen trim5 trim3 min5Match maxError = Ok r ->
  exists pat,
    sliceTo adapter min5Match = Some pat /\
    Index (Sequence read) pat <> -1 /\
    minLen <= Int64.sub (Int64.sub (Index (Sequence read) pat) trim3) trim5 /\
    slice (Sequence read) trim5 (Int64.sub (Index (Sequence read) pat) trim3)
      = Some (Sequence r) /\
    slice (Quality read) trim5 (Int64.sub (Index (Sequence read) pat) trim3)
      = Some (Quality r) /\
    geb (meanError Exp Log (bytes (Quality r))) maxError = false /\
    Header r = Header read.
Proof.
  intros H.
  destruct (sliceTo adapter min5Match) as [pat|] eqn:Hpat;
    [|rewrite trimRead_bad_prefix in H by assumption; discriminate].
  exists pat. split; [reflexivity|].
  destruct (Z.eq_dec (Index (Sequence read) pat) (-1)) as [Hidx|Hidx];
    [rewrite (trimRead_missing _ _ _ _ _ _ _ _ _ pat) in H by assumption; discriminate|].
  rewrite (trimRead_found _ _ _ _ _ _ _ _ _ pat Hpat Hidx) in H. cbv zeta in H.
  destruct (_ <? minLen) eqn:E; [discriminate|]. apply Z.ltb_ge in E.
  destruct (slice (Sequence read) _ _) as [s|] eqn:Es; [|discriminate].
  destruct (slice (Quality read) _ _) as [q|] eqn:Eq; [|discriminate].
  destruct (geb _ maxError) eqn:G; [discriminate|].
  injection H as <-. cbn [Header Sequence Quality]. repeat split; assumption.
Qed.

(** With [trim3 >= 0] the end of the window is computed without
    wrap-around. *)
Lemma window_end (s pat : string) (trim3 : Z) :
  Index s pat <> -1 -> 0 <= trim3 <= Int64.max_int -> len s <= Int64.max_int ->
  Int64.sub (Index s pat) trim3 = Index s pat - trim3.
Proof.
  intros Hidx H3 Hl. unfold Int64.sub. apply wrap_in_range.
  destruct (Index_spec s pat) as [[? _]|[Hi _]]; [contradiction|].
  destruct (Index_bound s pat) as [B|B]; [|contradiction].
  pose proof (len_nonneg pat).
  unfold Int64.in_range, Int64.min_int, Int64.max_int in *. lia.
Qed.

(** X4: a read that [trimRead] returns is cut out of the read it was
    given as follows: [trim5] characters, the sequence kept, [trim3]
    characters, then the leftmost occurrence of the first [min5Match]
    characters of the adapter; the quality kept starts at the same offset
    [trim5] of the quality string. *)
Theorem trimRead_anatomy read adapter minLen trim5 trim3 min5Match maxError r :
  trim read adapter minLen trim5 trim3 min5Match maxError = Ok r ->
  0 <= trim3 <= Int64.max_int -> len (Sequence read) <= Int64.max_int ->
  exists pat pre mid post qpre qpost,
    sliceTo adapter min5Match = Some pat /\
    Sequence read = pre ++ Sequence r ++ mid ++ pat ++ post /\
    Quality read = qpre ++ Quality r ++ qpost /\
    len pre = trim5 /\ len qpre = trim5 /\ len mid = trim3 /\
    len (pre ++ Sequence r ++ mid) = Index (Sequence read) pat.
Proof.
  intros H H3 Hl.
  destruct (trimRead_Ok_inv _ _ _ _ _ _ _ _ H) as (pat & Hpat & Hidx & _ & Hs & Hq & _).
  rewrite (window_end _ _ _ Hidx H3 Hl) in Hs, Hq.
  destruct (Index_spec (Sequence read) pat) as [[? _]|(Hi & (p & post & E & Lp) & _)];
    [contradiction|].
  destruct (slice_split _ _ _ _ Hs) as (pre & rest & Es & Lpre & Lrest).
  destruct (slice_split _ _ _ _ Hq) as (qpre & qpost & Eq & Lqpre & _).
  apply slice_Some in Hs as (_ & _ & _ & _ & Lt).
  assert (E' : (pre ++ Sequence r) ++ rest = p ++ pat ++ post).
  { rewrite append_assoc, <- Es. exact E. }
  destruct (append_split _ _ _ _ E') as (mid & Ep & Er).
  { rewrite len_append. lia. }
  exists pat, pre, mid, post, qpre, qpost.
  assert (Lmid : len mid = trim3).
  { pose proof (f_equal len Ep) as EL. rewrite !len_append in EL. lia. }
  split; [assumption|]. split.
  { rewrite Es at 1. now rewrite Er. }
  split; [exact Eq|].
  repeat split; try assumption.
  rewrite !len_append. lia.
Qed.

(** X5: with [min5Match >= 1] and [trim3 >= 0], the sequence of a read
    that [trimRead] returns no longer contains the first [min5Match]
    characters of the adapter: given to [trimRead] again, with any
    [minLen], [trim5], [trim3] and [maxError], it is rejected with
    "adapter missing". *)
Theorem trimRead_adapter_removed read adapter minLen trim5 trim3 min5Match maxError r
    minLen' trim5' trim3' maxError' :
  trim read adapter minLen trim5 trim3 min5Match maxError = Ok r ->
  1 <= min5Match ->
  0 <= trim3 <= Int64.max_int -> len (Sequence read) <= Int64.max_int ->
  trim r adapter minLen' trim5' trim3' min5Match maxError' = Err "adapter missing".
Proof.
  intros H Hm H3 Hl.
  destruct (trimRead_Ok_inv _ _ _ _ _ _ _ _ H) as (pat & Hpat & Hidx & _ & Hs & _).
  rewrite (window_end _ _ _ Hidx H3 Hl) in Hs.
  apply (trimRead_missing _ _ _ _ _ _ _ _ _ pat Hpat).
  apply Index_missing. intros [j (a & b & Ea & La)].
  destruct (Index_spec (Sequence read) pat) as [[? _]|(Hi & _ & Hleft)]; [contradiction|].
  destruct (slice_split _ _ _ _ Hs) as (pre & rest & Es & Lpre & _).
  apply slice_Some in Hs as (_ & _ & _ & _ & Lt).
  assert (Hocc : occursAt pat (Sequence read) (trim5 + j)).
  { exists (pre ++ a), (b ++ rest). split.
    - rewrite Es at 1. rewrite Ea. now rewrite !append_assoc.
    - rewrite len_append. lia. }
  specialize (Hleft _ Hocc).
  apply slice_Some in Hpat as (_ & _ & _ & _ & Lpat). 
  pose proof (f_equal len Ea) as EL. rewrite !len_append in EL.
  pose proof (len_nonneg b). lia.
Qed.

(** X6: [minLen] matters only through the answer "too short": a read
    that is not rejected as too short gets the same result from
    [trimRead] with any smaller [minLen]. *)
Theorem trimRead_minLen read adapter minLen minLen' trim5 trim3 min5Match maxError :
  minLen' <= minLen ->
  trimRead Exp Log read adapter minLen trim5 trim3 min5Match maxError <> Err "too short" ->
  trimRead Exp Log read adapter minLen' trim5 trim3 min5Match maxError =
  trimRead Exp Log read adapter minLen trim5 trim3 min5Match maxError.
Proof.
  intros Hle H.
  destruct (sliceTo adapter min5Match) as [pat|] eqn:Hpat;
    [|now rewrite !trimRead_bad_prefix by assumption].
  destruct (Z.eq_dec (Index (Sequence read) pat) (-1)) as [Hidx|Hidx];
    [now rewrite !(trimRead_missing _ _ _ _ _ _ _ _ _ pat) by assumption|].
  rewrite (trimRead_found _ _ _ _ minLen _ _ _ _ pat Hpat Hidx) in H |- *.
  rewrite (trimRead_found _ _ _ _ minLen' _ _ _ _ pat Hpat Hidx). cbv zeta in *.
  destruct (_ <? minLen) eqn:E; [now contradiction H|]. apply Z.ltb_ge in E.
  assert ((Int64.sub (Int64.sub (Index (Sequence read) pat) trim3) trim5 <? minLen') = false)
    as -> by (apply Z.ltb_ge; lia).
  reflexivity.
Qed.

End TrimReadKeeps.

Lemma trimRead_anatomy_witness :
  exists pat pre mid post qpre qpost,
    GoString.sliceTo "ATCC" 4 = Some pat /\
    "ATCGATCC" = pre ++ "ATCG" ++ mid ++ pat ++ post /\
    "FFFFFFFF" = qpre ++ "FFFF" ++ qpost /\
    GoString.len pre = 0 /\ GoString.len qpre = 0 /\ GoString.len mid = 0 /\
    GoString.len (pre ++ "ATCG" ++ mid) = GoString.Index "ATCGATCC" pat.
Proof.
  apply (trimRead_anatomy GoMath.exp GoMath.log exampleRead "ATCC" 2 0 0 4 F64.tenth
           {| Header := "@Header"; Sequence := "ATCG"; Quality := "FFFF" |}).
  - vm_compute. reflexivity.
  - vm_compute. split; discriminate.
  - vm_compute. discriminate.
Defined.

Lemma trimRead_adapter_removed_witness :
  trimRead GoMath.exp GoMath.log
    {| Header := "@Header"; Sequence := "ATCG"; Quality := "FFFF" |} "ATCC" 2 0 0 4 F64.tenth
  = Err "adapter missing".
Proof.
  apply (trimRead_adapter_removed GoMath.exp GoMath.log exampleRead "ATCC" 2 0 0 4 F64.tenth).
  - vm_compute. reflexivity.
  - lia.
  - vm_compute. split; discriminate.
  - vm_compute. discriminate.
Defined.

Lemma trimRead_minLen_witness :
  trimRead GoMath.exp GoMath.log exampleRead "ATCC" 1 0 0 4 F64.tenth =
  trimRead GoMath.exp GoMath.log exampleRead "ATCC" 4 0 0 4 F64.tenth.
Proof.
  apply (trimRead_minLen GoMath.exp GoMath.log exampleRead "ATCC" 4 1 0 0 4 F64.tenth).
  - lia.
  - vm_compute. discriminate.
Defined.

(* ===================================================================== *)
(** * Batches, order and the text written *)
(* ===================================================================== *)

Section BatchFacts.

Variable batchSize : Z.

(** A property kept by [collect] holds when the scanning loop is over. *)
Lemma scanLoop_invariant (P : ScanState -> Prop) :
  (forall st read, P st -> P (collect batchSize st read)) ->
  forall stream st st', P st -> scanLoop batchSize stream st = Ok st' -> P st'.
Proof.
  intros Hstep stream. induction stream as [|header short Hshort|h s p q rest IH]
    using lines_ind; intros st st' HP H.
  - cbn in H. injection H as <-. exact HP.
  - rewrite scanLoop_short in H by assumption.
    destruct (check _) as [read|e|]; try discriminate. injection H as <-. now apply Hstep.
  - cbn [scanLoop] in H. destruct (scanRecord h s p q) as [read|e|]; try discriminate.
    apply (IH _ _ (Hstep _ read HP) H).
Qed.

Lemma collect_batched (st : ScanState) (read : FastqRead) :
  1 <= batchSize -> batched batchSize st -> batched batchSize (collect batchSize st read).
Proof.
  intros Hb [Hd Hr]. unfold collect, batched.
  destruct (Z.eqb_spec (Z.of_nat (List.length (reads st ++ [read])%list)) batchSize) as [E|E];
    cbn [dispatched reads].
  - split; [|cbn; lia]. apply Forall_app. split; [assumption|]. now constructor.
  - split; [assumption|]. rewrite length_app in *. cbn [List.length] in *. lia.
Qed.

(** X7: with a batch size of at least one, when the scanning loop is
    over every batch handed to a worker during the loop holds exactly
    [batchSize] reads, fewer than [batchSize] reads are left for the last
    worker, no worker is started on an empty batch, and the batches put end
    to end are the records of the stream in their order. *)
Theorem scanLoop_batches (stream : list string) (st : ScanState) :
  1 <= batchSize ->
  scanLoop batchSize stream initScan = Ok st ->
  Forall (fun x => Z.of_nat (List.length x) = batchSize) (dispatched st) /\
  Z.of_nat (List.length (reads st)) < batchSize /\
  Forall (fun x => x <> []) (allBatches st) /\
  List.concat (allBatches st) = map toRead (records stream).
Proof.
  intros Hb H.
  assert (HB : batched batchSize st).
  { apply (scanLoop_invariant (batched batchSize)) with (stream := stream) (st := initScan).
    - intros; now apply collect_batched.
    - split; [constructor|cbn; lia].
    - assumption. }
  destruct HB as [Hd Hr]. split; [assumption|]. split; [assumption|]. split.
  - assert (Hne : Forall (fun x : list FastqRead => x <> []) (dispatched st)).
    { eapply Forall_impl; [|exact Hd]. intros x Hx ->. cbn in Hx. lia. }
    unfold allBatches. destruct (0 <? _) eqn:E; [|assumption].
    apply Forall_app. split; [assumption|]. constructor; [|constructor].
    intros Hnil. rewrite Hnil in E. discriminate.
  - rewrite allBatches_concat. now apply scanLoop_ok in H.
Qed.

(** Up to [batchSize] records make at most one batch. *)
Lemma scanLoop_one_batch (stream : list string) (st : ScanState) :
  1 <= batchSize ->
  Z.of_nat (List.length (records stream)) <= batchSize ->
  scanLoop batchSize stream initScan = Ok st ->
  (List.length (allBatches st) <= 1)%nat.
Proof.
  intros Hb Hn H.
  assert (HB : batched batchSize st).
  { apply (scanLoop_invariant (batched batchSize)) with (stream := stream) (st := initScan).
    - intros; now apply collect_batched.
    - split; [constructor|cbn; lia].
    - assumption. }
  destruct HB as [Hd Hr].
  apply scanLoop_ok in H as (_ & HR & _).
  apply (f_equal (@List.length _)) in HR. rewrite length_map in HR. unfold readsOf in HR.
  rewrite length_app in HR.
  unfold allBatches. destruct (dispatched st) as [|d ds].
  - cbn. destruct (0 <? _); cbn; lia.
  - inversion Hd as [|? ? Hd1 Hds]; subst. cbn [List.concat] in HR. rewrite length_app in HR.
    destruct ds as [|d' ds].
    + assert (List.length (reads st) = 0%nat) as -> by lia. cbn. lia.
    + inversion Hds as [|? ? Hd2 _]; subst. cbn [List.concat] in HR.
      rewrite length_app in HR. lia.
Qed.

End BatchFacts.

Lemma scanLoop_batches_witness :
  Forall (fun x => Z.of_nat (List.length x) = 1)
    [[{| Header := "@READ1"; Sequence := "ATCGATCC"; Quality := "IIIIIIII" |}]] /\
  Z.of_nat (List.length (@nil FastqRead)) < 1 /\
  Forall (fun x => x <> [])
    [[{| Header := "@READ1"; Sequence := "ATCGATCC"; Quality := "IIIIIIII" |}]] /\
  [{| Header := "@READ1"; Sequence := "ATCGATCC"; Quality := "IIIIIIII" |}] =
    map toRead (records ["@READ1"; "ATCGATCC"; "+"; "IIIIIIII"]).
Proof.
  apply (scanLoop_batches 1 ["@READ1"; "ATCGATCC"; "+"; "IIIIIIII"]
           {| reads := [];
              dispatched := [[{| Header := "@READ1"; Sequence := "ATCGATCC";
                                 Quality := "IIIIIIII" |}]];
              totalReads := 1 |}).
  - lia.
  - vm_compute. reflexivity.
Defined.

Section SurvivorFacts.
Import F64.

Variables Exp Log : float64 -> float64.
Variable adapter : string.
Variables minLen trim5 trim3 min5Match : Z.
Variable maxError : float64.

Local Abbreviation trim read :=
  (trimRead Exp Log read adapter minLen trim5 trim3 min5Match maxError).
Local Abbreviation step := (processRead Exp Log adapter minLen trim5 trim3 min5Match maxError).
Local Abbreviation batch := (processBatch Exp Log adapter minLen trim5 trim3 min5Match maxError).
Local Abbreviation run := (runWorkers Exp Log adapter minLen trim5 trim3 min5Match maxError).
Local Abbreviation kept := (survivors Exp Log adapter minLen trim5 trim3 min5Match maxError).

Lemma processRead_survivors (read : FastqRead) (sh sh' : Shared) :
  step read sh = Some sh' ->
  trimmedReads sh' = (trimmedReads sh ++ kept [read])%list.
Proof.
  intros H. cbn [survivors].
  destruct (processRead_cases Exp Log adapter minLen trim5 trim3 min5Match maxError read sh)
    as [[E S]|[[E S]|[[E S]|[[E S]|(r & E & S)]]]]; rewrite S in H; try discriminate;
    injection H as <-; rewrite E; cbn [trimmedReads]; now rewrite ?app_nil_r.
Qed.

Lemma survivors_app (l1 l2 : list FastqRead) : kept (l1 ++ l2) = (kept l1 ++ kept l2)%list.
Proof.
  induction l1 as [|read l1 IH]; [reflexivity|]. cbn [app survivors].
  destruct (trim read); rewrite IH; reflexivity.
Qed.

Lemma survivors_perm (l1 l2 : list FastqRead) :
  Permutation l1 l2 -> Permutation (kept l1) (kept l2).
Proof.
  induction 1 as [|x l l' _ IH|x y l|l l' l'' _ IH1 _ IH2]; cbn [survivors].
  - constructor.
  - destruct (trim x); auto.
  - destruct (trim x), (trim y); auto using Permutation_refl, perm_swap.
  - now transitivity (kept l').
Qed.

Lemma processBatch_survivors (l : list FastqRead) (sh sh' : Shared) :
  batch l sh = Some sh' ->
  trimmedReads sh' = (trimmedReads sh ++ kept l)%list.
Proof.
  revert sh. induction l as [|read l IH]; intros sh H.
  - cbn in H. injection H as <-. cbn. now rewrite app_nil_r.
  - cbn [processBatch] in H. destruct (step read sh) as [sh1|] eqn:E; [|discriminate].
    rewrite (IH _ H), (processRead_survivors _ _ _ E).
    change (read :: l) with ([read] ++ l)%list. now rewrite survivors_app, app_assoc.
Qed.

Lemma runWorkers_survivors (sched : list nat) (bs : list (list FastqRead)) (sh : Shared) :
  run sched bs initShared = Some sh ->
  Permutation (trimmedReads sh) (kept (List.concat bs)).
Proof.
  intros H.
  destruct (runWorkers_as_batch Exp Log adapter minLen trim5 trim3 min5Match maxError
              sched bs initShared) as (l & P & E).
  rewrite E in H. rewrite (processBatch_survivors _ _ _ H). cbn [trimmedReads initShared app].
  now apply survivors_perm.
Qed.

(** One worker alone goes through its batch in order, whatever the
    schedule. *)
Lemma runWorkers_one_batch (sched : list nat) (bs : list (list FastqRead)) (sh : Shared) :
  (List.length bs <= 1)%nat -> run sched bs sh = batch (List.concat bs) sh.
Proof.
  revert bs sh. induction sched as [|w sched IH]; intros bs sh Hb.
  - cbn [runWorkers]. apply finishWorkers_concat.
  - cbn [runWorkers]. destruct bs as [|l [|l' bs]]; [| |cbn in Hb; lia].
    + destruct w; cbn [nth_error]; now apply IH.
    + destruct w as [|w]; cbn [nth_error].
      * destruct l as [|read rest]; [now apply IH|].
        cbn [List.concat app processBatch]. destruct (step read sh) as [sh1|]; [|reflexivity].
        cbn [replaceNth]. rewrite IH by (cbn; lia). reflexivity.
      * destruct w; cbn [nth_error]; now apply IH.
Qed.

Lemma survivors_In (l : list FastqRead) (r : FastqRead) :
  In r (kept l) -> exists read, In read l /\ trim read = Ok r.
Proof.
  induction l as [|read l IH]; cbn [survivors]; [intros []|].
  intros Hr. destruct (trim read) as [r0|e|] eqn:E.
  - destruct Hr as [<-|Hr].
    + exists read. split; [now left|assumption].
    + destruct (IH Hr) as (x & Hx & Ex). exists x. split; [now right|assumption].
  - destruct (IH Hr) as (x & Hx & Ex). exists x. split; [now right|assumption].
  - destruct (IH Hr) as (x & Hx & Ex). exists x. split; [now right|assumption].
Qed.

(** X8: a worker hands over the reads it keeps in the order of its batch,
    behind the survivors already there, which it leaves as they are; each
    read handed over is what [trimRead] returned for a read of the batch. *)
Theorem processBatch_in_order (l : list FastqRead) (sh sh' : Shared) :
  batch l sh = Some sh' ->
  trimmedReads sh' = (trimmedReads sh ++ kept l)%list /\
  (forall r, In r (kept l) -> exists read, In read l /\ trim read = Ok r).
Proof.
  intros H. split; [now apply processBatch_survivors|]. intros r. apply survivors_In.
Qed.

End SurvivorFacts.

Lemma processBatch_in_order_witness :
  trimmedReads
    {| adapterMissingCount := 0; tooShortCount := 0; lowQualityCount := 1;
       trimmedReads := [{| Header := "@Header"; Sequence := "ATCG"; Quality := "FFFF" |};
                        {| Header := "@READ2"; Sequence := "GGGG"; Quality := "IIII" |}] |} =
  (trimmedReads initShared ++
   survivors GoMath.exp GoMath.log "ATCC" 2 0 0 4 F64.tenth
     [exampleRead; lowQualityRead; secondRead])%list.
Proof.
  apply (processBatch_in_order GoMath.exp GoMath.log "ATCC" 2 0 0 4 F64.tenth
           [exampleRead; lowQualityRead; secondRead] initShared).
  vm_compute. reflexivity.
Defined.

(* ===================================================================== *)
(** * The two variants and the text they write *)
(* ===================================================================== *)

Lemma append_nil_r (s : string) : s ++ "" = s.
Proof. induction s as [|c s IH]; cbn [append]; [reflexivity|now rewrite IH]. Qed.

Lemma fastqText_cons (r : FastqRead) (rs : list FastqRead) :
  fastqText (r :: rs) =
  (Header r ++ nl) ++ (Sequence r ++ nl) ++ ("+" ++ nl) ++ (Quality r ++ nl) ++ fastqText rs.
Proof. reflexivity. Qed.

Lemma writeTrimmedReads_mem (rs : list FastqRead) (w : string) :
  Buffered.writeTrimmedReads (writerOps := memWriter) rs w = (w ++ fastqText rs, None).
Proof.
  revert w. induction rs as [|r rs IH]; intros w.
  - cbn. now rewrite append_nil_r.
  - cbn [Buffered.writeTrimmedReads WriteString memWriter].
    rewrite IH, fastqText_cons, !SliceFacts.append_assoc. reflexivity.
Qed.

(** When no write fails, the writer goroutine leaves the sink as the
    buffered loop followed by [Flush] does. *)
Lemma writers_agree {W : Type} (ops : Writer W) (rs : list FastqRead) (w w1 : W) (n : Z) :
  Buffered.writeTrimmedReads rs w = (w1, None) ->
  fst (Streaming.writeResults w rs n) = fst (Flush w1).
Proof.
  revert w n. induction rs as [|r rs IH]; intros w n H.
  - cbn in H. injection H as <-. reflexivity.
  - cbn [Buffered.writeTrimmedReads] in H. cbn [Streaming.writeResults].
    destruct (WriteString w (Header r ++ nl)) as [wa [e|]]; [discriminate|]. cbn [fst].
    destruct (WriteString wa (Sequence r ++ nl)) as [wb [e|]]; [discriminate|]. cbn [fst].
    destruct (WriteString wb ("+" ++ nl)) as [wc [e|]]; [discriminate|]. cbn [fst].
    destruct (WriteString wc (Quality r ++ nl)) as [wd [e|]]; [discriminate|]. cbn [fst].
    now apply IH.
Qed.

Section Variants.
Import F64.

Variables Exp Log : float64 -> float64.
Variable adapter : string.
Variables minLen trim5 trim3 min5Match : Z.
Variable maxError : float64.

Local Abbreviation kept := (survivors Exp Log adapter minLen trim5 trim3 min5Match maxError).

(** X9: whenever [ProcessReadsFast] in the variant that buffers the
    survivors (batches of 1000000 reads) completes, [ProcessReadsFast] in
    the variant that streams them to the writer goroutine (batches of 10000
    reads), given the same files, sink and parameters and any schedule of
    its workers, completes with the same report; when the stream holds at
    most 10000 records it also leaves the sink in the same state. *)
Theorem variants_agree {W : Type} (ops : Writer W) (files : Files) (writer : W)
    (sched sched' : list nat) (report : Report) (writer' : W) :
  Z.of_nat (List.length (lines (scanner files))) <= Int64.max_int ->
  Buffered.ProcessReadsFast Exp Log files writer sched adapter
    minLen trim5 trim3 min5Match maxError = Ok (report, writer') ->
  (exists writer'',
     Streaming.ProcessReadsFast Exp Log files writer sched' adapter
       minLen trim5 trim3 min5Match maxError = Ok (report, writer'')) /\
  (Z.of_nat (List.length (records (lines (scanner files)))) <= Streaming.batchSize ->
   Streaming.ProcessReadsFast Exp Log files writer sched' adapter
     minLen trim5 trim3 min5Match maxError = Ok (report, writer')).
Proof.
  intros Hlen H.
  unfold Buffered.ProcessReadsFast, Buffered.ProcessReadsFastWith in H.
  unfold Streaming.ProcessReadsFast, Streaming.ProcessReadsFastWith.
  destruct (openErr files); [discriminate|].
  destruct (gzipErr files); [discriminate|].
  destruct (createErr files); [discriminate|].
  pose proof (scanLoop_any_batchSize Buffered.batchSize Streaming.batchSize
                (lines (scanner files))) as S.
  destruct (scanLoop Buffered.batchSize (lines (scanner files)) initScan) as [st|e|] eqn:Hscan;
    try discriminate.
  destruct (scanLoop Streaming.batchSize (lines (scanner files)) initScan) as [st'|e'|]
    eqn:Hscan'; try contradiction.
  destruct S as [Rd Tot].
  destruct (scanErr (scanner files)); [discriminate|].
  destruct (runWorkers _ _ _ _ _ _ _ _ sched _ _) as [sh|] eqn:Hrun; [|discriminate].
  cbv zeta in H.
  destruct (Buffered.writeTrimmedReads (trimmedReads sh) writer) as [w1 [e|]] eqn:Hw;
    [discriminate|].
  injection H as <- <-.
  pose proof (runWorkers_any_partition Exp Log adapter minLen trim5 trim3 min5Match maxError
                (allBatches st) (allBatches st') sched sched') as P.
  rewrite !allBatches_concat in P. specialize (P Rd). rewrite Hrun in P.
  destruct (runWorkers _ _ _ _ _ _ _ _ sched' _ _) as [sh'|] eqn:Hrun'; [|contradiction].
  destruct P as (P1 & P2 & P3 & P4).
  destruct (scan_and_workers Exp Log _ _ _ _ _ _ _ _ _ _ _ Hlen Hscan' Hrun') as (_ & _ & Hn).
  pose proof (writeResults_count (trimmedReads sh') writer 0 ltac:(lia) ltac:(lia)) as Hsnd.
  rewrite Z.add_0_l, <- (Permutation_length P4) in Hsnd.
  split.
  - destruct (Streaming.writeResults writer (trimmedReads sh') 0) as [w2 n].
    cbn [snd] in Hsnd. subst n. exists w2. now rewrite Tot, P1, P2, P3.
  - intros Hrec.
    assert (Hone' : (List.length (allBatches st') <= 1)%nat).
    { apply (scanLoop_one_batch Streaming.batchSize (lines (scanner files)));
        [unfold Streaming.batchSize; lia|assumption|assumption]. }
    assert (Hone : (List.length (allBatches st) <= 1)%nat).
    { apply (scanLoop_one_batch Buffered.batchSize (lines (scanner files)));
        [unfold Buffered.batchSize; lia
        |unfold Buffered.batchSize, Streaming.batchSize in *; lia|assumption]. }
    rewrite (runWorkers_one_batch _ _ _ _ _ _ _ _ _ _ _ Hone), allBatches_concat in Hrun.
    rewrite (runWorkers_one_batch _ _ _ _ _ _ _ _ _ _ _ Hone'), allBatches_concat, <- Rd, Hrun
      in Hrun'.
    injection Hrun' as <-.
    pose proof (writers_agree ops _ _ _ 0 Hw) as Hfst.
    destruct (Streaming.writeResults writer (trimmedReads sh) 0) as [w2 n].
    cbn [fst snd] in Hfst, Hsnd. subst w2 n. now rewrite Tot.
Qed.

(** X10: when the stream holds at most [batchSize] records there is one
    worker, and the schedule has no influence on either variant: result,
    report and sink are the same for any two schedules. *)
Theorem one_batch_deterministic {W : Type} (ops : Writer W) (batchSize : Z) (files : Files)
    (writer : W) (sched sched' : list nat) :
  1 <= batchSize ->
  Z.of_nat (List.length (records (lines (scanner files)))) <= batchSize ->
  Buffered.ProcessReadsFastWith Exp Log batchSize files writer sched adapter
    minLen trim5 trim3 min5Match maxError =
  Buffered.ProcessReadsFastWith Exp Log batchSize files writer sched' adapter
    minLen trim5 trim3 min5Match maxError /\
  Streaming.ProcessReadsFastWith Exp Log batchSize files writer sched adapter
    minLen trim5 trim3 min5Match maxError =
  Streaming.ProcessReadsFastWith Exp Log batchSize files writer sched' adapter
    minLen trim5 trim3 min5Match maxError.
Proof.
  intros Hb Hn.
  unfold Buffered.ProcessReadsFastWith, Streaming.ProcessReadsFastWith.
  destruct (openErr files); [split; reflexivity|].
  destruct (gzipErr files); [split; reflexivity|].
  destruct (createErr files); [split; reflexivity|].
  destruct (scanLoop batchSize (lines (scanner files)) initScan) as [st|e|] eqn:Hscan;
    try (split; reflexivity).
  destruct (scanErr (scanner files)); [split; reflexivity|].
  pose proof (scanLoop_one_batch _ _ _ Hb Hn Hscan) as Hone.
  rewrite !(runWorkers_one_batch Exp Log adapter minLen trim5 trim3 min5Match maxError _ _ _ Hone).
  split; reflexivity.
Qed.

(** X11: on a sink that does not fail, a run of either variant that
    completes has appended to the sink the reads that [trimRead] returns
    for the records of the stream, four lines each (identifier, sequence,
    "+", quality), every line ended by a line feed, and nothing else; the
    reads are in some order, and in the order of the stream when it holds
    at most [batchSize] records. *)
Theorem output_text (batchSize : Z) (files : Files) (writer : string) (sched : list nat)
    (report : Report) (writer' : string) :
  Buffered.ProcessReadsFastWith Exp Log (writerOps := memWriter) batchSize files writer sched
    adapter minLen trim5 trim3 min5Match maxError = Ok (report, writer') \/
  Streaming.ProcessReadsFastWith Exp Log (writerOps := memWriter) batchSize files writer sched
    adapter minLen trim5 trim3 min5Match maxError = Ok (report, writer') ->
  exists rs,
    Permutation rs (kept (map toRead (records (lines (scanner files))))) /\
    writer' = writer ++ fastqText rs /\
    (1 <= batchSize ->
     Z.of_nat (List.length (records (lines (scanner files)))) <= batchSize ->
     rs = kept (map toRead (records (lines (scanner files))))).
Proof.
  intros H.
  assert (Hrun : exists st sh,
            scanLoop batchSize (lines (scanner files)) initScan = Ok st /\
            runWorkers Exp Log adapter minLen trim5 trim3 min5Match maxError sched
              (allBatches st) initShared = Some sh /\
            writer' = writer ++ fastqText (trimmedReads sh)).
  { unfold Buffered.ProcessReadsFastWith, Streaming.ProcessReadsFastWith in H.
    destruct (openErr files); [destruct H; discriminate|].
    destruct (gzipErr files); [destruct H; discriminate|].
    destruct (createErr files); [destruct H; discriminate|].
    destruct (scanLoop batchSize (lines (scanner files)) initScan) as [st|e|] eqn:Hscan;
      try (destruct H; discriminate).
    destruct (scanErr (scanner files)); [destruct H; discriminate|].
    destruct (runWorkers _ _ _ _ _ _ _ _ _ _ _) as [sh|] eqn:Hrun; [|destruct H; discriminate].
    exists st, sh. split; [reflexivity|]. split; [exact Hrun|].
    pose proof (writeTrimmedReads_mem (trimmedReads sh) writer) as Hw.
    pose proof (writers_agree memWriter _ _ _ 0 Hw) as Hfst.
    destruct H as [H|H].
    - cbv zeta in H. rewrite Hw in H. now injection H as _ <-.
    - destruct (Streaming.writeResults writer (trimmedReads sh) 0) as [w2 n].
      cbn [fst] in Hfst. injection H as _ <-. exact Hfst. }
  destruct Hrun as (st & sh & Hscan & Hrun & ->).
  exists (trimmedReads sh).
  assert (Hall : List.concat (allBatches st) = map toRead (records (lines (scanner files)))).
  { rewrite allBatches_concat. now apply scanLoop_ok in Hscan. }
  split; [|split; [reflexivity|]].
  - rewrite <- Hall. eapply runWorkers_survivors. exact Hrun.
  - intros Hb Hn. pose proof (scanLoop_one_batch _ _ _ Hb Hn Hscan) as Hone.
    rewrite (runWorkers_one_batch _ _ _ _ _ _ _ _ _ _ _ Hone) in Hrun.
    rewrite (processBatch_survivors _ _ _ _ _ _ _ _ _ _ _ Hrun), Hall. reflexivity.
Qed.

End Variants.

Lemma variants_agree_witness :
  (exists writer'',
     Streaming.ProcessReadsFast GoMath.exp GoMath.log (writerOps := memWriter)
       testFiles "" [0]%nat "ATCC" 4 0 0 4 F64.tenth =
     Ok ({| total := 1; trimmed := 1; adapterMissing := 0; tooShort := 0; lowQuality := 0 |},
         writer'')) /\
  (Z.of_nat (List.length (records (lines (scanner testFiles)))) <= Streaming.batchSize ->
   Streaming.ProcessReadsFast GoMath.exp GoMath.log (writerOps := memWriter)
     testFiles "" [0]%nat "ATCC" 4 0 0 4 F64.tenth =
   Ok ({| total := 1; trimmed := 1; adapterMissing := 0; tooShort := 0; lowQuality := 0 |},
       "@READ1" ++ nl ++ "ATCG" ++ nl ++ "+" ++ nl ++ "IIII" ++ nl)).
Proof.
  apply (variants_agree GoMath.exp GoMath.log "ATCC" 4 0 0 4 F64.tenth memWriter
           testFiles "" [] [0]%nat).
  - vm_compute. discriminate.
  - vm_compute. reflexivity.
Defined.

Lemma one_batch_deterministic_witness :
  Buffered.ProcessReadsFastWith GoMath.exp GoMath.log (writerOps := memWriter) 2
    testFiles "" [0; 0]%nat "ATCC" 4 0 0 4 F64.tenth =
  Buffered.ProcessReadsFastWith GoMath.exp GoMath.log (writerOps := memWriter) 2
    testFiles "" [] "ATCC" 4 0 0 4 F64.tenth /\
  Streaming.ProcessReadsFastWith GoMath.exp GoMath.log (writerOps := memWriter) 2
    testFiles "" [0; 0]%nat "ATCC" 4 0 0 4 F64.tenth =
  Streaming.ProcessReadsFastWith GoMath.exp GoMath.log (writerOps := memWriter) 2
    testFiles "" [] "ATCC" 4 0 0 4 F64.tenth.
Proof.
  apply (one_batch_deterministic GoMath.exp GoMath.log "ATCC" 4 0 0 4 F64.tenth memWriter 2
           testFiles "" [0; 0]%nat []).
  - lia.
  - vm_compute. discriminate.
Defined.

Lemma output_text_witness :
  exists rs,
    Permutation rs
      (survivors GoMath.exp GoMath.log "ATCC" 4 0 0 4 F64.tenth
         (map toRead (records (lines (scanner testFiles))))) /\
    "@READ1" ++ nl ++ "ATCG" ++ nl ++ "+" ++ nl ++ "IIII" ++ nl = "" ++ fastqText rs /\
    (1 <= 10000 ->
     Z.of_nat (List.length (records (lines (scanner testFiles)))) <= 10000 ->
     rs = survivors GoMath.exp GoMath.log "ATCC" 4 0 0 4 F64.tenth
            (map toRead (records (lines (scanner testFiles))))).
Proof.
  apply (output_text GoMath.exp GoMath.log "ATCC" 4 0 0 4 F64.tenth 10000 testFiles "" []
           {| total := 1; trimmed := 1; adapterMissing := 0; tooShort := 0; lowQuality := 0 |}).
  left. vm_compute. reflexivity.
Defined.

(* ===================================================================== *)
(** * The output is a valid input *)
(* ===================================================================== *)

Lemma records_fastqLines (rs : list FastqRead) :
  records (List.concat (map fastqLines rs)) =
  map (fun r => (Header r, Sequence r, "+", Quality r)) rs.
Proof.
  induction rs as [|r rs IH]; [reflexivity|].
  cbn [map List.concat fastqLines app records]. now rewrite IH.
Qed.

Lemma toRead_fastqLines (rs : list FastqRead) :
  map toRead (map (fun r => (Header r, Sequence r, "+", Quality r)) rs) = rs.
Proof.
  induction rs as [|[h s q] rs IH]; [reflexivity|]. cbn [map toRead Header Sequence Quality].
  now rewrite IH.
Qed.

(** The lines of reads that pass the three structural checks are scanned
    back into these reads. *)
Lemma scanLoop_fastqLines (batchSize : Z) (rs : list FastqRead) :
  Forall (fun r => GoString.HasPrefix (Header r) "@" = true /\
                   GoString.len (Sequence r) = GoString.len (Quality r)) rs ->
  exists st, scanLoop batchSize (List.concat (map fastqLines rs)) initScan = Ok st /\
             readsOf st = rs.
Proof.
  intros Hwf.
  assert (Hall : Forall wellFormed (records (List.concat (map fastqLines rs)))).
  { rewrite records_fastqLines. apply Forall_map.
    eapply Forall_impl; [|exact Hwf]. intros r [H1 H2]. cbn. auto. }
  destruct (scanLoop_spec batchSize (List.concat (map fastqLines rs)) initScan)
    as [(_ & st & E & R & _)|(pre & rec & post & msg & E & _ & Hbad & _)].
  - exists st. split; [assumption|]. rewrite R, records_fastqLines, toRead_fastqLines.
    reflexivity.
  - exfalso. apply Hbad. rewrite E in Hall. apply Forall_app in Hall as [_ Hall].
    now inversion Hall.
Qed.

Lemma bytes_append (a b : string) :
  GoString.bytes (a ++ b) = (GoString.bytes a ++ GoString.bytes b)%list.
Proof.
  unfold GoString.bytes. induction a as [|c a IH]; cbn [append list_ascii_of_string app];
    [reflexivity|now rewrite IH].
Qed.

(** A slice holds no byte that the string does not hold. *)
Lemma slice_In (s t : string) (lo hi : Z) (c : ascii) :
  GoString.slice s lo hi = Some t -> In c (GoString.bytes t) -> In c (GoString.bytes s).
Proof.
  intros H Hin. destruct (SliceFacts.slice_split _ _ _ _ H) as (pre & post & E & _).
  rewrite E, !bytes_append. apply in_or_app. right. apply in_or_app. now left.
Qed.

Lemma slice_clean (s t : string) (lo hi : Z) :
  GoString.slice s lo hi = Some t -> clean s -> clean t.
Proof.
  intros H [H1 H2]. split; intros Hin; [apply H1|apply H2]; eapply slice_In; eauto.
Qed.

Lemma dropCR_clean (s : string) : ~ In CR (GoString.bytes s) -> dropCR s = s.
Proof.
  unfold GoString.bytes. induction s as [|c s IH]; [reflexivity|].
  intros H. cbn [dropCR]. destruct s as [|d s].
  - destruct (Ascii.eqb_spec c CR) as [->|_]; [|reflexivity].
    exfalso. apply H. now left.
  - f_equal. apply IH. intros Hin. apply H. now right.
Qed.

(** A line without line feed, followed by a line feed, is the next token. *)
Lemma scanLines_line (l rest line : string) :
  ~ In LF (GoString.bytes l) ->
  scanLines (l ++ String LF rest) line = dropCR (line ++ l) :: scanLines rest "".
Proof.
  unfold GoString.bytes. revert line. induction l as [|c l IH]; intros line H.
  - cbn [append scanLines]. rewrite Ascii.eqb_refl. now rewrite append_nil_r.
  - cbn [append scanLines]. destruct (Ascii.eqb_spec c LF) as [->|_].
    + exfalso. apply H. now left.
    + rewrite IH by (intros Hin; apply H; now right).
      now rewrite SliceFacts.append_assoc.
Qed.

Lemma ScanLines_joinLines (ls : list string) :
  Forall clean ls -> ScanLines (joinLines ls) = ls.
Proof.
  unfold ScanLines. induction 1 as [|l ls [H1 H2] _ IH]; [reflexivity|].
  cbn [joinLines]. unfold nl. rewrite SliceFacts.append_assoc.
  change (String "010" "" ++ joinLines ls) with (String LF (joinLines ls)).
  rewrite scanLines_line by assumption. cbn [append].
  now rewrite dropCR_clean, IH.
Qed.

Lemma Forall_nth_default {A : Type} (P : A -> Prop) (l : list A) (d : A) (n : nat) :
  Forall P l -> P d -> P (nth n l d).
Proof.
  intros F Hd. revert n. induction F as [|x l Hx _ IH]; intros [|n]; cbn; auto.
Qed.

(** The fields of the records of clean lines are clean. *)
Lemma records_clean (stream : list string) :
  Forall clean stream ->
  Forall (fun rec : string * string * string * string =>
            let '(h, s, p, q) := rec in clean h /\ clean s /\ clean p /\ clean q)
         (records stream).
Proof.
  assert (He : clean "") by (split; intros []).
  induction stream as [|header short Hshort|h s p q rest IH] using lines_ind; intros F.
  - constructor.
  - rewrite records_short by assumption. inversion F as [|? ? Hh Hs]; subst.
    constructor; [|constructor].
    repeat split; try assumption; try (apply Forall_nth_default; [exact Hs|exact He]);
      first [apply Hh | apply (Forall_nth_default clean short "" _ Hs He)].
  - cbn [records].
    inversion F as [|? ? Hh F1]; subst. inversion F1 as [|? ? Hs F2]; subst.
    inversion F2 as [|? ? Hp F3]; subst. inversion F3 as [|? ? Hq F4]; subst.
    constructor; [tauto|now apply IH].
Qed.

Section Rescan.
Import F64 GoString StringFacts.

Variables Exp Log : float64 -> float64.
Variable adapter : string.
Variables minLen trim5 trim3 min5Match : Z.
Variable maxError : float64.

(** [trimRead] keeps a read that passes the structural checks in that
    state. *)
Lemma trimRead_wellFormed (read r : FastqRead) :
  trimRead Exp Log read adapter minLen trim5 trim3 min5Match maxError = Ok r ->
  HasPrefix (Header read) "@" = true ->
  HasPrefix (Header r) "@" = true /\ len (Sequence r) = len (Quality r).
Proof.
  intros H Hh.
  destruct (trimRead_Ok_inv _ _ _ _ _ _ _ _ _ _ H) as (pat & _ & _ & _ & Hs & Hq & _ & Hhd).
  apply slice_Some in Hs as (_ & _ & _ & _ & Ls).
  apply slice_Some in Hq as (_ & _ & _ & _ & Lq).
  rewrite Hhd. split; [assumption|lia].
Qed.

(** [trimRead] keeps the fields of a read free of line feeds and carriage
    returns. *)
Lemma trimRead_clean (read r : FastqRead) :
  trimRead Exp Log read adapter minLen trim5 trim3 min5Match maxError = Ok r ->
  clean (Header read) -> clean (Sequence read) -> clean (Quality read) ->
  clean (Header r) /\ clean (Sequence r) /\ clean (Quality r).
Proof.
  intros H Hh Hs Hq.
  destruct (trimRead_Ok_inv _ _ _ _ _ _ _ _ _ _ H) as (pat & _ & _ & _ & Es & Eq & _ & Hhd).
  rewrite Hhd. split; [assumption|]. split; eapply slice_clean; eauto.
Qed.

(** X12: for a stream whose lines hold neither line feed nor carriage
    return, the text written for the reads handed over by the workers of a
    run (identifier, sequence, "+" and quality, each ended by a line feed)
    is a valid input: cut into lines as [bufio.Scanner] does, it passes the
    three structural checks of the scanning loop, for any batch size, and is
    scanned back into the same reads in the same order. *)
Theorem output_rescans (batchSize batchSize' : Z) (stream : list string) (st : ScanState)
    (sched : list nat) (sh : Shared) :
  Forall clean stream ->
  scanLoop batchSize stream initScan = Ok st ->
  runWorkers Exp Log adapter minLen trim5 trim3 min5Match maxError sched (allBatches st)
    initShared = Some sh ->
  ScanLines (fastqText (trimmedReads sh)) = List.concat (map fastqLines (trimmedReads sh)) /\
  exists st',
    scanLoop batchSize' (ScanLines (fastqText (trimmedReads sh))) initScan = Ok st' /\
    readsOf st' = trimmedReads sh.
Proof.
  intros Hclean Hscan Hrun.
  pose proof (runWorkers_survivors _ _ _ _ _ _ _ _ _ _ _ Hrun) as P.
  rewrite allBatches_concat in P.
  apply scanLoop_ok in Hscan as (Hwf & HR & _). rewrite HR in P.
  pose proof (records_clean stream Hclean) as Hrc.
  assert (Hkept : Forall (fun r =>
            (HasPrefix (Header r) "@" = true /\ len (Sequence r) = len (Quality r)) /\
            clean (Header r) /\ clean (Sequence r) /\ clean (Quality r)) (trimmedReads sh)).
  { apply Forall_forall. intros r Hr.
    apply (Permutation_in _ P) in Hr.
    apply survivors_In in Hr as (read & Hin & Hok).
    apply in_map_iff in Hin as (rec & <- & Hrec).
    rewrite Forall_forall in Hwf, Hrc. specialize (Hwf _ Hrec). specialize (Hrc _ Hrec).
    destruct rec as [[[h s] p] q]. cbn in Hwf, Hrc.
    split.
    - apply (trimRead_wellFormed _ _ Hok). cbn. tauto.
    - apply (trimRead_clean _ _ Hok); cbn; tauto. }
  assert (Htext : ScanLines (fastqText (trimmedReads sh)) =
                  List.concat (map fastqLines (trimmedReads sh))).
  { apply ScanLines_joinLines. apply Forall_concat. apply Forall_map.
    eapply Forall_impl; [|exact Hkept]. intros r (_ & Hh & Hs & Hq).
    unfold fastqLines. constructor; [exact Hh|]. constructor; [exact Hs|].
    constructor; [split; cbv; intuition discriminate|]. constructor; [exact Hq|constructor]. }
  split; [exact Htext|]. rewrite Htext. apply scanLoop_fastqLines.
  eapply Forall_impl; [|exact Hkept]. intros r [H _]. exact H.
Qed.

End Rescan.

Lemma output_rescans_witness :
  ScanLines
    (fastqText
       (trimmedReads
          {| adapterMissingCount := 0; tooShortCount := 0; lowQualityCount := 0;
             trimmedReads := [{| Header := "@READ1"; Sequence := "ATCG";
                                 Quality := "IIII" |}] |})) =
    ["@READ1"; "ATCG"; "+"; "IIII"] /\
  exists st',
    scanLoop 1
      (ScanLines
         (fastqText
            (trimmedReads
               {| adapterMissingCount := 0; tooShortCount := 0; lowQualityCount := 0;
                  trimmedReads := [{| Header := "@READ1"; Sequence := "ATCG";
                                      Quality := "IIII" |}] |}))) initScan = Ok st' /\
    readsOf st' =
      trimmedReads
        {| adapterMissingCount := 0; tooShortCount := 0; lowQualityCount := 0;
           trimmedReads := [{| Header := "@READ1"; Sequence := "ATCG";
                               Quality := "IIII" |}] |}.
Proof.
  apply (output_rescans GoMath.exp GoMath.log "ATCC" 4 0 0 4 F64.tenth 10000 1
           ["@READ1"; "ATCGATCC"; "+"; "IIIIIIII"]
           {| reads := [{| Header := "@READ1"; Sequence := "ATCGATCC";
                           Quality := "IIIIIIII" |}];
              dispatched := []; totalReads := 1 |} []).
  - repeat (constructor; [split; cbv; intuition discriminate|]). constructor.
  - vm_compute. reflexivity.
  - vm_compute. reflexivity.
Defined.

(* ===================================================================== *)
(** * The counters of the report *)
(* ===================================================================== *)

Lemma add_one_small (c : Z) : 0 <= c -> c < Int64.max_int -> Int64.add c 1 = c + 1.
Proof.
  intros H0 H1. unfold Int64.add. apply wrap_in_range.
  unfold Int64.in_range, Int64.min_int, Int64.max_int in *. lia.
Qed.

Lemma filter_length_perm {A : Type} (f : A -> bool) (l1 l2 : list A) :
  Permutation l1 l2 -> List.length (filter f l1) = List.length (filter f l2).
Proof.
  induction 1 as [|x l l' _ IH|x y l|l l' l'' _ IH1 _ IH2]; cbn [filter].
  - reflexivity.
  - destruct (f x); cbn [List.length]; now rewrite IH.
  - destruct (f x), (f y); reflexivity.
  - now rewrite IH1.
Qed.

Section Counters.
Import F64.

Variables Exp Log : float64 -> float64.
Variable adapter : string.
Variables minLen trim5 trim3 min5Match : Z.
Variable maxError : float64.

Local Abbreviation trim read :=
  (trimRead Exp Log read adapter minLen trim5 trim3 min5Match maxError).
Local Abbreviation step := (processRead Exp Log adapter minLen trim5 trim3 min5Match maxError).
Local Abbreviation batch := (processBatch Exp Log adapter minLen trim5 trim3 min5Match maxError).
Local Abbreviation run := (runWorkers Exp Log adapter minLen trim5 trim3 min5Match maxError).
Local Abbreviation kept := (survivors Exp Log adapter minLen trim5 trim3 min5Match maxError).
Local Abbreviation count :=
  (countAnswers Exp Log adapter minLen trim5 trim3 min5Match maxError).
Local Abbreviation ans := (answers Exp Log adapter minLen trim5 trim3 min5Match maxError).

Lemma countAnswers_cons (msg : string) (read : FastqRead) (l : list FastqRead) :
  count msg (read :: l) = (if ans msg read then 1 else 0) + count msg l.
Proof.
  unfold countAnswers. cbn [filter]. destruct (ans msg read); cbn [List.length]; lia.
Qed.

Lemma countAnswers_perm (msg : string) (l1 l2 : list FastqRead) :
  Permutation l1 l2 -> count msg l1 = count msg l2.
Proof. intros P. unfold countAnswers. now rewrite (filter_length_perm _ _ _ P). Qed.

(** Each counter grows by the number of reads of the batch that get its
    answer. *)
Lemma processBatch_counts (l : list FastqRead) (sh sh' : Shared) :
  batch l sh = Some sh' ->
  countersNonneg sh -> accounted sh + Z.of_nat (List.length l) <= Int64.max_int ->
  adapterMissingCount sh' = adapterMissingCount sh + count "adapter missing" l /\
  tooShortCount sh' = tooShortCount sh + count "too short" l /\
  lowQualityCount sh' = lowQualityCount sh + count "low quality" l.
Proof.
  revert sh. induction l as [|read l IH]; intros sh H (Ha & Ht & Hl) Hb.
  - cbn in H. injection H as <-. unfold countAnswers. cbn. lia.
  - cbn [processBatch] in H. cbn [List.length] in Hb. rewrite Nat2Z.inj_succ in Hb.
    unfold accounted in Hb.
    pose proof (Nat2Z.is_nonneg (List.length (trimmedReads sh))) as Hn.
    pose proof (Nat2Z.is_nonneg (List.length l)) as Hm.
    rewrite !countAnswers_cons. unfold answers.
    destruct (processRead_cases Exp Log adapter minLen trim5 trim3 min5Match maxError read sh)
      as [[E S]|[[E S]|[[E S]|[[E S]|(r & E & S)]]]]; rewrite S in H; try discriminate;
      rewrite E; rewrite ?add_one_small in H by lia;
      apply IH in H;
      try (unfold countersNonneg, accounted; cbn [adapterMissingCount tooShortCount
             lowQualityCount trimmedReads]; rewrite ?length_app; cbn [List.length]; lia);
      cbn [adapterMissingCount tooShortCount lowQualityCount trimmedReads] in H;
      destruct H as (H1 & H2 & H3); rewrite H1, H2, H3;
      repeat match goal with
             | |- context [String.eqb ?a ?b] =>
                 let v := eval vm_compute in (String.eqb a b) in
                 change (String.eqb a b) with v
             end;
      cbv iota; lia.
Qed.

(** A read on which [trimRead] panics ends the run, whoever gets it. *)
Lemma processBatch_panics (l : list FastqRead) (sh : Shared) (read : FastqRead) :
  In read l -> trim read = Panic -> batch l sh = None.
Proof.
  revert sh. induction l as [|x l IH]; intros sh [].
  - subst x. intros E. cbn [processBatch]. unfold processRead. now rewrite E.
  - intros E. cbn [processBatch]. destruct (step x sh); [now apply IH|reflexivity].
Qed.

Lemma runWorkers_panics (sched : list nat) (bs : list (list FastqRead)) (sh : Shared)
    (read : FastqRead) :
  In read (List.concat bs) -> trim read = Panic -> run sched bs sh = None.
Proof.
  intros Hin E.
  destruct (runWorkers_as_batch Exp Log adapter minLen trim5 trim3 min5Match maxError
              sched bs sh) as (l & P & ->).
  apply (processBatch_panics l sh read); [|assumption].
  apply (Permutation_in _ (Permutation_sym P) Hin).
Qed.

Context {W : Type} {ops : Writer W}.

(** What a completed run of either variant went through. *)
Lemma completed_run (batchSize : Z) (files : Files) (writer : W) (sched : list nat)
    (report : Report) (writer' : W) :
  Z.of_nat (List.length (lines (scanner files))) <= Int64.max_int ->
  Buffered.ProcessReadsFastWith Exp Log batchSize files writer sched adapter
    minLen trim5 trim3 min5Match maxError = Ok (report, writer') \/
  Streaming.ProcessReadsFastWith Exp Log batchSize files writer sched adapter
    minLen trim5 trim3 min5Match maxError = Ok (report, writer') ->
  exists st sh,
    scanLoop batchSize (lines (scanner files)) initScan = Ok st /\
    run sched (allBatches st) initShared = Some sh /\
    report = {| total := totalReads st;
                trimmed := Z.of_nat (List.length (trimmedReads sh));
                adapterMissing := adapterMissingCount sh;
                tooShort := tooShortCount sh;
                lowQuality := lowQualityCount sh |}.
Proof.
  intros Hlen H.
  unfold Buffered.ProcessReadsFastWith, Streaming.ProcessReadsFastWith in H.
  destruct (openErr files); [destruct H; discriminate|].
  destruct (gzipErr files); [destruct H; discriminate|].
  destruct (createErr files); [destruct H; discriminate|].
  destruct (scanLoop batchSize (lines (scanner files)) initScan) as [st|e|] eqn:Hscan;
    try (destruct H; discriminate).
  destruct (scanErr (scanner files)); [destruct H; discriminate|].
  destruct (runWorkers _ _ _ _ _ _ _ _ _ _ _) as [sh|] eqn:Hrun; [|destruct H; discriminate].
  exists st, sh. split; [reflexivity|]. split; [exact Hrun|].
  destruct H as [H|H].
  - cbv zeta in H.
    destruct (Buffered.writeTrimmedReads (trimmedReads sh) writer) as [w1 [e|]];
      [discriminate|].
    now injection H as <- _.
  - destruct (scan_and_workers Exp Log _ _ _ _ _ _ _ _ _ _ _ Hlen Hscan Hrun) as (_ & _ & Hn).
    pose proof (writeResults_count (trimmedReads sh) writer 0 ltac:(lia) ltac:(lia)) as Hsnd.
    destruct (Streaming.writeResults writer (trimmedReads sh) 0) as [w2 n].
    cbn [snd] in Hsnd. subst n. now injection H as <- _.
Qed.

(** X13: in the report of a completed run of either variant, the total
    is the number of records of the stream, each of the three rejection
    counters is the number of records for which [trimRead] gives that
    answer, and the number of trimmed reads is the number of records for
    which [trimRead] returns a read, whatever the schedule and the batch
    size. *)
Theorem report_counts (batchSize : Z) (files : Files) (writer : W) (sched : list nat)
    (report : Report) (writer' : W) :
  Z.of_nat (List.length (lines (scanner files))) <= Int64.max_int ->
  Buffered.ProcessReadsFastWith Exp Log batchSize files writer sched adapter
    minLen trim5 trim3 min5Match maxError = Ok (report, writer') \/
  Streaming.ProcessReadsFastWith Exp Log batchSize files writer sched adapter
    minLen trim5 trim3 min5Match maxError = Ok (report, writer') ->
  total report = Z.of_nat (List.length (records (lines (scanner files)))) /\
  trimmed report =
    Z.of_nat (List.length (kept (map toRead (records (lines (scanner files)))))) /\
  adapterMissing report =
    count "adapter missing" (map toRead (records (lines (scanner files)))) /\
  tooShort report = count "too short" (map toRead (records (lines (scanner files)))) /\
  lowQuality report = count "low quality" (map toRead (records (lines (scanner files)))).
Proof.
  intros Hlen H.
  destruct (completed_run _ _ _ _ _ _ Hlen H) as (st & sh & Hscan & Hrun & ->).
  cbn [total trimmed adapterMissing tooShort lowQuality].
  pose proof (scanLoop_ok _ _ _ Hscan) as (_ & HR & Ht). specialize (Ht Hlen).
  rewrite <- allBatches_concat in HR.
  destruct (runWorkers_as_batch Exp Log adapter minLen trim5 trim3 min5Match maxError
              sched (allBatches st) initShared) as (l & P & E).
  rewrite E in Hrun. rewrite HR in P.
  pose proof (records_length (lines (scanner files))) as Hrl.
  pose proof (Permutation_length P) as Pl. rewrite length_map in Pl.
  destruct (processBatch_counts l initShared sh Hrun) as (H1 & H2 & H3).
  { unfold countersNonneg. cbn. lia. }
  { unfold accounted. cbn [initShared adapterMissingCount tooShortCount lowQualityCount
      trimmedReads List.length]. lia. }
  cbn [initShared adapterMissingCount tooShortCount lowQualityCount] in H1, H2, H3.
  rewrite (countAnswers_perm "adapter missing" _ _ P) in H1.
  rewrite (countAnswers_perm "too short" _ _ P) in H2.
  rewrite (countAnswers_perm "low quality" _ _ P) in H3.
  split.
  { rewrite Ht, <- allBatches_concat, HR. now rewrite length_map. }
  split.
  { rewrite (processBatch_survivors _ _ _ _ _ _ _ _ _ _ _ Hrun). cbn [initShared trimmedReads app].
    f_equal. apply Permutation_length.
    apply (survivors_perm Exp Log adapter minLen trim5 trim3 min5Match maxError _ _ P). }
  repeat split; lia.
Qed.

Lemma run_panics (batchSize : Z) (files : Files) (writer : W) (sched : list nat)
    (rec : string * string * string * string) :
  openErr files = None -> gzipErr files = None -> createErr files = None ->
  scanErr (scanner files) = None ->
  Forall wellFormed (records (lines (scanner files))) ->
  In rec (records (lines (scanner files))) ->
  trim (toRead rec) = Panic ->
  Buffered.ProcessReadsFastWith Exp Log batchSize files writer sched adapter
    minLen trim5 trim3 min5Match maxError = Panic /\
  Streaming.ProcessReadsFastWith Exp Log batchSize files writer sched adapter
    minLen trim5 trim3 min5Match maxError = Panic.
Proof.
  intros Ho Hg Hc He Hwf Hin Hp.
  unfold Buffered.ProcessReadsFastWith, Streaming.ProcessReadsFastWith.
  rewrite Ho, Hg, Hc, He.
  destruct (scanLoop_spec batchSize (lines (scanner files)) initScan)
    as [(_ & st & E & R & _)|(pre & bad & post & msg & E & _ & Hbad & _)].
  - rewrite E.
    rewrite (runWorkers_panics sched (allBatches st) initShared (toRead rec));
      [split; reflexivity| |assumption].
    rewrite allBatches_concat, R. cbn [readsOf initScan dispatched reads List.concat app].
    now apply in_map.
  - exfalso. apply Hbad. rewrite E in Hwf. apply Forall_app in Hwf as [_ Hwf].
    now inversion Hwf.
Qed.

(** X14: when the files open and the stream scans without error, one
    record on which [trimRead] panics makes either variant panic, whatever
    the schedule, the batch size and the other records. *)
Theorem panic_propagates (batchSize : Z) (files : Files) (writer : W) (sched : list nat)
    (rec : string * string * string * string) :
  openErr files = None -> gzipErr files = None -> createErr files = None ->
  scanErr (scanner files) = None ->
  Forall wellFormed (records (lines (scanner files))) ->
  In rec (records (lines (scanner files))) ->
  trim (toRead rec) = Panic ->
  Buffered.ProcessReadsFastWith Exp Log batchSize files writer sched adapter
    minLen trim5 trim3 min5Match maxError = Panic /\
  Streaming.ProcessReadsFastWith Exp Log batchSize files writer sched adapter
    minLen trim5 trim3 min5Match maxError = Panic.
Proof. apply run_panics. Qed.

(** X15: with [min5Match] negative or greater than the length of the
    adapter, the slice [adapter[:min5Match]] is out of range for every
    read: a run on a stream that is not empty and scans without error
    panics in either variant, whatever the reads, the schedule and the
    other parameters. *)
Theorem min5Match_beyond_adapter (batchSize : Z) (files : Files) (writer : W)
    (sched : list nat) :
  openErr files = None -> gzipErr files = None -> createErr files = None ->
  scanErr (scanner files) = None ->
  Forall wellFormed (records (lines (scanner files))) ->
  lines (scanner files) <> [] ->
  min5Match < 0 \/ GoString.len adapter < min5Match ->
  Buffered.ProcessReadsFastWith Exp Log batchSize files writer sched adapter
    minLen trim5 trim3 min5Match maxError = Panic /\
  Streaming.ProcessReadsFastWith Exp Log batchSize files writer sched adapter
    minLen trim5 trim3 min5Match maxError = Panic.
Proof.
  intros Ho Hg Hc He Hwf Hne Hm.
  assert (Hrec : exists rec, In rec (records (lines (scanner files)))).
  { destruct (lines (scanner files)) as [|a [|b [|c [|d rest]]]]; [contradiction|..];
      eexists; left; reflexivity. }
  destruct Hrec as [rec Hin].
  apply (run_panics batchSize files writer sched rec); try assumption.
  apply trimRead_bad_prefix. unfold GoString.sliceTo. apply StringFacts.slice_None. lia.
Qed.

End Counters.

Lemma report_counts_witness :
  total {| total := 1; trimmed := 1; adapterMissing := 0; tooShort := 0; lowQuality := 0 |} =
    Z.of_nat (List.length (records (lines (scanner testFiles)))) /\
  trimmed {| total := 1; trimmed := 1; adapterMissing := 0; tooShort := 0; lowQuality := 0 |} =
    Z.of_nat (List.length
                (survivors GoMath.exp GoMath.log "ATCC" 4 0 0 4 F64.tenth
                   (map toRead (records (lines (scanner testFiles)))))) /\
  adapterMissing
    {| total := 1; trimmed := 1; adapterMissing := 0; tooShort := 0; lowQuality := 0 |} =
    countAnswers GoMath.exp GoMath.log "ATCC" 4 0 0 4 F64.tenth "adapter missing"
      (map toRead (records (lines (scanner testFiles)))) /\
  tooShort {| total := 1; trimmed := 1; adapterMissing := 0; tooShort := 0; lowQuality := 0 |} =
    countAnswers GoMath.exp GoMath.log "ATCC" 4 0 0 4 F64.tenth "too short"
      (map toRead (records (lines (scanner testFiles)))) /\
  lowQuality
    {| total := 1; trimmed := 1; adapterMissing := 0; tooShort := 0; lowQuality := 0 |} =
    countAnswers GoMath.exp GoMath.log "ATCC" 4 0 0 4 F64.tenth "low quality"
      (map toRead (records (lines (scanner testFiles)))).
Proof.
  apply (report_counts GoMath.exp GoMath.log "ATCC" 4 0 0 4 F64.tenth (ops := memWriter)
           10000 testFiles "" []
           {| total := 1; trimmed := 1; adapterMissing := 0; tooShort := 0; lowQuality := 0 |}
           ("@READ1" ++ nl ++ "ATCG" ++ nl ++ "+" ++ nl ++ "IIII" ++ nl)).
  - vm_compute. discriminate.
  - right. vm_compute. reflexivity.
Defined.

Lemma panic_propagates_witness :
  Buffered.ProcessReadsFastWith GoMath.exp GoMath.log (writerOps := memWriter) 10000
    testFiles "" [] "TTTT" 2 0 0 5 F64.tenth = Panic /\
  Streaming.ProcessReadsFastWith GoMath.exp GoMath.log (writerOps := memWriter) 10000
    testFiles "" [] "TTTT" 2 0 0 5 F64.tenth = Panic.
Proof.
  apply (panic_propagates GoMath.exp GoMath.log "TTTT" 2 0 0 5 F64.tenth (ops := memWriter)
           10000 testFiles "" [] ("@READ1", "ATCGATCC", "+", "IIIIIIII")).
  - reflexivity.
  - reflexivity.
  - reflexivity.
  - reflexivity.
  - repeat constructor.
  - left. reflexivity.
  - reflexivity.
Defined.

Lemma min5Match_beyond_adapter_witness :
  Buffered.ProcessReadsFastWith GoMath.exp GoMath.log (writerOps := memWriter) 1000000
    testFiles "" [] "ATCC" 18 0 0 8 F64.tenth = Panic /\
  Streaming.ProcessReadsFastWith GoMath.exp GoMath.log (writerOps := memWriter) 10000
    testFiles "" [] "ATCC" 18 0 0 8 F64.tenth = Panic.
Proof.
  split.
  - apply (min5Match_beyond_adapter GoMath.exp GoMath.log "ATCC" 18 0 0 8 F64.tenth
             (ops := memWriter) 1000000 testFiles "" []);
      [reflexivity | reflexivity | reflexivity | reflexivity | repeat constructor
      | discriminate | right; vm_compute; reflexivity].
  - apply (min5Match_beyond_adapter GoMath.exp GoMath.log "ATCC" 18 0 0 8 F64.tenth
             (ops := memWriter) 10000 testFiles "" []);
      [reflexivity | reflexivity | reflexivity | reflexivity | repeat constructor
      | discriminate | right; vm_compute; reflexivity].
Defined.

(* ===================================================================== *)
(** * The percentage printed *)
(* ===================================================================== *)

(** X16: the percentage of trimmed reads that [ProcessReadsFast] prints
    is NaN when the input holds no read; for up to 2^53 reads it is
    exactly 100 when every read is kept and exactly 0 when none is. *)
Theorem trimmedReadPercentage_edges :
  trimmedReadPercentage 0 0 = S754_nan /\
  (forall n, 1 <= n <= 2 ^ 53 ->
     trimmedReadPercentage n n = F64.of_Z 100 /\
     trimmedReadPercentage 0 n = F64.zero).
Proof.
  split; [reflexivity|]. intros n Hn. unfold trimmedReadPercentage. split.
  - rewrite FloatFacts.of_Z_div_self by assumption. reflexivity.
  - destruct (Z.eq_dec n (2 ^ 53)) as [->|E]; [vm_compute; reflexivity|].
    destruct n as [|j|j]; try lia.
    rewrite FloatFacts.of_Z_pos by (apply FloatFacts.digits_le; lia).
    reflexivity.
Qed.
